(** * Neon proxy: instruction builder, strategy ladder, indexer start slot
      and the RPC worker, embedded from the Python sources.

    Layout of the development:
    - [Py]: the Python built-ins the sources call ([int.to_bytes],
      [int.from_bytes], [bytes.fromhex], [bytes.hex], [str.strip],
      [str.lower], [str.startswith], [hex], [int(str)]).
    - [NeonInstruction]: [proxy/common_neon/neon_instruction.py].
    - [IndexerBase]: [proxy/indexer/indexer_base.py].
    - [NeonTxSender]: [proxy/mempool/neon_tx_sender.py].
    - [NeonRpcApiWorker]: [proxy/neon_rpc_api_model/neon_rpc_api_worker.py],
      with the gas price record of [proxy/mempool/mempool_api.py].
    Definitions come first, theorems after them. *)

From Stdlib Require Import ZArith NArith List String Ascii Bool Lia.
From Stdlib Require Import Strings.Byte DecimalString.
Import ListNotations.
Local Open Scope Z_scope.

(** ** Exceptions and results

    Python code either returns a value or raises.  One exception type is
    shared by all modules, as in the interpreter. *)

Inductive exn : Type :=
| OverflowError
| TypeError
| ValueError
| ZeroDivisionError
| AssertionError
| InvalidParamError (message : string)
| RescheduleError
| WrongStrategyError
| BigTxError
| NoMoreRetriesError
| NonceTooHighError
| NonceTooLowError (addr : string) (tx_nonce state_tx_cnt : Z)
| OtherException (name : string)
| NotException (name : string).

(** [isinstance(e, Exception)].  All the exceptions above derive from
    [Exception], [OtherException] standing for any other one that does;
    [NotException] stands for the ones that derive from [BaseException]
    only, such as [KeyboardInterrupt], [SystemExit] and [GeneratorExit]: a
    clause [except Exception] lets them through, a clause
    [except BaseException] catches them. *)
Definition is_Exception (e : exn) : bool :=
  match e with
  | NotException _ => false
  | _ => true
  end.

Inductive result (A : Type) : Type :=
| Ok (a : A)
| Raise (e : exn).
Arguments Ok {A} a.
Arguments Raise {A} e.

Definition rbind {A B : Type} (r : result A) (k : A -> result B) : result B :=
  match r with
  | Ok a => k a
  | Raise e => Raise e
  end.

Declare Scope result_scope.
Delimit Scope result_scope with result.
Notation "x <- c ;; k" := (rbind c (fun x => k))
  (at level 61, c at next level, right associativity) : result_scope.

(** ** Python built-ins *)

Module Py.

Definition bytes := list byte.

Definition byte_to_Z (b : byte) : Z := Z.of_N (Byte.to_N b).

Definition byte_of_Z (z : Z) : byte :=
  match Byte.of_N (Z.to_N z) with
  | Some b => b
  | None => x00
  end.

(** [int.from_bytes(bs, 'little')] *)
Fixpoint int_from_bytes_little (bs : bytes) : Z :=
  match bs with
  | [] => 0
  | b :: rest => byte_to_Z b + 256 * int_from_bytes_little rest
  end.

Fixpoint little_digits (length : nat) (n : Z) : bytes :=
  match length with
  | O => []
  | S k => byte_of_Z (n mod 256) :: little_digits k (n / 256)
  end.

(** [n.to_bytes(length, 'little')]: unsigned; a negative or too large [n]
    raises [OverflowError]. *)
Definition int_to_bytes_little (n : Z) (length : nat) : result bytes :=
  if n <? 0 then Raise OverflowError
  else if 256 ^ Z.of_nat length <=? n then Raise OverflowError
  else Ok (little_digits length n).

(** [b''.join(parts)]: an item that is [None] raises [TypeError]. *)
Fixpoint bytes_join (parts : list (option bytes)) : result bytes :=
  match parts with
  | [] => Ok []
  | None :: _ => Raise TypeError
  | Some p :: rest =>
      match bytes_join rest with
      | Ok r => Ok (p ++ r)
      | Raise e => Raise e
      end
  end.

Definition ascii_code (c : ascii) : N := N_of_ascii c.

(** The value of a hexadecimal digit, as [_PyLong_DigitValue] restricted to
    base 16. *)
Definition hex_digit_value (c : ascii) : option N :=
  let n := ascii_code c in
  if ((48 <=? n) && (n <=? 57))%N then Some (n - 48)%N
  else if ((97 <=? n) && (n <=? 102))%N then Some (n - 87)%N
  else if ((65 <=? n) && (n <=? 70))%N then Some (n - 55)%N
  else None.

(** [Py_ISSPACE]: space, [\t], [\n], [\v], [\f], [\r]. *)
Definition Py_ISSPACE (c : ascii) : bool :=
  let n := ascii_code c in
  (((9 <=? n) && (n <=? 13)) || (n =? 32))%N.

(** [bytes.fromhex(s)]: two digits per byte, white space skipped between
    bytes only; anything else raises [ValueError] (here [None]). *)
Fixpoint bytes_fromhex (s : string) : option bytes :=
  match s with
  | EmptyString => Some []
  | String c r =>
      if Py_ISSPACE c then bytes_fromhex r
      else
        match hex_digit_value c, r with
        | Some top, String d r' =>
            match hex_digit_value d with
            | Some bot =>
                match bytes_fromhex r' with
                | Some bs => Some (byte_of_Z (Z.of_N (top * 16 + bot)) :: bs)
                | None => None
                end
            | None => None
            end
        | _, _ => None
        end
  end.

(** Slices [s[:n]] and [s[n:]] of a [str]. *)
Fixpoint str_take (n : nat) (s : string) : string :=
  match n, s with
  | S k, String c r => String c (str_take k r)
  | _, _ => EmptyString
  end.

Fixpoint str_drop (n : nat) (s : string) : string :=
  match n, s with
  | S k, String _ r => str_drop k r
  | _, _ => s
  end.

(** [str.isspace] on one character, for code points below 256: the ASCII
    white space, the separators 28 to 31, NEL (133) and the no-break space
    (160).  A [str] is modelled by a [string] of code points below 256. *)
Definition py_isspace (c : ascii) : bool :=
  let n := ascii_code c in
  (((9 <=? n) && (n <=? 13)) || ((28 <=? n) && (n <=? 32))
   || (n =? 133) || (n =? 160))%N.

Fixpoint str_lstrip (s : string) : string :=
  match s with
  | String c r => if py_isspace c then str_lstrip r else s
  | EmptyString => EmptyString
  end.

Fixpoint str_rstrip (s : string) : string :=
  match s with
  | EmptyString => EmptyString
  | String c r =>
      match str_rstrip r with
      | EmptyString => if py_isspace c then EmptyString else String c EmptyString
      | r' => String c r'
      end
  end.

(** [s.strip()] *)
Definition str_strip (s : string) : string := str_rstrip (str_lstrip s).

(** Lower case of one code point below 256: [A-Z] and the upper-case
    letters of the Latin-1 supplement (192 to 222 but 215). *)
Definition char_lower (c : ascii) : ascii :=
  let n := ascii_code c in
  if (((65 <=? n) && (n <=? 90))
      || ((192 <=? n) && (n <=? 222) && negb (n =? 215)))%N
  then ascii_of_N (n + 32) else c.

(** [s.lower()] *)
Fixpoint str_lower (s : string) : string :=
  match s with
  | EmptyString => EmptyString
  | String c r => String (char_lower c) (str_lower r)
  end.

(** [c.upper()] for a hexadecimal digit [c] in lower case: the only use
    the sources make of it. *)
Definition char_upper (c : ascii) : ascii :=
  let n := ascii_code c in
  if ((97 <=? n) && (n <=? 122))%N then ascii_of_N (n - 32) else c.

(** [hex(n)] *)
Definition hex_char (d : N) : ascii :=
  if (d <? 10)%N then ascii_of_N (48 + d) else ascii_of_N (87 + d).

Fixpoint hex_digits (fuel : nat) (n : N) (acc : string) : string :=
  match fuel with
  | O => acc
  | S f =>
      let acc' := String (hex_char (n mod 16)) acc in
      if (n / 16 =? 0)%N then acc' else hex_digits f (n / 16) acc'
  end.

Definition hex (n : Z) : string :=
  let m := Z.to_N (Z.abs n) in
  let body := ("0x" ++ hex_digits (S (N.to_nat (N.log2 m))) m "")%string in
  if n <? 0 then String "-" body else body.

(** [int(s)] and [int(s, 16)] on a [str].  White space here is the one of
    [PyLong_FromString] after the conversion of the non-ASCII spaces; the
    digits may be separated by single underscores. *)
Definition int_isspace (c : ascii) : bool :=
  let n := ascii_code c in
  (((9 <=? n) && (n <=? 13)) || (n =? 32) || (n =? 133) || (n =? 160))%N.

Definition digit_value (base : N) (c : ascii) : option N :=
  let n := ascii_code c in
  let v :=
    if ((48 <=? n) && (n <=? 57))%N then Some (n - 48)%N
    else if ((97 <=? n) && (n <=? 122))%N then Some (n - 87)%N
    else if ((65 <=? n) && (n <=? 90))%N then Some (n - 55)%N
    else None in
  match v with
  | Some d => if (d <? base)%N then Some d else None
  | None => None
  end.

Fixpoint skip_int_space (s : string) : string :=
  match s with
  | String c r => if int_isspace c then skip_int_space r else s
  | EmptyString => EmptyString
  end.

(** The digits of [long_from_string_base]: the value read and what is left
    of the text; [None] for a doubled or trailing underscore. *)
Fixpoint scan_digits (base : N) (s : string) (prev_underscore : bool)
    (acc : N) : option (N * string) :=
  match s with
  | EmptyString => if prev_underscore then None else Some (acc, EmptyString)
  | String c r =>
      if (ascii_code c =? 95)%N then
        if prev_underscore then None else scan_digits base r true acc
      else
        match digit_value base c with
        | Some d => scan_digits base r false (acc * base + d)%N
        | None => if prev_underscore then None else Some (acc, s)
        end
  end.

(** [reads s k v]: the [k] hexadecimal digits of [s] continue a number [a]
    into [a * 16^k + v]. *)
Definition reads (s : string) (k : nat) (v : N) : Prop :=
  forall a, scan_digits 16 s false a
            = Some (a * 16 ^ N.of_nat k + v, EmptyString)%N.

(** [sys.get_int_max_str_digits()], by default: the limit on the digits
    of a number read from or printed as a text, in a base that is no power
    of two. *)
Definition max_str_digits : N := 4300.

(** The digits a text begins with, the underscores between them apart:
    what the limit counts. *)
Fixpoint count_digits (base : N) (s : string) : N :=
  match s with
  | EmptyString => 0
  | String c r =>
      if (ascii_code c =? 95)%N then count_digits base r
      else
        match digit_value base c with
        | Some _ => (1 + count_digits base r)%N
        | None => 0
        end
  end.

Definition is_binary_base (base : N) : bool :=
  (N.land base (base - 1) =? 0)%N.

Definition too_many_digits (base : N) (s : string) : bool :=
  if is_binary_base base then false
  else (max_str_digits <? count_digits base s)%N.

Definition starts_with_digit (base : N) (s : string) : bool :=
  match s with
  | String c _ =>
      match digit_value base c with Some _ => true | None => false end
  | EmptyString => false
  end.

Definition int_of_str (base : N) (s : string) : option Z :=
  let s := skip_int_space s in
  let '(negative, s) :=
    match s with
    | String "+" r => (false, r)
    | String "-" r => (true, r)
    | _ => (false, s)
    end in
  let s :=
    match s with
    | String "0" (String x r) =>
        if ((base =? 16) && ((ascii_code x =? 120) || (ascii_code x =? 88)))%N
        then match r with
             | String "_" r' => r'
             | _ => r
             end
        else s
    | _ => s
    end in
  if starts_with_digit base s then
    if too_many_digits base s then None
    else
      match scan_digits base s false 0 with
      | Some (v, rest) =>
          match skip_int_space rest with
          | EmptyString => Some (if negative then - Z.of_N v else Z.of_N v)
          | String _ _ => None
          end
      | None => None
      end
  else None.

(** [bs.hex()]: two hexadecimal digits in lower case for each byte. *)
Definition byte_hex (b : byte) : string :=
  String (hex_char (Byte.to_N b / 16))
    (String (hex_char (Byte.to_N b mod 16)) EmptyString).

Fixpoint bytes_hex (bs : bytes) : string :=
  match bs with
  | [] => EmptyString
  | b :: rest => (byte_hex b ++ bytes_hex rest)%string
  end.

(** [s.startswith(prefix)] *)
Definition str_startswith (s prefix : string) : bool := String.prefix prefix s.

(** [str(n)] for an [int]. *)
Definition str_of_int (n : Z) : string :=
  let digits := NilZero.string_of_uint (N.to_uint (Z.to_N (Z.abs n))) in
  if n <? 0 then String "-" digits else digits.

(** [str(n)] and [f'{n}'] for an [int], with the limit on the digits: a
    number of more than [max_str_digits] digits raises [ValueError]. *)
Definition format_int (n : Z) : result string :=
  if 10 ^ Z.of_N max_str_digits <=? Z.abs n then Raise ValueError
  else Ok (str_of_int n).

(** The numbers [str] prints: those of at most [max_str_digits] digits. *)
Definition printable (n : Z) : Prop :=
  (Z.abs n < 10 ^ Z.of_N max_str_digits)%Z.

(** [f'{n}'] for an [int] or [None]. *)
Definition format_opt_int (n : option Z) : result string :=
  match n with
  | Some n => format_int n
  | None => Ok "None"%string
  end.

(** [unspaced s]: the text does not begin with white space. *)
Definition unspaced (s : string) : Prop :=
  match s with
  | String c _ => py_isspace c = false
  | EmptyString => True
  end.

End Py.

(** ** proxy/common_neon/neon_instruction.py *)

Module NeonInstruction.
Import Py.
Local Open Scope result_scope.

Inductive EvmIxCode : Type :=
| Unknown
| CollectTreasure
| TxExecFromData
| TxExecFromAccount
| TxStepFromData
| TxStepFromAccount
| TxStepFromAccountNoChainId
| CancelWithHash
| HolderCreate
| HolderDelete
| HolderWrite
| DepositV03
| CreateAccountV03.

(** [EvmIxCode.<name>.value] *)
Definition value (c : EvmIxCode) : Z :=
  match c with
  | Unknown => -1
  | CollectTreasure => 0x1e
  | TxExecFromData => 0x1f
  | TxExecFromAccount => 0x2a
  | TxStepFromData => 0x20
  | TxStepFromAccount => 0x21
  | TxStepFromAccountNoChainId => 0x22
  | CancelWithHash => 0x23
  | HolderCreate => 0x24
  | HolderDelete => 0x25
  | HolderWrite => 0x26
  | DepositV03 => 0x27
  | CreateAccountV03 => 0x28
  end.

(** A public key is its 32 bytes. *)
Definition SolPubKey := bytes.

Record SolAccountMeta : Type := mkSolAccountMeta {
  pubkey : SolPubKey;
  is_signer : bool;
  is_writable : bool
}.

Record SolTxIx : Type := mkSolTxIx {
  program_id : SolPubKey;
  data : bytes;
  accounts : list SolAccountMeta
}.

Section Builder.

(** What the builder imports: the transaction type with its RLP encoding and
    hexadecimal signature, the program-address derivation of the Chain
    library, [ElfParams().treasury_pool_max] and the system program id. *)
Variable NeonTx : Type.
Variable rlp_encode : NeonTx -> bytes.
Variable hex_tx_sig : NeonTx -> string.
Variable find_program_address : list bytes -> SolPubKey -> SolPubKey * Z.
Variable treasury_pool_max : Z.
Variable SYS_PROGRAM_ID : SolPubKey.
Variable NeonAddress : Type.
Variable neon_2program : SolPubKey -> NeonAddress -> SolPubKey * Z.

Record NeonIxBuilder : Type := mkNeonIxBuilder {
  _evm_program_id : SolPubKey;
  _operator_account : SolPubKey;
  _operator_neon_address : option SolPubKey;
  _neon_account_list : list SolAccountMeta;
  _neon_tx : option NeonTx;
  _neon_tx_sig : option bytes;
  _msg : option bytes;
  _holder_msg : option bytes;
  _treasury_pool_index_buf : option bytes;
  _treasury_pool_address : option SolPubKey;
  _holder : option SolPubKey
}.

(** [NeonIxBuilder.__init__]; the operator is taken as given. *)
Definition init (evm_program_id operator : SolPubKey) : NeonIxBuilder :=
  {| _evm_program_id := evm_program_id;
     _operator_account := operator;
     _operator_neon_address := None;
     _neon_account_list := [];
     _neon_tx := None;
     _neon_tx_sig := None;
     _msg := None;
     _holder_msg := None;
     _treasury_pool_index_buf := None;
     _treasury_pool_address := None;
     _holder := None |}.

(** Assignments to the attributes the [init_*] methods write. *)
Definition set_operator_neon_address (self : NeonIxBuilder) (v : SolPubKey) :=
  {| _evm_program_id := _evm_program_id self;
     _operator_account := _operator_account self;
     _operator_neon_address := Some v;
     _neon_account_list := _neon_account_list self;
     _neon_tx := _neon_tx self;
     _neon_tx_sig := _neon_tx_sig self;
     _msg := _msg self;
     _holder_msg := _holder_msg self;
     _treasury_pool_index_buf := _treasury_pool_index_buf self;
     _treasury_pool_address := _treasury_pool_address self;
     _holder := _holder self |}.

Definition set_neon_tx (self : NeonIxBuilder) (tx : NeonTx) (msg : bytes) :=
  {| _evm_program_id := _evm_program_id self;
     _operator_account := _operator_account self;
     _operator_neon_address := _operator_neon_address self;
     _neon_account_list := _neon_account_list self;
     _neon_tx := Some tx;
     _neon_tx_sig := _neon_tx_sig self;
     _msg := Some msg;
     _holder_msg := Some msg;
     _treasury_pool_index_buf := _treasury_pool_index_buf self;
     _treasury_pool_address := _treasury_pool_address self;
     _holder := _holder self |}.

Definition set_neon_tx_sig (self : NeonIxBuilder) (sig : bytes) :=
  {| _evm_program_id := _evm_program_id self;
     _operator_account := _operator_account self;
     _operator_neon_address := _operator_neon_address self;
     _neon_account_list := _neon_account_list self;
     _neon_tx := _neon_tx self;
     _neon_tx_sig := Some sig;
     _msg := _msg self;
     _holder_msg := _holder_msg self;
     _treasury_pool_index_buf := _treasury_pool_index_buf self;
     _treasury_pool_address := _treasury_pool_address self;
     _holder := _holder self |}.

Definition set_treasury_pool_index_buf (self : NeonIxBuilder) (buf : bytes) :=
  {| _evm_program_id := _evm_program_id self;
     _operator_account := _operator_account self;
     _operator_neon_address := _operator_neon_address self;
     _neon_account_list := _neon_account_list self;
     _neon_tx := _neon_tx self;
     _neon_tx_sig := _neon_tx_sig self;
     _msg := _msg self;
     _holder_msg := _holder_msg self;
     _treasury_pool_index_buf := Some buf;
     _treasury_pool_address := _treasury_pool_address self;
     _holder := _holder self |}.

Definition set_treasury_pool_address (self : NeonIxBuilder) (v : SolPubKey) :=
  {| _evm_program_id := _evm_program_id self;
     _operator_account := _operator_account self;
     _operator_neon_address := _operator_neon_address self;
     _neon_account_list := _neon_account_list self;
     _neon_tx := _neon_tx self;
     _neon_tx_sig := _neon_tx_sig self;
     _msg := _msg self;
     _holder_msg := _holder_msg self;
     _treasury_pool_index_buf := _treasury_pool_index_buf self;
     _treasury_pool_address := Some v;
     _holder := _holder self |}.

Definition init_operator_neon (self : NeonIxBuilder)
    (operator_ether : NeonAddress) : NeonIxBuilder :=
  set_operator_neon_address self
    (fst (neon_2program (_evm_program_id self) operator_ether)).

(** Python's [a % b] on integers. *)
Definition py_mod (a b : Z) : result Z :=
  if b =? 0 then Raise ZeroDivisionError else Ok (a mod b).

(** The builder is changed in place: a method that raises leaves the
    attributes it had already assigned.  Such a method returns its outcome
    and the builder as it is afterwards. *)
Definition init_neon_tx_sig (self : NeonIxBuilder) (neon_tx_sig : string)
  : result unit * NeonIxBuilder :=
  match bytes_fromhex (str_drop 2 neon_tx_sig) with
  | None => (Raise ValueError, self)
  | Some sig =>
      let self := set_neon_tx_sig self sig in
      match py_mod (int_from_bytes_little (firstn 4 sig)) treasury_pool_max with
      | Raise e => (Raise e, self)
      | Ok treasury_pool_index =>
          match int_to_bytes_little treasury_pool_index 4 with
          | Raise e => (Raise e, self)
          | Ok buf =>
              let self := set_treasury_pool_index_buf self buf in
              (Ok tt,
               set_treasury_pool_address self
                 (fst (find_program_address
                         [list_byte_of_string "treasury_pool"; buf]
                         (_evm_program_id self))))
          end
      end
  end.

Definition init_neon_tx (self : NeonIxBuilder) (neon_tx : NeonTx)
  : result unit * NeonIxBuilder :=
  let self := set_neon_tx self neon_tx (rlp_encode neon_tx) in
  init_neon_tx_sig self (hex_tx_sig neon_tx).

Definition init_neon_account_list (self : NeonIxBuilder)
    (neon_account_list : list SolAccountMeta) : NeonIxBuilder :=
  {| _evm_program_id := _evm_program_id self;
     _operator_account := _operator_account self;
     _operator_neon_address := _operator_neon_address self;
     _neon_account_list := neon_account_list;
     _neon_tx := _neon_tx self;
     _neon_tx_sig := _neon_tx_sig self;
     _msg := _msg self;
     _holder_msg := _holder_msg self;
     _treasury_pool_index_buf := _treasury_pool_index_buf self;
     _treasury_pool_address := _treasury_pool_address self;
     _holder := _holder self |}.

Definition init_iterative (self : NeonIxBuilder) (holder : SolPubKey)
  : NeonIxBuilder :=
  {| _evm_program_id := _evm_program_id self;
     _operator_account := _operator_account self;
     _operator_neon_address := _operator_neon_address self;
     _neon_account_list := _neon_account_list self;
     _neon_tx := _neon_tx self;
     _neon_tx_sig := _neon_tx_sig self;
     _msg := _msg self;
     _holder_msg := _holder_msg self;
     _treasury_pool_index_buf := _treasury_pool_index_buf self;
     _treasury_pool_address := _treasury_pool_address self;
     _holder := Some holder |}.

(** [SolAccountMeta(pubkey=..., ...)]: a [None] key is a [TypeError]. *)
Definition account_meta (key : option SolPubKey) (signer writable : bool)
  : result SolAccountMeta :=
  match key with
  | Some k => Ok (mkSolAccountMeta k signer writable)
  | None => Raise TypeError
  end.

Definition make_write_ix (self : NeonIxBuilder) (offset : Z) (chunk : bytes)
  : result SolTxIx :=
  code <- int_to_bytes_little (value HolderWrite) 1 ;;
  off <- int_to_bytes_little offset 8 ;;
  ix_data <- bytes_join [Some code; _neon_tx_sig self; Some off; Some chunk] ;;
  holder <- account_meta (_holder self) false true ;;
  Ok {| program_id := _evm_program_id self;
        data := ix_data;
        accounts :=
          [holder; mkSolAccountMeta (_operator_account self) true false] |}.

Definition _make_holder_ix (self : NeonIxBuilder) (ix_data : bytes)
  : result SolTxIx :=
  holder <- account_meta (_holder self) false true ;;
  treasury <- account_meta (_treasury_pool_address self) false true ;;
  operator_neon <- account_meta (_operator_neon_address self) false true ;;
  Ok {| program_id := _evm_program_id self;
        data := ix_data;
        accounts :=
          [holder;
           mkSolAccountMeta (_operator_account self) true true;
           treasury;
           operator_neon;
           mkSolAccountMeta SYS_PROGRAM_ID false false;
           mkSolAccountMeta (_evm_program_id self) false false]
          ++ _neon_account_list self |}.

Definition _make_tx_step_ix (self : NeonIxBuilder) (ix_id_byte : bytes)
    (neon_step_cnt index : Z) (payload : option bytes) : result SolTxIx :=
  cnt <- int_to_bytes_little neon_step_cnt 4 ;;
  idx <- int_to_bytes_little index 4 ;;
  ix_data <- bytes_join [Some ix_id_byte; _treasury_pool_index_buf self;
                         Some cnt; Some idx] ;;
  _make_holder_ix self
    match payload with
    | Some d => ix_data ++ d
    | None => ix_data
    end.

Definition make_tx_step_from_data_ix (self : NeonIxBuilder)
    (step_cnt index : Z) : result SolTxIx :=
  code <- int_to_bytes_little (value TxStepFromData) 1 ;;
  _make_tx_step_ix self code step_cnt index (_msg self).

Definition make_tx_step_from_account_ix (self : NeonIxBuilder)
    (neon_step_cnt index : Z) : result SolTxIx :=
  code <- int_to_bytes_little (value TxStepFromAccount) 1 ;;
  _make_tx_step_ix self code neon_step_cnt index None.

Definition make_tx_step_from_account_no_chainid_ix (self : NeonIxBuilder)
    (neon_step_cnt index : Z) : result SolTxIx :=
  code <- int_to_bytes_little (value TxStepFromAccountNoChainId) 1 ;;
  _make_tx_step_ix self code neon_step_cnt index None.

(** The builders a caller can hold: a fresh one, then any sequence of the
    [init_*] methods, whether they returned or raised. *)
Inductive built : NeonIxBuilder -> Prop :=
| built_init : forall evm_program_id operator,
    built (init evm_program_id operator)
| built_operator_neon : forall self operator_ether,
    built self -> built (init_operator_neon self operator_ether)
| built_neon_tx : forall self neon_tx,
    built self -> built (snd (init_neon_tx self neon_tx))
| built_neon_tx_sig : forall self neon_tx_sig,
    built self -> built (snd (init_neon_tx_sig self neon_tx_sig))
| built_neon_account_list : forall self neon_account_list,
    built self -> built (init_neon_account_list self neon_account_list)
| built_iterative : forall self holder,
    built self -> built (init_iterative self holder).

End Builder.

Arguments _evm_program_id {NeonTx} _.
Arguments _operator_account {NeonTx} _.
Arguments _operator_neon_address {NeonTx} _.
Arguments _neon_account_list {NeonTx} _.
Arguments _neon_tx {NeonTx} _.
Arguments _neon_tx_sig {NeonTx} _.
Arguments _msg {NeonTx} _.
Arguments _holder_msg {NeonTx} _.
Arguments _treasury_pool_index_buf {NeonTx} _.
Arguments _treasury_pool_address {NeonTx} _.
Arguments _holder {NeonTx} _.
Arguments set_operator_neon_address {NeonTx} _ _.
Arguments set_neon_tx {NeonTx} _ _ _.
Arguments set_neon_tx_sig {NeonTx} _ _.
Arguments set_treasury_pool_index_buf {NeonTx} _ _.
Arguments set_treasury_pool_address {NeonTx} _ _.
Arguments init {NeonTx} _ _.
Arguments init_operator_neon {NeonTx NeonAddress} _ _ _.
Arguments init_neon_tx_sig {NeonTx} _ _ _ _.
Arguments init_neon_tx {NeonTx} _ _ _ _ _ _.
Arguments init_neon_account_list {NeonTx} _ _.
Arguments init_iterative {NeonTx} _ _.
Arguments make_write_ix {NeonTx} _ _ _.
Arguments _make_holder_ix {NeonTx} _ _ _.
Arguments _make_tx_step_ix {NeonTx} _ _ _ _ _ _.
Arguments make_tx_step_from_data_ix {NeonTx} _ _ _ _.
Arguments make_tx_step_from_account_ix {NeonTx} _ _ _ _.
Arguments make_tx_step_from_account_no_chainid_ix {NeonTx} _ _ _ _.
Arguments built {NeonTx} _ _ _ _ {NeonAddress} _ _.

(** *** The other instructions of the builder *)

Section Instructions.

(** The program ids of [common_neon.constants], and the two Neon EVM
    parameters the builder reads from [ElfParams()]. *)
Context {NeonTx : Type}.
Variable SYS_PROGRAM_ID : SolPubKey.
Variable INCINERATOR_ID : SolPubKey.
Variable ADDRESS_LOOKUP_TABLE_ID : SolPubKey.
Variable COMPUTE_BUDGET_ID : SolPubKey.
Variable neon_heap_frame : Z.
Variable neon_compute_units : Z.

(** The property [holder_msg]. *)
Definition holder_msg (self : NeonIxBuilder NeonTx) : result bytes :=
  match _holder_msg self with
  | Some m => Ok m
  | None => Raise AssertionError
  end.

Definition make_delete_holder_ix (self : NeonIxBuilder NeonTx)
    (holder_account : SolPubKey) : result SolTxIx :=
  let accounts :=
    [mkSolAccountMeta holder_account false true;
     mkSolAccountMeta (_operator_account self) true true] in
  code <- int_to_bytes_little (value HolderDelete) 1 ;;
  Ok {| program_id := _evm_program_id self;
        data := code;
        accounts := accounts |}.

Definition create_holder_ix (self : NeonIxBuilder NeonTx)
    (holder : SolPubKey) : result SolTxIx :=
  let accounts :=
    [mkSolAccountMeta holder false true;
     mkSolAccountMeta (_operator_account self) true true] in
  code <- int_to_bytes_little (value HolderCreate) 1 ;;
  Ok {| program_id := _evm_program_id self;
        data := code;
        accounts := accounts |}.

Definition make_tx_exec_from_data_ix (self : NeonIxBuilder NeonTx)
  : result SolTxIx :=
  code <- int_to_bytes_little (value TxExecFromData) 1 ;;
  ix_data <- bytes_join [Some code; _treasury_pool_index_buf self;
                         _msg self] ;;
  treasury <- account_meta (_treasury_pool_address self) false true ;;
  operator_neon <- account_meta (_operator_neon_address self) false true ;;
  Ok {| program_id := _evm_program_id self;
        data := ix_data;
        accounts :=
          [mkSolAccountMeta (_operator_account self) true true;
           treasury;
           operator_neon;
           mkSolAccountMeta SYS_PROGRAM_ID false false;
           mkSolAccountMeta (_evm_program_id self) false false]
          ++ _neon_account_list self |}.

Definition make_tx_exec_from_account_ix (self : NeonIxBuilder NeonTx)
  : result SolTxIx :=
  code <- int_to_bytes_little (value TxExecFromAccount) 1 ;;
  ix_data <- bytes_join [Some code; _treasury_pool_index_buf self] ;;
  _make_holder_ix SYS_PROGRAM_ID self ix_data.

(** [a + b] on [bytes]: a right operand that is [None] raises
    [TypeError]. *)
Definition bytes_add (a : bytes) (b : option bytes) : result bytes :=
  match b with
  | Some b => Ok (a ++ b)
  | None => Raise TypeError
  end.

Definition make_cancel_ix (self : NeonIxBuilder NeonTx) : result SolTxIx :=
  code <- int_to_bytes_little (value CancelWithHash) 1 ;;
  ix_data <- bytes_add code (_neon_tx_sig self) ;;
  holder <- account_meta (_holder self) false true ;;
  Ok {| program_id := _evm_program_id self;
        data := ix_data;
        accounts :=
          [holder;
           mkSolAccountMeta (_operator_account self) true true;
           mkSolAccountMeta INCINERATOR_ID false true]
          ++ _neon_account_list self |}.

Definition make_create_lookup_table_ix (self : NeonIxBuilder NeonTx)
    (table_account : SolPubKey) (recent_block_slot seed : Z)
  : result SolTxIx :=
  kind <- int_to_bytes_little 0 4 ;;
  slot <- int_to_bytes_little recent_block_slot 8 ;;
  bump <- int_to_bytes_little seed 1 ;;
  ix_data <- bytes_join [Some kind; Some slot; Some bump] ;;
  Ok {| program_id := ADDRESS_LOOKUP_TABLE_ID;
        data := ix_data;
        accounts :=
          [mkSolAccountMeta table_account false true;
           mkSolAccountMeta (_operator_account self) true false;
           mkSolAccountMeta (_operator_account self) true true;
           mkSolAccountMeta SYS_PROGRAM_ID false false] |}.

Definition make_extend_lookup_table_ix (self : NeonIxBuilder NeonTx)
    (table_account : SolPubKey) (account_list : list SolPubKey)
  : result SolTxIx :=
  kind <- int_to_bytes_little 2 4 ;;
  cnt <- int_to_bytes_little (Z.of_nat (List.length account_list)) 8 ;;
  ix_data <- bytes_join ([Some kind; Some cnt] ++ map Some account_list) ;;
  Ok {| program_id := ADDRESS_LOOKUP_TABLE_ID;
        data := ix_data;
        accounts :=
          [mkSolAccountMeta table_account false true;
           mkSolAccountMeta (_operator_account self) true false;
           mkSolAccountMeta (_operator_account self) true true;
           mkSolAccountMeta SYS_PROGRAM_ID false false] |}.

Definition make_deactivate_lookup_table_ix (self : NeonIxBuilder NeonTx)
    (table_account : SolPubKey) : result SolTxIx :=
  ix_data <- int_to_bytes_little 3 4 ;;
  Ok {| program_id := ADDRESS_LOOKUP_TABLE_ID;
        data := ix_data;
        accounts :=
          [mkSolAccountMeta table_account false true;
           mkSolAccountMeta (_operator_account self) true false] |}.

Definition make_close_lookup_table_ix (self : NeonIxBuilder NeonTx)
    (table_account : SolPubKey) : result SolTxIx :=
  ix_data <- int_to_bytes_little 4 4 ;;
  Ok {| program_id := ADDRESS_LOOKUP_TABLE_ID;
        data := ix_data;
        accounts :=
          [mkSolAccountMeta table_account false true;
           mkSolAccountMeta (_operator_account self) true false;
           mkSolAccountMeta (_operator_account self) false true] |}.

Definition make_compute_budget_heap_ix (self : NeonIxBuilder NeonTx)
  : result SolTxIx :=
  let heap_frame_size := neon_heap_frame in
  size <- int_to_bytes_little heap_frame_size 4 ;;
  Ok {| program_id := COMPUTE_BUDGET_ID;
        data := [x01] ++ size;
        accounts := [] |}.

Definition make_compute_budget_cu_ix (self : NeonIxBuilder NeonTx)
  : result SolTxIx :=
  let compute_unit_cnt := neon_compute_units in
  cnt <- int_to_bytes_little compute_unit_cnt 4 ;;
  Ok {| program_id := COMPUTE_BUDGET_ID;
        data := [x02] ++ cnt;
        accounts := [] |}.

End Instructions.

(** *** [EvmIxCodeName]: the names of the instruction codes *)

Section CodeNames.

(** [str_enum] of [common_neon.utils.utils]: the text of an enumeration
    member. *)
Variable str_enum : EvmIxCode -> string.

(** [list(EvmIxCode)]: the members in the order of their definition. *)
Definition EvmIxCode_members : list EvmIxCode :=
  [Unknown; CollectTreasure; TxExecFromData; TxExecFromAccount;
   TxStepFromData; TxStepFromAccount; TxStepFromAccountNoChainId;
   CancelWithHash; HolderCreate; HolderDelete; HolderWrite; DepositV03;
   CreateAccountV03].

(** A [dict] with [int] keys, in insertion order: [d[k] = v] and
    [d.get(k)]. *)
Fixpoint dict_set {V : Type} (d : list (Z * V)) (k : Z) (v : V)
  : list (Z * V) :=
  match d with
  | [] => [(k, v)]
  | (k', v') :: rest =>
      if k' =? k then (k', v) :: rest else (k', v') :: dict_set rest k v
  end.

Fixpoint dict_get {V : Type} (d : list (Z * V)) (k : Z) : option V :=
  match d with
  | [] => None
  | (k', v') :: rest => if k' =? k then Some v' else dict_get rest k
  end.

(** [EvmIxCodeName.__init__] *)
Definition EvmIxCodeName : list (Z * string) :=
  fold_left (fun d ix_code => dict_set d (value ix_code) (str_enum ix_code))
    EvmIxCode_members [].

(** [EvmIxCodeName.get] *)
Definition EvmIxCodeName_get (self : list (Z * string)) (ix_code : Z)
    (default : option string) : string :=
  let value :=
    match dict_get self ix_code with
    | Some v => Some v
    | None => default
    end in
  match value with
  | None => hex ix_code
  | Some v => v
  end.

End CodeNames.

End NeonInstruction.

(** ** The byte layouts as the specification words them

    [le_bytes width n] is the unsigned little-endian encoding of [n] on
    [width] bytes: byte [i] is [n / 256^i mod 256].  [u32_le_read] reads the
    first four bytes of a buffer as a little-endian number, a missing byte
    counting for zero. *)

Module Layout.
Import Py.

Definition le_bytes (width : nat) (n : Z) : bytes :=
  map (fun i => byte_of_Z ((n / 256 ^ Z.of_nat i) mod 256)) (seq 0 width).

Definition u32_le (n : Z) : bytes := le_bytes 4 n.

Definition u64_le (n : Z) : bytes := le_bytes 8 n.

Definition u32_le_read (buf : bytes) : Z :=
  byte_to_Z (nth 0 buf x00)
  + 2 ^ 8 * byte_to_Z (nth 1 buf x00)
  + 2 ^ 16 * byte_to_Z (nth 2 buf x00)
  + 2 ^ 24 * byte_to_Z (nth 3 buf x00).

End Layout.

(** ** Commitment levels of the Chain RPC ([common_neon.solana_tx]) *)

Inductive SolCommit : Type :=
| Processed
| Confirmed
| Finalized.

(** ** proxy/indexer/indexer_base.py *)

Module IndexerBase.
Import Py.
Local Open Scope result_scope.
Local Open Scope string_scope.

Section Indexer.

(** The Chain RPC client and the configuration the indexer is built with. *)
Variable get_block_slot : SolCommit -> result Z.
Variable get_first_available_block : result Z.
Variable config_start_slot : string.

(** [last_known_slot] is [None] for a value that is not an [int]. *)
Definition _get_start_slot (last_known_slot : option Z) : result Z :=
  let last_known_slot :=
    match last_known_slot with
    | Some n => n
    | None => 0
    end in
  latest_slot <- get_block_slot Finalized ;;
  let start_int_slot := 0 in
  let start_slot := config_start_slot in
  let start_int_slot :=
    if negb ((start_slot =? "CONTINUE") || (start_slot =? "LATEST")) then
      match int_of_str 10 start_slot with
      | Some n => Z.min n latest_slot
      | None => 0
      end
    else start_int_slot in
  let continue_from_last :=
    (start_slot =? "CONTINUE") && (last_known_slot >? 0)%Z in
  if continue_from_last then Ok last_known_slot
  else
    let start_slot :=
      if start_slot =? "CONTINUE" then "LATEST" else start_slot in
    if start_slot =? "LATEST" then Ok latest_slot
    else if (start_int_slot <? last_known_slot)%Z then Ok last_known_slot
    else Ok start_int_slot.

Record IndexerBase : Type := mkIndexerBase {
  _start_slot : Z
}.

(** [IndexerBase.__init__] *)
Definition init (last_slot : option Z) : result IndexerBase :=
  start_slot <- _get_start_slot last_slot ;;
  first_slot <- get_first_available_block ;;
  Ok {| _start_slot := Z.max start_slot first_slot |}.

End Indexer.

End IndexerBase.

(** ** proxy/mempool/neon_tx_sender.py *)

Module NeonTxSender.

Inductive Strategy : Type :=
| SimpleNeonTxStrategy
| ALTSimpleNeonTxStrategy
| IterativeNeonTxStrategy
| ALTIterativeNeonTxStrategy
| SimpleHolderNeonTxStrategy
| ALTSimpleHolderNeonTxStrategy
| HolderNeonTxStrategy
| ALTHolderNeonTxStrategy
| NoChainIdNeonTxStrategy
| ALTNoChainIdNeonTxStrategy.

Definition _strategy_list : list Strategy :=
  [SimpleNeonTxStrategy; ALTSimpleNeonTxStrategy;
   IterativeNeonTxStrategy; ALTIterativeNeonTxStrategy;
   SimpleHolderNeonTxStrategy; ALTSimpleHolderNeonTxStrategy;
   HolderNeonTxStrategy; ALTHolderNeonTxStrategy;
   NoChainIdNeonTxStrategy; ALTNoChainIdNeonTxStrategy].

(** The calls that leave the executor, and how each one ended.  The
    executor's run is observed through the list of these events. *)
Inductive call : Type :=
| get_state_tx_cnt_call
| call_tx_emulated_call
| new_call (cls : Strategy)
| validate_call (cls : Strategy)
| complete_init_call (cls : Strategy)
| prep_before_emulate_call (cls : Strategy)
| update_after_emulate_call (cls : Strategy)
| execute_call (cls : Strategy)
| has_completed_receipt_call (cls : Strategy)
| cancel_call (cls : Strategy).

Inductive outcome : Type :=
| Returned
| ReturnedBool (b : bool)
| ReturnedInt (n : Z)
| Raised (e : exn).

Definition event : Type := call * outcome.

Section Executor.

Variable EmulatedResult : Type.
Variable NeonTxResultInfo : Type.

(** Modelled from the spec: the execution context [NeonTxSendCtx]
    ([neon_tx_sender_ctx.py] is not among the sources).  It holds the
    current [strategy_idx], the cached [state_tx_cnt], the
    [has_completed_receipt] flag and the emulated result, next to the
    transaction's sender address and nonce, whether it is a stuck
    transaction, and [config.retry_on_fail]. *)
Record NeonTxSendCtx : Type := mkNeonTxSendCtx {
  strategy_idx : nat;
  state_tx_cnt : Z;
  completed_receipt : bool;
  emulated_result : option EmulatedResult;
  neon_tx_info_addr : string;
  neon_tx_info_nonce : Z;
  stuck_tx : bool;
  retry_on_fail : Z
}.

Definition set_strategy_idx (ctx : NeonTxSendCtx) (idx : nat) :=
  {| strategy_idx := idx;
     state_tx_cnt := state_tx_cnt ctx;
     completed_receipt := completed_receipt ctx;
     emulated_result := emulated_result ctx;
     neon_tx_info_addr := neon_tx_info_addr ctx;
     neon_tx_info_nonce := neon_tx_info_nonce ctx;
     stuck_tx := stuck_tx ctx;
     retry_on_fail := retry_on_fail ctx |}.

Definition set_state_tx_cnt (ctx : NeonTxSendCtx) (cnt : Z) :=
  {| strategy_idx := strategy_idx ctx;
     state_tx_cnt := cnt;
     completed_receipt := completed_receipt ctx;
     emulated_result := emulated_result ctx;
     neon_tx_info_addr := neon_tx_info_addr ctx;
     neon_tx_info_nonce := neon_tx_info_nonce ctx;
     stuck_tx := stuck_tx ctx;
     retry_on_fail := retry_on_fail ctx |}.

Definition set_completed_receipt (ctx : NeonTxSendCtx) (v : bool) :=
  {| strategy_idx := strategy_idx ctx;
     state_tx_cnt := state_tx_cnt ctx;
     completed_receipt := v;
     emulated_result := emulated_result ctx;
     neon_tx_info_addr := neon_tx_info_addr ctx;
     neon_tx_info_nonce := neon_tx_info_nonce ctx;
     stuck_tx := stuck_tx ctx;
     retry_on_fail := retry_on_fail ctx |}.

Definition set_emulated_result (ctx : NeonTxSendCtx) (r : EmulatedResult) :=
  {| strategy_idx := strategy_idx ctx;
     state_tx_cnt := state_tx_cnt ctx;
     completed_receipt := completed_receipt ctx;
     emulated_result := Some r;
     neon_tx_info_addr := neon_tx_info_addr ctx;
     neon_tx_info_nonce := neon_tx_info_nonce ctx;
     stuck_tx := stuck_tx ctx;
     retry_on_fail := retry_on_fail ctx |}.

(** Everything outside the executor: the Chain, the Emulator and what the
    strategy objects keep.  A strategy is built on the context and may
    change it, so its methods act on the context and the world together;
    the Chain and the Emulator see the world only.  Every call returns or
    raises. *)
Record Outside : Type := mkOutside {
  World : Type;
  get_state_tx_cnt : string -> World -> result Z * World;
  call_tx_emulated :
    NeonTxSendCtx -> World -> result EmulatedResult * World;
  strategy_new :
    Strategy -> NeonTxSendCtx * World -> result unit * (NeonTxSendCtx * World);
  validate :
    Strategy -> NeonTxSendCtx * World -> result bool * (NeonTxSendCtx * World);
  complete_init :
    Strategy -> NeonTxSendCtx * World -> result unit * (NeonTxSendCtx * World);
  prep_before_emulate :
    Strategy -> NeonTxSendCtx * World -> result bool * (NeonTxSendCtx * World);
  update_after_emulate :
    Strategy -> NeonTxSendCtx * World -> result unit * (NeonTxSendCtx * World);
  strategy_execute :
    Strategy -> NeonTxSendCtx * World
    -> result NeonTxResultInfo * (NeonTxSendCtx * World);
  has_completed_receipt :
    Strategy -> NeonTxSendCtx * World -> result bool * (NeonTxSendCtx * World);
  cancel :
    Strategy -> NeonTxSendCtx * World -> result unit * (NeonTxSendCtx * World)
}.

Variable outside : Outside.

(** The context and the world, as a strategy method sees them. *)
Definition Store : Type := NeonTxSendCtx * World outside.

(** A run of a piece of the executor: how it ended, the store it left and
    the calls it made, in order. *)
Record Run (A : Type) : Type := mkRun {
  returned : result A;
  final : Store;
  events : list event
}.
Arguments mkRun {A} _ _ _.
Arguments returned {A} _.
Arguments final {A} _.
Arguments events {A} _.

Definition M (A : Type) : Type := Store -> Run A.

Definition ret {A : Type} (a : A) : M A := fun s => mkRun (Ok a) s [].

Definition raise {A : Type} (e : exn) : M A := fun s => mkRun (Raise e) s [].

Definition bind {A B : Type} (m : M A) (k : A -> M B) : M B :=
  fun s =>
    let r := m s in
    match returned r with
    | Ok a =>
        let r' := k a (final r) in
        mkRun (returned r') (final r') (events r ++ events r')
    | Raise e => mkRun (Raise e) (final r) (events r)
    end.

(** [try: body finally: fin]: [fin] always runs, and an exception of [fin]
    replaces the outcome of [body]. *)
Definition try_finally {A : Type} (body : M A) (fin : M unit) : M A :=
  fun s =>
    let r := body s in
    let f := fin (final r) in
    mkRun
      match returned f with
      | Ok _ => returned r
      | Raise e => Raise e
      end
      (final f) (events r ++ events f).

(** [try: body except ...: handler] *)
Definition try_except {A : Type} (body : M A) (handler : exn -> M A) : M A :=
  fun s =>
    let r := body s in
    match returned r with
    | Ok a => r
    | Raise e =>
        let h := handler e (final r) in
        mkRun (returned h) (final h) (events r ++ events h)
    end.

Definition get_ctx : M NeonTxSendCtx := fun s => mkRun (Ok (fst s)) s [].

Definition modify_ctx (f : NeonTxSendCtx -> NeonTxSendCtx) : M unit :=
  fun s => mkRun (Ok tt) (f (fst s), snd s) [].

Definition outcome_of {A : Type} (describe : A -> outcome) (r : result A)
  : outcome :=
  match r with
  | Ok a => describe a
  | Raise e => Raised e
  end.

(** A method of a strategy object: it runs on the store and is recorded. *)
Definition external {A : Type} (c : call) (describe : A -> outcome)
    (f : Store -> result A * Store) : M A :=
  fun s =>
    let (r, s') := f s in
    mkRun r s' [(c, outcome_of describe r)].

(** A call to the Chain or the Emulator: it sees the world only. *)
Definition external_world {A : Type} (c : call) (describe : A -> outcome)
    (f : World outside -> result A * World outside) : M A :=
  fun s =>
    let (r, world') := f (snd s) in
    mkRun r (fst s, world') [(c, outcome_of describe r)].

Notation "x <- c ;; k" := (bind c (fun x => k))
  (at level 61, c at next level, right associativity).
Notation "c ;;; k" := (bind c (fun _ => k))
  (at level 61, right associativity).

Definition _init_state_tx_cnt : M unit :=
  c <- get_ctx ;;
  state_tx_cnt <- external_world get_state_tx_cnt_call ReturnedInt
                    (get_state_tx_cnt outside (neon_tx_info_addr c)) ;;
  modify_ctx (fun c => set_state_tx_cnt c state_tx_cnt).

Definition _validate_nonce : M unit :=
  _init_state_tx_cnt ;;;
  c <- get_ctx ;;
  if state_tx_cnt c =? neon_tx_info_nonce c then ret tt
  else if state_tx_cnt c <? neon_tx_info_nonce c then raise NonceTooHighError
  else raise (NonceTooLowError (neon_tx_info_addr c) (neon_tx_info_nonce c)
                (state_tx_cnt c)).

Definition _emulate_neon_tx : M unit :=
  c <- get_ctx ;;
  if stuck_tx c then ret tt
  else
    emulated_result <- external_world call_tx_emulated_call (fun _ => Returned)
                         (call_tx_emulated outside c) ;;
    modify_ctx (fun c => set_emulated_result c emulated_result) ;;;
    _validate_nonce.

Definition _cancel (strategy : Strategy) : M unit :=
  try_except
    (external (cancel_call strategy) (fun _ => Returned)
       (cancel outside strategy))
    (fun e =>
       match e with
       | RescheduleError => raise e
       | _ => ret tt
       end).

(** The first part of the body of [for retry in range(retry_on_fail)]:
    preparation, then emulation and update when something changed or on
    the first pass.  It returns [has_changes]. *)
Definition _prepare (strategy : Strategy) (retry : Z) : M bool :=
  has_changes <- external (prep_before_emulate_call strategy) ReturnedBool
                   (prep_before_emulate outside strategy) ;;
  (if has_changes || (retry =? 0) then
     c <- get_ctx ;;
     (if negb (completed_receipt c) then _emulate_neon_tx else ret tt) ;;;
     external (update_after_emulate_call strategy) (fun _ => Returned)
       (update_after_emulate outside strategy)
   else ret tt) ;;;
  ret has_changes.

(** The loop [for retry in range(retry_on_fail)], with [remaining]
    iterations to go, and the [raise] that follows it. *)
Fixpoint _execute_retry (strategy : Strategy) (remaining : nat) (retry : Z)
  : M NeonTxResultInfo :=
  match remaining with
  | O => raise NoMoreRetriesError
  | S remaining' =>
      has_changes <- _prepare strategy retry ;;
      if has_changes then _execute_retry strategy remaining' (retry + 1)
      else
        try_finally
          (external (execute_call strategy) (fun _ => Returned)
             (strategy_execute outside strategy))
          (done <- external (has_completed_receipt_call strategy) ReturnedBool
                     (has_completed_receipt outside strategy) ;;
           if done then modify_ctx (fun c => set_completed_receipt c true)
           else ret tt)
  end.

Definition _execute (strategy_idx : nat) (strategy : Strategy)
  : M NeonTxResultInfo :=
  external (complete_init_call strategy) (fun _ => Returned)
    (complete_init outside strategy) ;;;
  modify_ctx (fun c => set_strategy_idx c strategy_idx) ;;;
  c <- get_ctx ;;
  _execute_retry strategy (Z.to_nat (retry_on_fail c)) 0.

(** How one pass of the [for] loop over the strategies ends. *)
Inductive loop_exit : Type :=
| Continue
| Return (r : NeonTxResultInfo).

(** The [try] block of the loop body. *)
Definition attempt_body (strategy_idx : nat) (strategy : Strategy)
  : M loop_exit :=
  ok <- external (validate_call strategy) ReturnedBool
          (validate outside strategy) ;;
  if negb ok then ret Continue
  else
    r <- _execute strategy_idx strategy ;;
    ret (Return r).

(** Its [except] clauses. *)
Definition on_exception (strategy : Strategy) (e : exn) : M loop_exit :=
  match e with
  | RescheduleError => raise e
  | WrongStrategyError =>
      c <- get_ctx ;;
      if negb (completed_receipt c) then ret Continue
      else _cancel strategy ;;; raise e
  | _ => _cancel strategy ;;; raise e
  end.

(** The whole [try ... except ... finally] statement. *)
Definition attempt (strategy_idx : nat) (strategy : Strategy) : M loop_exit :=
  try_finally
    (try_except (attempt_body strategy_idx strategy) (on_exception strategy))
    _init_state_tx_cnt.

(** [for strategy_idx in range(start, end)] over the strategies left, and
    the [raise BigTxError()] after the loop. *)
Fixpoint execute_from (strategies : list Strategy) (strategy_idx : nat)
  : M NeonTxResultInfo :=
  match strategies with
  | [] => raise BigTxError
  | cls :: rest =>
      external (new_call cls) (fun _ => Returned) (strategy_new outside cls) ;;;
      exit <- attempt strategy_idx cls ;;
      match exit with
      | Continue => execute_from rest (S strategy_idx)
      | Return r => ret r
      end
  end.

Definition execute : M NeonTxResultInfo :=
  c <- get_ctx ;;
  (if negb (completed_receipt c) then _validate_nonce else ret tt) ;;;
  c <- get_ctx ;;
  let start := strategy_idx c in
  execute_from (skipn start _strategy_list) start.

End Executor.

Arguments strategy_idx {EmulatedResult} _.
Arguments state_tx_cnt {EmulatedResult} _.
Arguments completed_receipt {EmulatedResult} _.
Arguments emulated_result {EmulatedResult} _.
Arguments neon_tx_info_addr {EmulatedResult} _.
Arguments neon_tx_info_nonce {EmulatedResult} _.
Arguments stuck_tx {EmulatedResult} _.
Arguments retry_on_fail {EmulatedResult} _.
Arguments set_strategy_idx {EmulatedResult} _ _.
Arguments set_state_tx_cnt {EmulatedResult} _ _.
Arguments set_completed_receipt {EmulatedResult} _ _.
Arguments set_emulated_result {EmulatedResult} _ _.
Arguments World {EmulatedResult NeonTxResultInfo} _.
Arguments get_state_tx_cnt {EmulatedResult NeonTxResultInfo} _ _ _.
Arguments call_tx_emulated {EmulatedResult NeonTxResultInfo} _ _ _.
Arguments strategy_new {EmulatedResult NeonTxResultInfo} _ _ _.
Arguments validate {EmulatedResult NeonTxResultInfo} _ _ _.
Arguments complete_init {EmulatedResult NeonTxResultInfo} _ _ _.
Arguments prep_before_emulate {EmulatedResult NeonTxResultInfo} _ _ _.
Arguments update_after_emulate {EmulatedResult NeonTxResultInfo} _ _ _.
Arguments strategy_execute {EmulatedResult NeonTxResultInfo} _ _ _.
Arguments has_completed_receipt {EmulatedResult NeonTxResultInfo} _ _ _.
Arguments cancel {EmulatedResult NeonTxResultInfo} _ _ _.
Arguments Store {EmulatedResult NeonTxResultInfo} _.
Arguments Run {EmulatedResult NeonTxResultInfo} _ _.
Arguments mkRun {EmulatedResult NeonTxResultInfo outside A} _ _ _.
Arguments returned {EmulatedResult NeonTxResultInfo outside A} _.
Arguments final {EmulatedResult NeonTxResultInfo outside A} _.
Arguments events {EmulatedResult NeonTxResultInfo outside A} _.
Arguments M {EmulatedResult NeonTxResultInfo} _ _.
Arguments ret {EmulatedResult NeonTxResultInfo outside A} _ _.
Arguments raise {EmulatedResult NeonTxResultInfo outside A} _ _.
Arguments bind {EmulatedResult NeonTxResultInfo outside A B} _ _ _.
Arguments try_finally {EmulatedResult NeonTxResultInfo outside A} _ _ _.
Arguments try_except {EmulatedResult NeonTxResultInfo outside A} _ _ _.
Arguments get_ctx {EmulatedResult NeonTxResultInfo outside} _.
Arguments modify_ctx {EmulatedResult NeonTxResultInfo outside} _ _.
Arguments external {EmulatedResult NeonTxResultInfo outside A} _ _ _ _.
Arguments external_world {EmulatedResult NeonTxResultInfo outside A} _ _ _ _.
Arguments _init_state_tx_cnt {EmulatedResult NeonTxResultInfo} _ _.
Arguments _validate_nonce {EmulatedResult NeonTxResultInfo} _ _.
Arguments _emulate_neon_tx {EmulatedResult NeonTxResultInfo} _ _.
Arguments _cancel {EmulatedResult NeonTxResultInfo} _ _ _.
Arguments _prepare {EmulatedResult NeonTxResultInfo} _ _ _ _.
Arguments _execute_retry {EmulatedResult NeonTxResultInfo} _ _ _ _ _.
Arguments _execute {EmulatedResult NeonTxResultInfo} _ _ _ _.
Arguments Continue {NeonTxResultInfo}.
Arguments Return {NeonTxResultInfo} _.
Arguments attempt_body {EmulatedResult NeonTxResultInfo} _ _ _ _.
Arguments on_exception {EmulatedResult NeonTxResultInfo} _ _ _ _.
Arguments attempt {EmulatedResult NeonTxResultInfo} _ _ _ _.
Arguments execute_from {EmulatedResult NeonTxResultInfo} _ _ _ _.
Arguments execute {EmulatedResult NeonTxResultInfo} _ _.

(** *** Reading the record of a run *)

Definition strategy_rank (cls : Strategy) : nat :=
  match cls with
  | SimpleNeonTxStrategy => 0
  | ALTSimpleNeonTxStrategy => 1
  | IterativeNeonTxStrategy => 2
  | ALTIterativeNeonTxStrategy => 3
  | SimpleHolderNeonTxStrategy => 4
  | ALTSimpleHolderNeonTxStrategy => 5
  | HolderNeonTxStrategy => 6
  | ALTHolderNeonTxStrategy => 7
  | NoChainIdNeonTxStrategy => 8
  | ALTNoChainIdNeonTxStrategy => 9
  end.

Definition strategy_eqb (a b : Strategy) : bool :=
  Nat.eqb (strategy_rank a) (strategy_rank b).

Definition is_prep_call (c : call) : bool :=
  match c with
  | prep_before_emulate_call _ => true
  | _ => false
  end.

Definition is_execute_call (c : call) : bool :=
  match c with
  | execute_call _ => true
  | _ => false
  end.

Definition is_cancel_call (c : call) : bool :=
  match c with
  | cancel_call _ => true
  | _ => false
  end.

Definition is_new_call (c : call) : bool :=
  match c with
  | new_call _ => true
  | _ => false
  end.

(** The strategies built in a record, in the order of their building. *)
Definition strategies_built (t : list event) : list Strategy :=
  flat_map (fun e : event =>
              match fst e with
              | new_call cls => [cls]
              | _ => []
              end) t.

Definition not_built (e : event) : bool := negb (is_new_call (fst e)).

(** The calls of [cancel()] in a record. *)
Definition cancellations (t : list event) : list event :=
  filter (fun e : event => is_cancel_call (fst e)) t.

(** An event that is neither a preparation nor an execution. *)
Definition quiet (e : event) : bool :=
  negb (is_prep_call (fst e) || is_execute_call (fst e)).

(** [execute_guarded last t]: in the record [t], every call of
    [execute()] on a strategy comes after a [prep_before_emulate()] of the
    same strategy that returned [False], with no other preparation and no
    other execution in between.  [last] is the strategy and the value of the
    latest preparation still standing before [t]. *)
Fixpoint execute_guarded (last : option (Strategy * bool)) (t : list event)
  : bool :=
  match t with
  | [] => true
  | (prep_before_emulate_call cls, o) :: t' =>
      execute_guarded
        match o with
        | ReturnedBool b => Some (cls, b)
        | _ => None
        end t'
  | (execute_call cls, _) :: t' =>
      match last with
      | Some (cls', false) => strategy_eqb cls cls' && execute_guarded None t'
      | _ => false
      end
  | _ :: t' => execute_guarded last t'
  end.

(** Records in which every event passes a test. *)
Definition all_events (P : event -> bool) (t : list event) : Prop :=
  forallb P t = true.

Definition no_cancel (e : event) : bool := negb (is_cancel_call (fst e)).

(** The event of a call of [cancel()] that ended as [r]. *)
Definition cancel_event (cls : Strategy) (r : result unit) : event :=
  (cancel_call cls, outcome_of (fun _ : unit => Returned) r).

(** Records that keep [execute_guarded] whatever stands before them, and
    whatever guarded record follows. *)
Definition safe (t : list event) : Prop :=
  forall last, execute_guarded last t = true.

Definition Guarded (t : list event) : Prop :=
  forall last t2, safe t2 -> execute_guarded last (t ++ t2) = true.

Section Runs.

Variable EmulatedResult : Type.
Variable NeonTxResultInfo : Type.
Variable outside : Outside EmulatedResult NeonTxResultInfo.

(** How [_validate_nonce] ends on a refreshed count [v]. *)
Definition nonce_verdict (c : NeonTxSendCtx EmulatedResult) (v : Z)
  : result unit :=
  if v =? neon_tx_info_nonce c then Ok tt
  else if v <? neon_tx_info_nonce c then Raise NonceTooHighError
  else Raise (NonceTooLowError (neon_tx_info_addr c) (neon_tx_info_nonce c) v).

(** [emits Q m]: the record of every run of [m] has the property [Q]. *)
Definition emits (Q : list event -> Prop) {A : Type} (m : M outside A)
  : Prop :=
  forall s, Q (events (m s)).

(** What a preparation does once [prep_before_emulate()] has returned. *)
Definition _prepare_tail (cls : Strategy) (retry : Z) (has_changes : bool)
  : M outside bool :=
  bind (if has_changes || (retry =? 0)
        then bind get_ctx (fun c =>
               bind (if negb (completed_receipt c)
                     then _emulate_neon_tx outside else ret tt)
                 (fun _ => external (update_after_emulate_call cls)
                             (fun _ => Returned)
                             (update_after_emulate outside cls)))
        else ret tt)
    (fun _ => ret has_changes).

(** The end of a pass that found nothing to change: [execute()], then
    [has_completed_receipt()]. *)
Definition execute_step (cls : Strategy) : M outside NeonTxResultInfo :=
  try_finally
    (external (execute_call cls) (fun _ => Returned)
       (strategy_execute outside cls))
    (bind (external (has_completed_receipt_call cls) ReturnedBool
             (has_completed_receipt outside cls))
       (fun done =>
          if done then modify_ctx (fun c => set_completed_receipt c true)
          else ret tt)).

(** [always_changes strategy n retry s]: from the store [s], each of the
    next [n] passes of the retry loop completes its preparation with
    [has_changes] true. *)
Fixpoint always_changes (strategy : Strategy) (n : nat) (retry : Z)
    (s : Store outside) : Prop :=
  match n with
  | O => True
  | S n' =>
      returned (_prepare outside strategy retry s) = Ok true
      /\ always_changes strategy n' (retry + 1)
           (final (_prepare outside strategy retry s))
  end.

End Runs.

Arguments always_changes {EmulatedResult NeonTxResultInfo} _ _ _ _ _.
Arguments nonce_verdict {EmulatedResult} _ _.
Arguments emits {EmulatedResult NeonTxResultInfo outside} _ {A} _.
Arguments _prepare_tail {EmulatedResult NeonTxResultInfo} _ _ _ _.
Arguments execute_step {EmulatedResult NeonTxResultInfo} _ _.

End NeonTxSender.

(** ** Keccak-256, as [eth_utils.keccak] computes it

    The sponge over Keccak-f[1600] with rate 136 bytes and the original
    padding (a [1] bit, zeros, a final [1] bit).  Lanes are 64-bit numbers,
    the state is the list of its 25 lanes, lane [(x, y)] at index
    [x + 5 * y]. *)

Module Keccak.
Import Py.
Local Open Scope N_scope.

Definition mask64 : N := 0xFFFFFFFFFFFFFFFF.

Definition rotl64 (x n : N) : N :=
  N.land (N.lor (N.shiftl x n) (N.shiftr x (64 - n))) mask64.

Definition lane (st : list N) (i : nat) : N := nth i st 0.

Definition indices : list nat := seq 0 25.

Definition column (st : list N) (x : nat) : N :=
  fold_left N.lxor (map (fun y => lane st (x + 5 * y)%nat) (seq 0 5)) 0.

Definition theta (st : list N) : list N :=
  let d x :=
    N.lxor (column st ((x + 4) mod 5)%nat)
           (rotl64 (column st ((x + 1) mod 5)%nat) 1) in
  map (fun i => N.lxor (lane st i) (d (i mod 5)%nat)) indices.

Definition rotation_offsets : list N :=
  [ 0;  1; 62; 28; 27;
   36; 44;  6; 55; 20;
    3; 10; 43; 25; 39;
   41; 45; 15; 21;  8;
   18;  2; 61; 56; 14].

(** Lane [(x, y)] moves to [(y, 2x + 3y)] after its rotation: the lane at
    [(X, Y)] of the result comes from [x = X + 3Y], [y = X]. *)
Definition rho_pi (st : list N) : list N :=
  map (fun i =>
         let X := (i mod 5)%nat in
         let Y := (i / 5)%nat in
         let src := (((X + 3 * Y) mod 5) + 5 * X)%nat in
         rotl64 (lane st src) (nth src rotation_offsets 0))
      indices.

Definition chi (st : list N) : list N :=
  map (fun i =>
         let x := (i mod 5)%nat in
         let row := (5 * (i / 5))%nat in
         N.lxor (lane st i)
           (N.land (N.lxor (lane st (((x + 1) mod 5) + row)%nat) mask64)
                   (lane st (((x + 2) mod 5) + row)%nat)))
      indices.

Definition iota (rc : N) (st : list N) : list N :=
  match st with
  | [] => []
  | a :: rest => N.lxor a rc :: rest
  end.

Definition round_constants : list N :=
  [0x0000000000000001; 0x0000000000008082; 0x800000000000808A;
   0x8000000080008000; 0x000000000000808B; 0x0000000080000001;
   0x8000000080008081; 0x8000000000008009; 0x000000000000008A;
   0x0000000000000088; 0x0000000080008009; 0x000000008000000A;
   0x000000008000808B; 0x800000000000008B; 0x8000000000008089;
   0x8000000000008003; 0x8000000000008002; 0x8000000000000080;
   0x000000000000800A; 0x800000008000000A; 0x8000000080008081;
   0x8000000000008080; 0x0000000080000001; 0x8000000080008008].

Definition round (st : list N) (rc : N) : list N :=
  iota rc (chi (rho_pi (theta st))).

Definition keccak_f (st : list N) : list N :=
  fold_left round round_constants st.

Definition rate : nat := 136.

(** Little-endian lanes of a block, and back. *)
Fixpoint lanes_of_bytes (fuel : nat) (bs : bytes) : list N :=
  match fuel with
  | O => []
  | S f =>
      Z.to_N (int_from_bytes_little (firstn 8 bs))
        :: lanes_of_bytes f (skipn 8 bs)
  end.

Definition bytes_of_lane (l : N) : bytes := little_digits 8 (Z.of_N l).

Fixpoint xor_lanes (st blk : list N) : list N :=
  match st, blk with
  | a :: st', b :: blk' => N.lxor a b :: xor_lanes st' blk'
  | _, [] => st
  | [], _ => []
  end.

Definition pad (msg : bytes) : bytes :=
  let fill := (rate - (List.length msg mod rate))%nat in
  match fill with
  | 1%nat => msg ++ [x81]
  | _ => msg ++ [x01] ++ repeat x00 (fill - 2) ++ [x80]
  end.

Fixpoint absorb (blocks : nat) (bs : bytes) (st : list N) : list N :=
  match blocks with
  | O => st
  | S k =>
      absorb k (skipn rate bs)
        (keccak_f (xor_lanes st (lanes_of_bytes 17 (firstn rate bs))))
  end.

Definition keccak256 (msg : bytes) : bytes :=
  let padded := pad msg in
  let st := absorb (List.length padded / rate) padded (repeat 0 25) in
  flat_map bytes_of_lane (firstn 4 st).

End Keccak.

(** ** [eth_utils.to_checksum_address]

    The library function the worker calls (EIP-55): the address is brought
    to its normal form, [0x] and forty hexadecimal digits in lower case, and
    a letter is put in upper case when the matching digit of the Keccak-256
    hash of the forty digits is above 7.  A text that is not an address
    raises [ValueError]. *)

Module EthUtils.
Import Py.
Local Open Scope string_scope.

Definition is_0x_prefixed (value : string) : bool :=
  (str_take 2 value =? "0x") || (str_take 2 value =? "0X").

Definition remove_0x_prefix (value : string) : string :=
  if is_0x_prefixed value then str_drop 2 value else value.

Definition add_0x_prefix (value : string) : string :=
  if is_0x_prefixed value then value else "0x" ++ value.

Fixpoint all_hex_digits (s : string) : bool :=
  match s with
  | EmptyString => true
  | String c r =>
      match hex_digit_value c with
      | Some _ => all_hex_digits r
      | None => false
      end
  end.

(** [is_hexstr]: a text that is not empty and matches
    [(0[xX])?[0-9a-fA-F]*]. *)
Definition is_hexstr (value : string) : bool :=
  match value with
  | EmptyString => false
  | _ => all_hex_digits (remove_0x_prefix value)
  end.

Definition is_hex_address (value : string) : bool :=
  is_hexstr value && (String.length (remove_0x_prefix value) =? 40)%nat.

Definition to_normalized_address (value : string) : result string :=
  let unprefixed := remove_0x_prefix value in
  if negb (unprefixed =? "") && negb (is_hexstr value) then Raise ValueError
  else
    let hex_address := str_lower (add_0x_prefix (str_lower value)) in
    if is_hex_address hex_address then Ok hex_address else Raise ValueError.

(** The hexadecimal digits of a byte string, most significant first. *)
Definition nibbles (bs : bytes) : list N :=
  flat_map (fun b => [(Byte.to_N b / 16)%N; (Byte.to_N b mod 16)%N]) bs.

Fixpoint checksum_chars (address : string) (hash : list N) : string :=
  match address, hash with
  | String c r, n :: hash' =>
      String (if (7 <? n)%N then char_upper c else c) (checksum_chars r hash')
  | _, _ => EmptyString
  end.

Definition to_checksum_address (value : string) : result string :=
  match to_normalized_address value with
  | Raise e => Raise e
  | Ok norm_address =>
      let unprefixed := remove_0x_prefix norm_address in
      let address_hash :=
        nibbles (Keccak.keccak256 (list_byte_of_string unprefixed)) in
      Ok (add_0x_prefix (checksum_chars unprefixed address_hash))
  end.

(** [0x] and the digits [h] in checksum case. *)
Definition checksum_case (h : string) : string :=
  "0x" ++ checksum_chars h
            (nibbles (Keccak.keccak256 (list_byte_of_string h))).

End EthUtils.

(** ** proxy/neon_rpc_api_model/neon_rpc_api_worker.py *)

Module NeonRpcApiWorker.
Import Py.
Local Open Scope string_scope.

(** *** JSON values

    The objects of a JSON-RPC call and the records of the database: [None],
    a [bool], an [int], a [str], a [list], or a [dict] with [str] keys, kept
    in insertion order.  Numbers with a fraction are left out. *)

#[warnings="-register-all"]
Inductive Json : Type :=
| JNone
| JBool (b : bool)
| JInt (n : Z)
| JStr (s : string)
| JList (items : list Json)
| JDict (fields : list (string * Json)).

Definition Dict : Type := list (string * Json).

Definition KeyError : exn := OtherException "KeyError".

(** [EthereumError(message)] *)
Definition EthereumError (message : string) : exn :=
  OtherException ("EthereumError: " ++ message).

(** [d.get(key)] *)
Fixpoint dict_get (d : Dict) (key : string) : option Json :=
  match d with
  | [] => None
  | (k, v) :: rest => if k =? key then Some v else dict_get rest key
  end.

(** [d.get(key, default)] *)
Definition dict_get_default (d : Dict) (key : string) (default : Json)
  : Json :=
  match dict_get d key with
  | Some v => v
  | None => default
  end.

(** [d[key]] *)
Definition dict_item (d : Dict) (key : string) : result Json :=
  match dict_get d key with
  | Some v => Ok v
  | None => Raise KeyError
  end.

(** [d[key] = value]: a key that is there keeps its place. *)
Fixpoint dict_set (d : Dict) (key : string) (value : Json) : Dict :=
  match d with
  | [] => [(key, value)]
  | (k, v) :: rest =>
      if k =? key then (k, value) :: rest
      else (k, v) :: dict_set rest key value
  end.

(** [bool(v)] *)
Definition truthy (v : Json) : bool :=
  match v with
  | JNone => false
  | JBool b => b
  | JInt n => negb (n =? 0)%Z
  | JStr s => negb (s =? "")
  | JList items => match items with [] => false | _ => true end
  | JDict fields => match fields with [] => false | _ => true end
  end.

(** [len(v)] *)
Definition len (v : Json) : result nat :=
  match v with
  | JStr s => Ok (String.length s)
  | JList items => Ok (List.length items)
  | JDict fields => Ok (List.length fields)
  | _ => Raise TypeError
  end.

(** [v[key]] for a [str] key: only a [dict] has such items. *)
Definition json_item (v : Json) (key : string) : result Json :=
  match v with
  | JDict fields => dict_item fields key
  | _ => Raise TypeError
  end.

(** [prefix + v] for a [str] prefix. *)
Definition str_add (prefix : string) (v : Json) : result string :=
  match v with
  | JStr s => Ok (prefix ++ s)
  | _ => Raise TypeError
  end.

(** A block tag is a [str], an [int] or a [dict] (the block object with
    the key [blockHash] or [blockNumber]). *)
Inductive Tag : Type :=
| TagStr (s : string)
| TagInt (n : Z)
| TagDict (fields : Dict).

(** [tag == name] for a [str] name. *)
Definition tag_is (tag : Tag) (name : string) : bool :=
  match tag with
  | TagStr s => s =? name
  | TagInt _ => false
  | TagDict _ => false
  end.

(** [tag in {...}] for a set of [str]: a [dict] cannot be hashed. *)
Definition tag_in (tag : Tag) (names : list string) : result bool :=
  match tag with
  | TagStr s => Ok (existsb (String.eqb s) names)
  | TagInt _ => Ok false
  | TagDict _ => Raise TypeError
  end.

(** [key in d] *)
Definition dict_has (d : Dict) (key : string) : bool :=
  match dict_get d key with
  | Some _ => true
  | None => false
  end.

(** [assert cond] *)
Definition assert (cond : bool) : result unit :=
  if cond then Ok tt else Raise AssertionError.

(** [try: body except (Exception,): handler] *)
Definition except_Exception {A : Type} (body : result A)
    (handler : result A) : result A :=
  match body with
  | Ok v => Ok v
  | Raise e => if is_Exception e then handler else Raise e
  end.

Section Blocks.

(** The blocks of the database: [SolBlockInfo] with its method [is_empty],
    and the two queries of [IndexerDB] the validation of a tag makes.
    [repr] is the text Python prints for a [list] or a [dict]. *)
Context {SolBlockInfo : Type}.
Variable is_empty : SolBlockInfo -> result bool.
Variable get_block_by_hash : string -> result SolBlockInfo.
Variable get_block_by_slot : Json -> result SolBlockInfo.
Variable repr : Json -> result string.

(** [f'{v}'] *)
Definition format_json (v : Json) : result string :=
  match v with
  | JNone => Ok "None"
  | JBool true => Ok "True"
  | JBool false => Ok "False"
  | JInt n => format_int n
  | JStr s => Ok s
  | JList _ | JDict _ => repr v
  end.

(** [f'{tag}'] *)
Definition format_tag (tag : Tag) : result string :=
  match tag with
  | TagStr s => Ok s
  | TagInt n => format_int n
  | TagDict fields => repr (JDict fields)
  end.

(** [_get_block_by_hash]: a value that is no [str] has no [strip]
    (AttributeError) and is printed as it came; a [str] is printed
    trimmed and in lower case. *)
Definition _get_block_by_hash (block_hash : Json) : result SolBlockInfo :=
  rbind
    match block_hash with
    | JStr s =>
        let block_hash := str_lower (str_strip s) in
        except_Exception
          (rbind (assert (str_take 2 block_hash =? "0x")) (fun _ =>
           match bytes_fromhex (str_drop 2 block_hash) with
           | None => Raise ValueError
           | Some bin_block_hash =>
               rbind (assert (List.length bin_block_hash =? 32)%nat) (fun _ =>
               Ok block_hash)
           end))
          (Raise (InvalidParamError ("bad block hash " ++ block_hash)))
    | _ =>
        rbind (format_json block_hash) (fun text =>
        Raise (InvalidParamError ("bad block hash " ++ text)))
    end (fun block_hash =>
  rbind (get_block_by_hash block_hash) (fun block =>
  rbind (is_empty block) (fun _ =>
  Ok block))).

Definition _validate_block_tag (tag : Tag) : result unit :=
  let body : result unit :=
    match tag with
    | TagInt _ => Ok tt
    | TagStr s =>
        (* the stripped and lowered copy of the tag is dropped *)
        let _ := str_lower (str_strip s) in
        if (s =? "latest") || (s =? "pending") || (s =? "earliest")
           || (s =? "finalized") || (s =? "safe")
        then Ok tt
        else
          rbind (assert (str_take 2 s =? "0x")) (fun _ =>
          match int_of_str 16 (str_drop 2 s) with
          | Some _ => Ok tt
          | None => Raise ValueError
          end)
    | TagDict tag =>
        match dict_get tag "blockHash" with
        | Some block_hash =>
            rbind (assert (negb (dict_has tag "blockNumber"))) (fun _ =>
            rbind (_get_block_by_hash block_hash) (fun block =>
            rbind (is_empty block) (fun empty =>
            if empty then
              rbind (format_json block_hash) (fun text =>
              Raise (InvalidParamError
                       ("header for block hash " ++ text ++ " not found")))
            else Ok tt)))
        | None =>
            rbind (dict_item tag "blockNumber") (fun block_number =>
            rbind (get_block_by_slot block_number) (fun block =>
            rbind (is_empty block) (fun empty =>
            if empty then
              rbind (format_json block_number) (fun text =>
              Raise (InvalidParamError
                       ("header for block number " ++ text ++ " not found")))
            else Ok tt)))
        end
    end in
  match body with
  | Ok v => Ok v
  | Raise (InvalidParamError m) => Raise (InvalidParamError m)
  | Raise e =>
      if is_Exception e then
        rbind (format_tag tag) (fun text =>
        Raise (InvalidParamError ("invalid block tag " ++ text)))
      else Raise e
  end.

Definition _normalize_address (raw_address : string) (address_type : string)
  : result string :=
  let body : result string :=
    let address := str_lower (str_strip raw_address) in
    rbind (assert (str_take 2 address =? "0x")) (fun _ =>
    let address := str_drop 2 address in
    match bytes_fromhex address with
    | None => Raise ValueError
    | Some bin_address =>
        rbind (assert (List.length bin_address =? 20)%nat) (fun _ =>
        EthUtils.to_checksum_address address)
    end) in
  match body with
  | Ok v => Ok v
  | Raise _ =>
      Raise (InvalidParamError ("bad " ++ address_type ++ ": " ++ raw_address))
  end.

(** A parameter of a JSON-RPC call as the checks of the worker tell it
    apart: a [str], an [int], a [bool] (an [int] for [isinstance], with the
    values 1 and 0), or any other object, given by the text an f-string
    prints for it. *)
Inductive Param : Type :=
| ParamStr (s : string)
| ParamInt (n : Z)
| ParamBool (b : bool)
| ParamOther (shown : string).

(** [f'{value}'] *)
Definition format_param (value : Param) : string :=
  match value with
  | ParamStr s => s
  | ParamInt n => str_of_int n
  | ParamBool true => "True"
  | ParamBool false => "False"
  | ParamOther shown => shown
  end.

Definition RuntimeError : exn := OtherException "RuntimeError".

Definition _normalize_hex (value : Param) (name : string) : result Z :=
  let body : result Z :=
    match value with
    | ParamInt n => Ok n
    | ParamBool b => Ok (if b then 1 else 0)%Z
    | ParamStr s =>
        let value := str_lower s in
        if negb (str_startswith value "0x") then Raise RuntimeError
        else
          match int_of_str 16 (str_drop 2 value) with
          | Some n => Ok n
          | None => Raise ValueError
          end
    | ParamOther _ => Raise RuntimeError
    end in
  match body with
  | Ok v => Ok v
  | Raise _ => Raise (InvalidParamError ("invalid " ++ name ++ ": value"))
  end.

Definition _normalize_tx_id (tag : Param) : result string :=
  match tag with
  | ParamStr s =>
      let body : result string :=
        let tag := str_strip (str_lower s) in
        rbind (assert (String.length tag =? 66)%nat) (fun _ =>
        rbind (assert (str_take 2 tag =? "0x")) (fun _ =>
        match int_of_str 16 (str_drop 2 tag) with
        | Some _ => Ok tag
        | None => Raise ValueError
        end)) in
      match body with
      | Ok v => Ok v
      | Raise _ => Raise (InvalidParamError "transaction-id is not hex")
      end
  | _ => Raise (InvalidParamError "bad transaction-id format")
  end.

Definition _normalize_topic (raw_topic : Param) : result string :=
  let body : result string :=
    match raw_topic with
    | ParamStr s =>
        let topic := str_lower (str_strip s) in
        rbind (assert (str_take 2 topic =? "0x")) (fun _ =>
        let topic := str_drop 2 topic in
        match bytes_fromhex topic with
        | None => Raise ValueError
        | Some bin_topic =>
            rbind (assert (List.length bin_topic =? 32)%nat) (fun _ =>
            Ok ("0x" ++ str_lower (bytes_hex bin_topic)))
        end)
    | _ => Raise AssertionError
    end in
  match body with
  | Ok v => Ok v
  | Raise _ =>
      Raise (InvalidParamError ("bad topic " ++ format_param raw_topic))
  end.

(** [web3_sha3]: a parameter that is no [str] fails in the slice or in
    [bytes.fromhex], inside the [try]. *)
Definition web3_sha3 (data : Param) : result string :=
  let body : result bytes :=
    match data with
    | ParamStr s =>
        match bytes_fromhex (str_drop 2 s) with
        | Some bs => Ok bs
        | None => Raise ValueError
        end
    | _ => Raise TypeError
    end in
  match body with
  | Ok data => Ok ("0x" ++ bytes_hex (Keccak.keccak256 data))
  | Raise _ => Raise (InvalidParamError "data is not hex string")
  end.

(** The commitment [eth_getTransactionCount] asks the Chain for, by block
    tag. *)
Definition commitment_of (tag : Tag) : SolCommit :=
  if tag_is tag "pending" || tag_is tag "latest" then Processed
  else if tag_is tag "finalized" || tag_is tag "safe" then Finalized
  else Confirmed.

Section Worker.

(** The mempool client, the Chain RPC client and the request id taken from
    the logging context. *)
Variable get_pending_tx_nonce : string -> string -> result (option Z).
Variable get_mempool_tx_nonce : string -> string -> result (option Z).
Variable get_state_tx_cnt : string -> SolCommit -> result Z.
Variable get_req_id_from_log : string.

(** [eth_getTransactionCount].  The texts of the three log lines are built
    whatever the level of the log; building one can raise. *)
Definition eth_getTransactionCount (account : string) (tag : Tag)
  : result string :=
  rbind (_validate_block_tag tag) (fun _ =>
  rbind (_normalize_address account "address") (fun account =>
  let account := str_lower account in
  let body : result string :=
    rbind (format_tag tag) (fun _ =>
    let pending_tx_nonce : option Z := None in
    let commitment := Confirmed in
    let req_id := get_req_id_from_log in
    rbind
      (if tag_is tag "pending" then
         rbind (get_pending_tx_nonce req_id account) (fun pending_tx_nonce =>
         rbind (format_opt_int pending_tx_nonce) (fun _ =>
         Ok (Processed, pending_tx_nonce)))
       else if tag_is tag "latest" then
         rbind (get_mempool_tx_nonce req_id account) (fun pending_tx_nonce =>
         rbind (format_opt_int pending_tx_nonce) (fun _ =>
         Ok (Processed, pending_tx_nonce)))
       else
         rbind (tag_in tag ["finalized"; "safe"]) (fun final =>
         if final then Ok (Finalized, pending_tx_nonce)
         else Ok (commitment, pending_tx_nonce)))
      (fun '(commitment, pending_tx_nonce) =>
    let pending_tx_nonce :=
      match pending_tx_nonce with
      | Some n => n
      | None => 0%Z
      end in
    rbind (get_state_tx_cnt account commitment) (fun tx_cnt =>
    let tx_count := Z.max tx_cnt pending_tx_nonce in
    Ok (hex tx_count)))) in
  except_Exception body (Ok (hex 0)))).

(** The mempool query [eth_getTransactionCount] makes, by block tag: none
    but for [pending] and [latest]. *)
Definition mempool_query (tag : Tag) (sender : string)
  : result (option Z) :=
  if tag_is tag "pending"
  then get_pending_tx_nonce get_req_id_from_log sender
  else if tag_is tag "latest"
  then get_mempool_tx_nonce get_req_id_from_log sender
  else Ok None.

End Worker.

(** *** Balances *)

(** [NeonAccountInfo], by the fields the worker reads. *)
Record NeonAccountInfo : Type := mkNeonAccountInfo {
  balance : Z;
  nonce : Z
}.

(** The commitment [eth_getBalance] asks the Chain for, by block tag. *)
Definition balance_commitment (tag : Tag) : SolCommit :=
  if tag_is tag "pending" then Processed
  else if tag_is tag "finalized" || tag_is tag "safe" then Finalized
  else Confirmed.

Section Accounts.

(** The configuration, the gas tank and the Chain RPC client. *)
Variable gas_less_tx_max_nonce : Z.
Variable gas_less_tx_max_gas : Z.
Variable has_gas_less_tx_permit : string -> result bool.
Variable get_neon_account_info :
  string -> SolCommit -> result (option NeonAccountInfo).

Definition _has_gas_less_tx_permit (account : string)
    (tx_nonce tx_gas_limit : Z) : result bool :=
  if (gas_less_tx_max_nonce <? tx_nonce)%Z then Ok false
  else if (gas_less_tx_max_gas <? tx_gas_limit)%Z then Ok false
  else has_gas_less_tx_permit account.

Definition _get_zero_balance (account : string)
    (neon_account_info : option NeonAccountInfo) : result string :=
  let nonce :=
    match neon_account_info with
    | Some info => nonce info
    | None => 0%Z
    end in
  rbind (_has_gas_less_tx_permit account nonce 0) (fun permit =>
  if permit then Ok (hex 1) else Ok (hex 0)).

Definition eth_getBalance (account : string) (tag : Tag) : result string :=
  rbind (_validate_block_tag tag) (fun _ =>
  rbind (_normalize_address account "address") (fun account =>
  let body : result string :=
    rbind
      (if tag_is tag "pending" then Ok Processed
       else
         rbind (tag_in tag ["finalized"; "safe"]) (fun final =>
         if final then Ok Finalized else Ok Confirmed)) (fun commitment =>
    rbind (get_neon_account_info account commitment)
      (fun neon_account_info =>
    match neon_account_info with
    | None => _get_zero_balance account neon_account_info
    | Some info =>
        if (balance info =? 0)%Z
        then _get_zero_balance account neon_account_info
        else Ok (hex (balance info))
    end)) in
  except_Exception body (Ok (hex 0)))).

End Accounts.

(** *** The gas price *)

(** [MPGasPriceResult] of [proxy/mempool/mempool_api.py]. *)
Record MPGasPriceResult : Type := mkMPGasPriceResult {
  suggested_gas_price : Z;
  min_gas_price : Z;
  last_update_mapping_sec : Z;
  sol_price_account : bytes;
  neon_price_account : bytes
}.

(** The two fields of the worker the gas price is kept in. *)
Record GasPriceFields : Type := mkGasPriceFields {
  _gas_price_value : option MPGasPriceResult;
  _last_gas_price_time : Z
}.

Section GasPrice.

Variable get_req_id_from_log : string.

(** The property [_gas_price] at the time [now] (in seconds, rounded up),
    with the mempool client answering as [get_gas_price]: the value and the
    fields of the worker after the call. *)
Definition _gas_price (self : GasPriceFields) (now : Z)
    (get_gas_price : string -> result (option MPGasPriceResult))
  : result MPGasPriceResult * GasPriceFields :=
  let '(asked, self) :=
    if negb (_last_gas_price_time self =? now)%Z then
      match get_gas_price get_req_id_from_log with
      | Raise e => (Raise e, self)
      | Ok gas_price =>
          (Ok tt,
           match gas_price with
           | Some _ =>
               {| _gas_price_value := gas_price;
                  _last_gas_price_time := _last_gas_price_time self |}
           | None => self
           end)
      end
    else (Ok tt, self) in
  match asked with
  | Raise e => (Raise e, self)
  | Ok _ =>
      match _gas_price_value self with
      | None =>
          (Raise (EthereumError
                    "Failed to calculate gas price. Try again later"), self)
      | Some value => (Ok value, self)
      end
  end.

Definition eth_gasPrice (self : GasPriceFields) (now : Z)
    (get_gas_price : string -> result (option MPGasPriceResult))
  : result string * GasPriceFields :=
  let '(gas_price, self) := _gas_price self now get_gas_price in
  (rbind gas_price (fun gas_price => Ok (hex (suggested_gas_price gas_price))),
   self).

(** The answers to a sequence of [eth_gasPrice] calls on one worker, each
    given by its time and by what the mempool answers then. *)
Fixpoint eth_gasPrice_calls (self : GasPriceFields)
    (calls : list (Z * (string -> result (option MPGasPriceResult))))
  : list (result string) * GasPriceFields :=
  match calls with
  | [] => ([], self)
  | (now, get_gas_price) :: rest =>
      let '(answer, self) := eth_gasPrice self now get_gas_price in
      let '(answers, self) := eth_gasPrice_calls self rest in
      (answer :: answers, self)
  end.

End GasPrice.

(** The price the worker knows after the mempool gave the [answers], one
    after the other: the last one that is not [None]. *)
Fixpoint last_price (known : option MPGasPriceResult)
    (answers : list (option MPGasPriceResult)) : option MPGasPriceResult :=
  match answers with
  | [] => known
  | answer :: rest =>
      last_price (match answer with Some _ => answer | None => known end) rest
  end.

(** *** Calls *)

Section Call.

(** The configuration and the emulator.  [call_emulated n] is the answer
    of the emulator when [n] calls were made before. *)
Variable retry_on_fail : Z.
Variable call_emulated : nat -> Json -> Json -> Json -> Json -> result Json.
Variable check_emulated_exit_status : Json -> result unit.

(** The body of the inner [try] of [eth_call]. *)
Definition emulate (calls : nat) (contract_id caller_id data value : Json)
  : result string :=
  rbind (call_emulated calls contract_id caller_id data value)
    (fun emulator_json =>
  rbind (check_emulated_exit_status emulator_json) (fun _ =>
  rbind (json_item emulator_json "result") (fun result =>
  str_add "0x" result))).

(** The [while True] loop of [eth_call]: the outcome and the number of
    calls of the emulator made so far, or [None] when [fuel] rounds were
    not enough. *)
Fixpoint eth_call_loop (fuel : nat) (calls : nat) (retry_idx : Z)
    (contract_id caller_id data value : Json)
  : option (result string * nat) :=
  match fuel with
  | O => None
  | S fuel =>
      match emulate calls contract_id caller_id data value with
      | Ok v => Some (Ok v, S calls)
      | Raise RescheduleError =>
          let retry_idx := (retry_idx + 1)%Z in
          if (retry_idx <? retry_on_fail)%Z
          then eth_call_loop fuel (S calls) retry_idx
                 contract_id caller_id data value
          else Some (Raise RescheduleError, S calls)
      | Raise e => Some (Raise e, S calls)
      end
  end.

Definition eth_call (fuel : nat) (obj : Json) (tag : Tag)
  : option (result string * nat) :=
  match _validate_block_tag tag with
  | Raise e => Some (Raise e, O)
  | Ok _ =>
      match obj with
      | JDict obj =>
          match dict_item obj "data" with
          | Raise e => Some (Raise e, O)
          | Ok obj_data =>
              if negb (truthy obj_data)
              then Some (Raise (InvalidParamError "missing data"), O)
              else
                let caller_id :=
                  dict_get_default obj "from"
                    (JStr "0x0000000000000000000000000000000000000000") in
                let contract_id := dict_get_default obj "to" (JStr "deploy") in
                let data := dict_get_default obj "data" (JStr "None") in
                let value := dict_get_default obj "value" (JStr "") in
                let retry_idx := 0%Z in
                eth_call_loop fuel O retry_idx contract_id caller_id data value
          end
      | _ => Some (Raise (InvalidParamError "invalid object type"), O)
      end
  end.

End Call.

End Blocks.

(** *** Logs *)

Definition event_type_dict : list (Z * string) :=
  [(1, "LOG");
   (101, "ENTER CALL");
   (102, "ENTER CALL CODE");
   (103, "ENTER STATICCALL");
   (104, "ENTER DELEGATECALL");
   (105, "ENTER CREATE");
   (106, "ENTER CREATE2");
   (201, "EXIT STOP");
   (202, "EXIT RETURN");
   (203, "EXIT SELFDESTRUCT");
   (204, "EXIT REVERT");
   (300, "RETURN");
   (301, "CANCEL")]%Z.

Fixpoint event_type_get (d : list (Z * string)) (key : Z) : option string :=
  match d with
  | [] => None
  | (k, v) :: rest => if (k =? key)%Z then Some v else event_type_get rest key
  end.

(** [_decode_event_type]: a [bool] is looked up as the number 1 or 0, a
    [list] or a [dict] cannot be a key. *)
Definition _decode_event_type (event_type : Json) : result Json :=
  let get (key : Z) : Json :=
    match event_type_get event_type_dict key with
    | Some value => JStr value
    | None => event_type
    end in
  match event_type with
  | JInt n => Ok (get n)
  | JBool b => Ok (get (if b then 1 else 0)%Z)
  | JNone | JStr _ => Ok event_type
  | JList _ | JDict _ => Raise TypeError
  end.

(** One round of the loop over the items of a log record. *)
Definition filter_item (full : bool) (new_log_rec : Dict) (key : string)
    (value : Json) : result Dict :=
  rbind (if key =? "data"
         then rbind (len value) (fun n => Ok (n =? 0)%nat)
         else Ok false) (fun empty_data =>
  if empty_data then Ok (dict_set new_log_rec key (JStr "0x"))
  else if full && (key =? "neonEventType") then
    rbind (_decode_event_type value) (fun decoded =>
    Ok (dict_set new_log_rec key decoded))
  else if full || negb (str_take 4 key =? "neon") then
    Ok (dict_set new_log_rec key value)
  else Ok new_log_rec).

Fixpoint filter_items (full : bool) (items : Dict) (new_log_rec : Dict)
  : result Dict :=
  match items with
  | [] => Ok new_log_rec
  | (key, value) :: rest =>
      rbind (filter_item full new_log_rec key value) (filter_items full rest)
  end.

Fixpoint _filter_log_list (log_list : list Dict) (full : bool)
  : result (list Dict) :=
  match log_list with
  | [] => Ok []
  | log_rec :: rest =>
      if negb full
         && truthy (dict_get_default log_rec "neonIsHidden" (JBool false))
      then _filter_log_list rest full
      else
        rbind (filter_items full log_rec [("removed", JBool false)])
          (fun new_log_rec =>
        rbind (_filter_log_list rest full) (fun filtered_log_list =>
        Ok (new_log_rec :: filtered_log_list)))
  end.

(** *** The methods a client may call *)

Definition NEON_PROXY_PKG_VERSION : string := "0.15.0-dev".

Definition NEON_PROXY_REVISION : string :=
  "NEON_PROXY_REVISION_TO_BE_REPLACED".

Definition neon_proxyVersion : string :=
  "Neon-proxy/v" ++ NEON_PROXY_PKG_VERSION ++ "-" ++ NEON_PROXY_REVISION.

Definition api_prefixes : list string := ["eth_"; "net_"; "web3_"; "neon_"].

Definition always_allowed_method_set : list string :=
  ["eth_chainId"; "neon_cliVersion"; "neon_evmVersion"; "neon_solanaVersion";
   "neon_versions"; "neon_getEvmParams"; "net_version"; "web3_clientVersion"].

Definition private_method_set : list string :=
  ["eth_accounts"; "eth_sign"; "eth_sendTransaction"; "eth_signTransaction"].

(** [name in set] *)
Definition in_set (name : string) (set : list string) : bool :=
  existsb (String.eqb name) set.

(** [prefix + v] for a value that is a [str] or [None]. *)
Definition str_add_opt (prefix : string) (v : option string) : result string :=
  match v with
  | Some s => Ok (prefix ++ s)
  | None => Raise TypeError
  end.

Section AllowedApi.

(** The state of the [ElfParams] singleton and the dictionary of
    parameters the mempool hands out, with the methods of [ElfParams] the
    worker calls; the two switches of the configuration; the mempool
    client. *)
Context {ElfParams ElfParamDict : Type}.
Variable set_elf_param_dict :
  ElfParams -> ElfParamDict -> result unit * ElfParams.
Variable has_params : ElfParams -> result bool.
Variable is_evm_compatible : ElfParams -> string -> result bool.
Variable neon_evm_version : ElfParams -> result (option string).
Variable neon_evm_revision : ElfParams -> result (option string).
Variable enable_send_tx_api : bool.
Variable enable_private_api : bool.
Variable get_elf_param_dict : string -> result (option ElfParamDict).
Variable get_req_id_from_log : string.

Definition neon_evmVersion (elf_params : ElfParams) : result string :=
  rbind (neon_evm_version elf_params) (fun version =>
  rbind (str_add_opt "Neon/v" version) (fun text =>
  let text := text ++ "-" in
  rbind (neon_evm_revision elf_params) (fun revision =>
  str_add_opt text revision))).

Definition web3_clientVersion (elf_params : ElfParams) : result string :=
  neon_evmVersion elf_params.

(** [is_allowed_api] at the time [now] (in seconds, rounded up): the
    outcome and the state of [ElfParams] after the call. *)
Definition is_allowed_api (_last_elf_params_time now : Z)
    (elf_params : ElfParams) (method_name : string)
  : result bool * ElfParams :=
  if negb (existsb (str_startswith method_name) api_prefixes)
  then (Ok false, elf_params)
  else if method_name =? "neon_proxyVersion" then (Ok true, elf_params)
  else
    let '(refreshed, elf_params) :=
      if negb (_last_elf_params_time =? now)%Z then
        match get_elf_param_dict get_req_id_from_log with
        | Raise e => (Raise e, elf_params)
        | Ok None =>
            (Raise (EthereumError
                      ("Failed to read Neon EVM params from Solana cluster."
                       ++ " Try again later")),
             elf_params)
        | Ok (Some elf_param_dict) =>
            set_elf_param_dict elf_params elf_param_dict
        end
      else (Ok tt, elf_params) in
    (rbind refreshed (fun _ =>
     rbind (if in_set method_name always_allowed_method_set
            then has_params elf_params
            else Ok false) (fun allowed_with_params =>
     if allowed_with_params then Ok true
     else
       rbind (is_evm_compatible elf_params NEON_PROXY_PKG_VERSION)
         (fun compatible =>
       if negb compatible then
         rbind (web3_clientVersion elf_params) (fun evm_version =>
         Raise (EthereumError
                  ("Neon Proxy " ++ neon_proxyVersion
                   ++ " is not compatible with Neon EVM " ++ evm_version)))
       else if method_name =? "eth_sendRawTransaction"
       then Ok enable_send_tx_api
       else if in_set method_name private_method_set
               && (negb enable_send_tx_api || negb enable_private_api)
       then Ok false
       else Ok true))),
     elf_params).

End AllowedApi.

End NeonRpcApiWorker.

(** ** Concrete instances

    Small closed instances of the interfaces above, on which the statements
    below are evaluated. *)

Module BuilderExample.
Import Py NeonInstruction.

(** A transaction is given by its RLP encoding. *)
Definition rlp_encode (tx : bytes) : bytes := tx.

Definition tx_sig : string :=
  "0x0102030405060708090a0b0c0d0e0f101112131415161718191a1b1c1d1e1f20"%string.

Definition sig_bytes : bytes :=
  [x01; x02; x03; x04; x05; x06; x07; x08; x09; x0a; x0b; x0c; x0d; x0e; x0f;
   x10; x11; x12; x13; x14; x15; x16; x17; x18; x19; x1a; x1b; x1c; x1d; x1e;
   x1f; x20].

Definition hex_tx_sig (tx : bytes) : string := tx_sig.

(** A stand-in for the derivation of program addresses: the seeds followed
    by the program id, with bump 255. *)
Definition find_program_address (seeds : list bytes) (program : SolPubKey)
  : SolPubKey * Z :=
  (List.concat seeds ++ program, 255).

Definition neon_2program (program : SolPubKey) (ether : bytes)
  : SolPubKey * Z :=
  (ether ++ program, 255).

Definition treasury_pool_max : Z := 128.

Definition evm_program_id : SolPubKey := repeat x0e 32.
Definition operator : SolPubKey := repeat x0a 32.
Definition holder : SolPubKey := repeat x0b 32.
Definition sys_program_id : SolPubKey := repeat x00 32.
Definition neon_tx : bytes := [xf8; x01; x02].

Definition incinerator_id : SolPubKey := repeat x1c 32.
Definition lookup_table_id : SolPubKey := repeat x1a 32.

Definition fresh : NeonIxBuilder bytes := init evm_program_id operator.

(** A builder that was given a signature and no transaction. *)
Definition signed_only : NeonIxBuilder bytes :=
  snd (init_neon_tx_sig find_program_address treasury_pool_max
         (init_operator_neon neon_2program fresh (repeat x0c 20)) tx_sig).

(** The names of the instruction codes. *)
Definition code_name (c : EvmIxCode) : string :=
  match c with
  | Unknown => "Unknown"
  | CollectTreasure => "CollectTreasure"
  | TxExecFromData => "TxExecFromData"
  | TxExecFromAccount => "TxExecFromAccount"
  | TxStepFromData => "TxStepFromData"
  | TxStepFromAccount => "TxStepFromAccount"
  | TxStepFromAccountNoChainId => "TxStepFromAccountNoChainId"
  | CancelWithHash => "CancelWithHash"
  | HolderCreate => "HolderCreate"
  | HolderDelete => "HolderDelete"
  | HolderWrite => "HolderWrite"
  | DepositV03 => "DepositV03"
  | CreateAccountV03 => "CreateAccountV03"
  end%string.

Definition ready : NeonIxBuilder bytes :=
  init_iterative
    (snd (init_neon_tx rlp_encode hex_tx_sig find_program_address
            treasury_pool_max
            (init_operator_neon neon_2program fresh (repeat x0c 20))
            neon_tx))
    holder.

(** A builder that was given a signature and a holder, and no
    transaction. *)
Definition signed_iterative : NeonIxBuilder bytes :=
  init_iterative signed_only holder.

End BuilderExample.

Module IndexerExample.

(** A Chain whose finalized slot is 900 and whose first available block
    is 10. *)
Definition get_block_slot (commitment : SolCommit) : result Z :=
  match commitment with
  | Finalized => Ok 900
  | _ => Ok 905
  end.

Definition get_first_available_block : result Z := Ok 10.

(** A configured value of 4301 digits, one more than [int()] reads. *)
Fixpoint nines (n : nat) : string :=
  match n with
  | O => EmptyString
  | S n => String "9" (nines n)
  end.

Definition long_start_slot : string := nines 4301.

End IndexerExample.

Module LadderExample.
Import NeonTxSender.

(** A world that counts the answers of the Chain to [get_state_tx_cnt];
    all strategies behave alike, as the script says. *)
Record Script : Type := mkScript {
  counts : nat -> result Z;
  changes : bool;
  executes : result unit;
  completes : bool;
  cancels : result unit
}.

Definition scripted (p : Script) : Outside unit unit :=
  {| World := nat;
     get_state_tx_cnt := fun _ k => (counts p k, S k);
     call_tx_emulated := fun _ k => (Ok tt, k);
     strategy_new := fun _ s => (Ok tt, s);
     validate := fun _ s => (Ok true, s);
     complete_init := fun _ s => (Ok tt, s);
     prep_before_emulate := fun _ s => (Ok (changes p), s);
     update_after_emulate := fun _ s => (Ok tt, s);
     strategy_execute := fun _ s => (executes p, s);
     has_completed_receipt := fun _ s => (Ok (completes p), s);
     cancel := fun _ s => (cancels p, s) |}.

(** A transaction of nonce 3, not started yet. *)
Definition fresh_ctx (retries : Z) : NeonTxSendCtx unit :=
  {| strategy_idx := 0;
     state_tx_cnt := 0;
     completed_receipt := false;
     emulated_result := None;
     neon_tx_info_addr := "0xabc";
     neon_tx_info_nonce := 3;
     stuck_tx := false;
     retry_on_fail := retries |}.

(** The context once the nonce check has passed, after one answer of the
    Chain. *)
Definition checked (retries : Z) : NeonTxSendCtx unit * nat :=
  (set_state_tx_cnt (fresh_ctx retries) 3, 1%nat).

(** A world in which every strategy declines the transaction, and one in
    which [execute()] fails with an error of the given name. *)
Definition declining : Outside unit unit :=
  {| World := nat;
     get_state_tx_cnt := fun _ k => (Ok 3, S k);
     call_tx_emulated := fun _ k => (Ok tt, k);
     strategy_new := fun _ s => (Ok tt, s);
     validate := fun _ s => (Ok false, s);
     complete_init := fun _ s => (Ok tt, s);
     prep_before_emulate := fun _ s => (Ok false, s);
     update_after_emulate := fun _ s => (Ok tt, s);
     strategy_execute := fun _ s => (Ok tt, s);
     has_completed_receipt := fun _ s => (Ok false, s);
     cancel := fun _ s => (Ok tt, s) |}.

(** [execute()] fails for a reason of the Chain, before any receipt. *)
Definition failing_execute : Script :=
  {| counts := fun _ => Ok 3;
     changes := false;
     executes := Raise (OtherException "SolTxError");
     completes := false;
     cancels := Raise (OtherException "cancel failed") |}.

(** [execute()] asks for a reschedule. *)
Definition rescheduled : Script :=
  {| counts := fun _ => Ok 3;
     changes := false;
     executes := Raise RescheduleError;
     completes := false;
     cancels := Ok tt |}.

(** The first strategy executes the transaction, which moves the count
    of the sender to 4. *)
Definition succeeding : Script :=
  {| counts := fun k => if (k <? 2)%nat then Ok 3 else Ok 4;
     changes := false;
     executes := Ok tt;
     completes := true;
     cancels := Ok tt |}.

(** [execute()] raises [WrongStrategyError] once the receipt is complete,
    and [cancel()] asks for a reschedule. *)
Definition late_wrong_strategy : Script :=
  {| counts := fun _ => Ok 3;
     changes := false;
     executes := Raise WrongStrategyError;
     completes := true;
     cancels := Raise RescheduleError |}.

(** [execute()] raises [WrongStrategyError] before any receipt, and the
    third answer of the Chain is a failure. *)
Definition early_wrong_strategy_rpc_down : Script :=
  {| counts := fun k => if (k <? 2)%nat then Ok 3
                        else Raise (OtherException "rpc");
     changes := false;
     executes := Raise WrongStrategyError;
     completes := false;
     cancels := Ok tt |}.

(** [execute()] raises [WrongStrategyError] before any receipt, on every
    strategy. *)
Definition early_wrong_strategy : Script :=
  {| counts := fun _ => Ok 3;
     changes := false;
     executes := Raise WrongStrategyError;
     completes := false;
     cancels := Ok tt |}.

(** Every preparation changes something, and the sender's count moves from
    3 to 5 after the first answer. *)
Definition always_changing_nonce_moves : Script :=
  {| counts := fun k => if (k =? 0)%nat then Ok 3 else Ok 5;
     changes := true;
     executes := Ok tt;
     completes := false;
     cancels := Ok tt |}.

(** Every preparation changes something. *)
Definition always_changing : Script :=
  {| counts := fun _ => Ok 3;
     changes := true;
     executes := Ok tt;
     completes := false;
     cancels := Ok tt |}.

(** The sender's count is already 5. *)
Definition nonce_behind : Script :=
  {| counts := fun _ => Ok 5;
     changes := false;
     executes := Ok tt;
     completes := true;
     cancels := Ok tt |}.

End LadderExample.

Module WorkerExample.

(** A mempool that knows a pending nonce of 9 and fails on the other
    query, and a Chain on which the sender's count is 7, 6 or 5 by
    commitment. *)
Definition get_pending_tx_nonce (req_id sender : string)
  : result (option Z) := Ok (Some 9).

Definition get_mempool_tx_nonce (req_id sender : string)
  : result (option Z) := Raise (OtherException "mempool").

Definition get_state_tx_cnt (sender : string) (commitment : SolCommit)
  : result Z :=
  match commitment with
  | Processed => Ok 7
  | Confirmed => Ok 6
  | Finalized => Ok 5
  end.

Definition req_id : string := "req-1".

Definition account : string := "0x52908400098527886e0f7030069857d2e4169ee7".

Definition checksum_account : string :=
  "0x52908400098527886E0F7030069857D2E4169EE7".

(** A transaction id as a client may send it, and its normal form. *)
Definition raw_tx_id : string :=
  "  0X88DF016429689C079F3B2F6AD39FA052532C56795B733DA78A91EBE6A713944B ".

Definition tx_id : string :=
  "0x88df016429689c079f3b2f6ad39fa052532c56795b733da78a91ebe6a713944b".

(** A topic with white space between two bytes, and its normal form. *)
Definition raw_topic : string :=
  " 0xDDF252AD 1be2c89b69c2b068fc378daa952ba7f163c4a11628f55a4df523b3ef".

Definition topic : string :=
  "0xddf252ad1be2c89b69c2b068fc378daa952ba7f163c4a11628f55a4df523b3ef".

(** The text [hello world] in hexadecimal digits, and its Keccak-256
    hash. *)
Definition hello_world : string := "0x68656c6c6f20776f726c64".

Definition hello_world_hash : string :=
  "0x47173285a8d7341e5e972fc677286384f802f8ef42a5ec5f03bbfa254cb01fad".

Import Py NeonRpcApiWorker.
Local Open Scope string_scope.

(** A Chain on which the account has 255 at the confirmed commitment and
    nothing yet at the processed one, and cannot be read at the finalized
    one; a gas tank with a permit for every address. *)
Definition get_neon_account_info (address : string) (commitment : SolCommit)
  : result (option NeonAccountInfo) :=
  match commitment with
  | Processed => Ok (Some {| balance := 0; nonce := 2 |})
  | Confirmed => Ok (Some {| balance := 255; nonce := 7 |})
  | _ => Raise (OtherException "SolanaError")
  end.

Definition has_gas_less_tx_permit (address : string) : result bool := Ok true.

Definition gas_less_tx_max_nonce : Z := 5.

Definition gas_less_tx_max_gas : Z := 1000000.

(** A worker that knows no gas price, and four calls: the mempool has no
    price, then the price 100, then no price again, then it fails. *)
Definition no_gas_price : GasPriceFields :=
  {| _gas_price_value := None; _last_gas_price_time := 0 |}.

Definition price_100 : MPGasPriceResult :=
  {| suggested_gas_price := 100;
     min_gas_price := 90;
     last_update_mapping_sec := 1700000001;
     sol_price_account := [];
     neon_price_account := [] |}.

Definition gas_price_calls
  : list (Z * (string -> result (option MPGasPriceResult))) :=
  [(1700000000, fun _ => Ok None);
   (1700000001, fun _ => Ok (Some price_100));
   (1700000002, fun _ => Ok None);
   (1700000003, fun _ => Raise (OtherException "MempoolError"))].

(** An emulator that asks twice to come back later and then answers. *)
Definition call_emulated (calls : nat) (contract_id caller_id data value : Json)
  : result Json :=
  if (calls <? 2)%nat then Raise RescheduleError
  else Ok (JDict [("exit_status", JStr "succeed"); ("result", JStr "2a")]).

Definition check_emulated_exit_status (emulator_json : Json) : result unit :=
  Ok tt.

Definition call_object : Dict :=
  [("to", JStr "0x52908400098527886E0F7030069857D2E4169EE7");
   ("data", JStr "0x70a08231")].

(** Two records of the database, the second one hidden, and the standard
    view of the first. *)
Definition log_list : list Dict :=
  [[("address", JStr "0x52908400098527886e0f7030069857d2e4169ee7");
    ("data", JStr "");
    ("logIndex", JStr "0x0");
    ("neonEventType", JInt 1);
    ("neonIsHidden", JBool false);
    ("neonSolHash", JStr "5Vk1")];
   [("address", JStr "0x52908400098527886e0f7030069857d2e4169ee7");
    ("data", JStr "0x01");
    ("neonEventType", JInt 101);
    ("neonIsHidden", JBool true)]].

Definition standard_log_list : list Dict :=
  [[("removed", JBool false);
    ("address", JStr "0x52908400098527886e0f7030069857d2e4169ee7");
    ("data", JStr "0x");
    ("logIndex", JStr "0x0")]].

(** [ElfParams] reduced to whether it has parameters, compatible with the
    proxy whenever it has; a mempool that hands the parameters out; both
    switches on. *)
Definition set_elf_param_dict (elf_params : bool) (elf_param_dict : unit)
  : result unit * bool :=
  (Ok tt, true).

Definition has_params (elf_params : bool) : result bool := Ok elf_params.

Definition is_evm_compatible (elf_params : bool) (version : string)
  : result bool :=
  Ok elf_params.

Definition neon_evm_version (elf_params : bool) : result (option string) :=
  Ok (if elf_params then Some "1.0.0" else None).

Definition neon_evm_revision (elf_params : bool) : result (option string) :=
  Ok (if elf_params then Some "0a1b2c3" else None).

Definition get_elf_param_dict (req_id : string) : result (option unit) :=
  Ok (Some tt).

(** A database that keeps the blocks of the slots 0 to 905, the block of
    slot 5 under the hash [block_hash]: a block is given by its slot, and
    the empty block by [None]. *)
Definition block_hash : string :=
  "0x00000000000000000000000000000000000000000000000000000000000000f5".

Definition is_empty (block : option Z) : result bool :=
  Ok match block with Some _ => false | None => true end.

Definition get_block_by_hash (hash : string) : result (option Z) :=
  Ok (if hash =? block_hash then Some 5%Z else None).

Definition get_block_by_slot (slot : Json) : result (option Z) :=
  match slot with
  | JInt n => Ok (if ((0 <=? n) && (n <=? 905))%Z then Some n else None)
  | _ => Raise TypeError
  end.

(** The text Python prints for a [list] or a [dict] of numbers within the
    limit and of texts without quotes or escapes in them. *)
Fixpoint show (v : Json) : string :=
  match v with
  | JNone => "None"
  | JBool true => "True"
  | JBool false => "False"
  | JInt n => str_of_int n
  | JStr s => "'" ++ s ++ "'"
  | JList items =>
      "[" ++ (fix go (l : list Json) : string :=
                match l with
                | [] => ""
                | x :: r =>
                    show x ++ match r with [] => "" | _ => ", " ++ go r end
                end) items ++ "]"
  | JDict fields =>
      "{" ++ (fix go (l : list (string * Json)) : string :=
                match l with
                | [] => ""
                | (k, x) :: r =>
                    "'" ++ k ++ "': " ++ show x
                    ++ match r with [] => "" | _ => ", " ++ go r end
                end) fields ++ "}"
  end.

Definition repr (v : Json) : result string := Ok (show v).

(** The block object of slot 5, by number and by hash. *)
Definition block_5 : Tag := TagDict [("blockNumber", JInt 5)].

Definition block_f5 : Tag := TagDict [("blockHash", JStr block_hash)].

(** A number of 4301 digits. *)
Definition huge : Z := 10 ^ 4300.

(** A Chain client that is interrupted while it waits for the answer. *)
Definition interrupted_state_tx_cnt (sender : string) (commitment : SolCommit)
  : result Z :=
  Raise (NotException "KeyboardInterrupt").

Definition interrupted_account_info (address : string) (commitment : SolCommit)
  : result (option NeonAccountInfo) :=
  Raise (NotException "KeyboardInterrupt").

End WorkerExample.

(** * The models on known values *)

Section KnownValues.
Import Py.
Local Open Scope string_scope.

Example int_from_bytes_513 : int_from_bytes_little [x01; x02] = 513.
Proof. reflexivity. Qed.

Example int_to_bytes_300 : int_to_bytes_little 300 2 = Ok [x2c; x01].
Proof. reflexivity. Qed.

Example int_to_bytes_too_big : int_to_bytes_little 256 1 = Raise OverflowError.
Proof. reflexivity. Qed.

Example int_to_bytes_negative :
  int_to_bytes_little (-1) 4 = Raise OverflowError.
Proof. reflexivity. Qed.

Example bytes_fromhex_spaced :
  bytes_fromhex "0a ff10" = Some [x0a; xff; x10].
Proof. reflexivity. Qed.

Example bytes_fromhex_split_byte : bytes_fromhex "0a f f10" = None.
Proof. reflexivity. Qed.

Example bytes_fromhex_odd : bytes_fromhex "abc" = None.
Proof. reflexivity. Qed.

Example str_strip_lower : str_lower (str_strip "  0XAb C  ") = "0xab c".
Proof. reflexivity. Qed.

Example hex_255 : hex 255 = "0xff".
Proof. reflexivity. Qed.

Example hex_0 : hex 0 = "0x0".
Proof. reflexivity. Qed.

Example hex_negative : hex (-4096) = "-0x1000".
Proof. reflexivity. Qed.

Example int_of_str_signed : int_of_str 10 "  -12_3 " = Some (-123).
Proof. reflexivity. Qed.

Example int_of_str_doubled_underscore : int_of_str 10 "12__3" = None.
Proof. reflexivity. Qed.

Example int_of_str_prefixed : int_of_str 16 "0x_1F" = Some 31.
Proof. reflexivity. Qed.

Example int_of_str_empty : int_of_str 16 "" = None.
Proof. reflexivity. Qed.

(** Keccak-256 of the empty text and of ["abc"]. *)
Example keccak256_empty :
  Some (Keccak.keccak256 [])
  = bytes_fromhex
      "c5d2460186f7233c927e7db2dcc703c0e500b653ca82273b7bfad8045d85a470".
Proof. vm_compute. reflexivity. Qed.

Example keccak256_abc :
  Some (Keccak.keccak256 (list_byte_of_string "abc"))
  = bytes_fromhex
      "4e03657aea45a94fc7d47ba826c8d667c0d1e6e33a64a036ec44f58fa12d6c45".
Proof. vm_compute. reflexivity. Qed.

(** The test addresses of EIP-55. *)
Example checksum_mixed :
  EthUtils.to_checksum_address "5aaeb6053f3e94c9b9a09f33669435e7ef1beaed"
  = Ok "0x5aAeb6053F3E94C9b9A09f33669435E7Ef1BeAed".
Proof. vm_compute. reflexivity. Qed.

Example checksum_upper :
  EthUtils.to_checksum_address "0x8617E340B3D01FA5F11F306F4090FD50E238070D"
  = Ok "0x8617E340B3D01FA5F11F306F4090FD50E238070D".
Proof. vm_compute. reflexivity. Qed.

Example checksum_lower :
  EthUtils.to_checksum_address "0xde709f2102306220921060314715629080e2fb77"
  = Ok "0xde709f2102306220921060314715629080e2fb77".
Proof. vm_compute. reflexivity. Qed.

Example checksum_not_an_address :
  EthUtils.to_checksum_address "0xde709f21" = Raise ValueError.
Proof. vm_compute. reflexivity. Qed.

End KnownValues.

(** * Facts about the Python built-ins *)

Section PyFacts.
Import Py.

Lemma byte_to_Z_range (b : byte) : 0 <= byte_to_Z b < 256.
Proof.
  unfold byte_to_Z. pose proof (Byte.to_N_bounded b). lia.
Qed.

Lemma byte_to_of_Z (z : Z) : 0 <= z < 256 -> byte_to_Z (byte_of_Z z) = z.
Proof.
  intros Hz. unfold byte_to_Z, byte_of_Z.
  destruct (Byte.of_N (Z.to_N z)) as [b|] eqn:E.
  - apply Byte.to_of_N in E. rewrite E. lia.
  - apply Byte.of_N_None_iff in E. lia.
Qed.

Lemma byte_of_to_Z (b : byte) : byte_of_Z (byte_to_Z b) = b.
Proof.
  unfold byte_to_Z, byte_of_Z. rewrite N2Z.id, Byte.of_to_N. reflexivity.
Qed.

Lemma little_digits_length (k : nat) (n : Z) :
  List.length (little_digits k n) = k.
Proof.
  revert n. induction k as [|k IH]; intros n; simpl; [reflexivity|].
  now rewrite IH.
Qed.

Lemma int_from_bytes_little_range (bs : bytes) :
  0 <= int_from_bytes_little bs < 256 ^ Z.of_nat (List.length bs).
Proof.
  induction bs as [|b bs IH].
  - simpl. lia.
  - cbn [int_from_bytes_little List.length].
    rewrite Nat2Z.inj_succ, Z.pow_succ_r by lia.
    pose proof (byte_to_Z_range b). lia.
Qed.

Lemma int_from_little_digits (k : nat) (n : Z) :
  0 <= n -> int_from_bytes_little (little_digits k n) = n mod 256 ^ Z.of_nat k.
Proof.
  revert n. induction k as [|k IH]; intros n Hn.
  - simpl. now rewrite Z.mod_1_r.
  - cbn [little_digits int_from_bytes_little].
    rewrite byte_to_of_Z by (apply Z.mod_pos_bound; lia).
    rewrite IH by (apply Z.div_pos; lia).
    rewrite Nat2Z.inj_succ, Z.pow_succ_r by lia.
    rewrite Z.rem_mul_r by lia. lia.
Qed.

Lemma little_digits_from_bytes (bs : bytes) :
  little_digits (List.length bs) (int_from_bytes_little bs) = bs.
Proof.
  induction bs as [|b bs IH]; [reflexivity|].
  cbn [List.length little_digits int_from_bytes_little].
  pose proof (byte_to_Z_range b) as Hb.
  replace ((byte_to_Z b + 256 * int_from_bytes_little bs) mod 256)
    with (byte_to_Z b).
  2:{ rewrite (Z.mul_comm 256), Z.mod_add by lia.
      now rewrite Z.mod_small. }
  replace ((byte_to_Z b + 256 * int_from_bytes_little bs) / 256)
    with (int_from_bytes_little bs).
  2:{ rewrite (Z.mul_comm 256), Z.div_add by lia.
      rewrite Z.div_small by lia. lia. }
  now rewrite byte_of_to_Z, IH.
Qed.

(** [to_bytes] returns exactly on the unsigned range of the width. *)
Lemma int_to_bytes_little_ok (n : Z) (k : nat) :
  0 <= n < 256 ^ Z.of_nat k ->
  int_to_bytes_little n k = Ok (little_digits k n).
Proof.
  intros [H0 H1]. unfold int_to_bytes_little.
  destruct (Z.ltb_spec n 0); [lia|].
  destruct (Z.leb_spec (256 ^ Z.of_nat k) n); [lia|reflexivity].
Qed.

Lemma int_to_bytes_little_inv (n : Z) (k : nat) (bs : bytes) :
  int_to_bytes_little n k = Ok bs ->
  0 <= n < 256 ^ Z.of_nat k /\ bs = little_digits k n.
Proof.
  unfold int_to_bytes_little.
  destruct (Z.ltb_spec n 0); [discriminate|].
  destruct (Z.leb_spec (256 ^ Z.of_nat k) n); [discriminate|].
  intros [= <-]. split; [lia|reflexivity].
Qed.

Lemma int_to_bytes_little_overflow (n : Z) (k : nat) :
  n < 0 \/ 256 ^ Z.of_nat k <= n ->
  int_to_bytes_little n k = Raise OverflowError.
Proof.
  intros H. unfold int_to_bytes_little.
  destruct (Z.ltb_spec n 0); [reflexivity|].
  destruct (Z.leb_spec (256 ^ Z.of_nat k) n); [reflexivity|lia].
Qed.

End PyFacts.

(** * The layouts of the specification against the built-ins *)

Section LayoutFacts.
Import Py Layout.

Lemma le_bytes_succ (k : nat) (n : Z) :
  0 <= n ->
  le_bytes (S k) n = byte_of_Z (n mod 256) :: le_bytes k (n / 256).
Proof.
  intros Hn. unfold le_bytes. cbn [seq map].
  rewrite Z.pow_0_r, Z.div_1_r. f_equal.
  rewrite <- seq_shift, map_map. apply map_ext. intros i.
  rewrite Nat2Z.inj_succ, Z.pow_succ_r by lia.
  rewrite Z.div_div by lia. reflexivity.
Qed.

Lemma little_digits_le_bytes (k : nat) (n : Z) :
  0 <= n -> little_digits k n = le_bytes k n.
Proof.
  revert n. induction k as [|k IH]; intros n Hn; [reflexivity|].
  rewrite le_bytes_succ by assumption. cbn [little_digits].
  rewrite IH by (apply Z.div_pos; lia). reflexivity.
Qed.

Lemma u32_le_read_firstn (buf : bytes) :
  int_from_bytes_little (firstn 4 buf) = u32_le_read buf.
Proof.
  unfold u32_le_read.
  destruct buf as [|b0 [|b1 [|b2 [|b3 rest]]]];
    cbn [firstn int_from_bytes_little nth];
    change (byte_to_Z x00) with 0; lia.
Qed.

Lemma u32_le_read_range (buf : bytes) : 0 <= u32_le_read buf < 2 ^ 32.
Proof.
  rewrite <- u32_le_read_firstn.
  pose proof (int_from_bytes_little_range (firstn 4 buf)) as H.
  assert (Z.of_nat (List.length (firstn 4 buf)) <= 4)
    by (rewrite length_firstn; lia).
  assert (256 ^ Z.of_nat (List.length (firstn 4 buf)) <= 256 ^ 4)
    by (apply Z.pow_le_mono_r; lia).
  change (2 ^ 32) with (256 ^ 4). lia.
Qed.

End LayoutFacts.

Section HexFacts.
Import Py.

(** ** [hex] and [int(s, 16)] *)

Lemma hex_char_digit (d : N) :
  (d < 16)%N ->
  digit_value 16 (hex_char d) = Some d
  /\ (ascii_code (hex_char d) =? 95)%N = false.
Proof.
  intros Hd.
  assert (H : exists n, d = N.of_nat n /\ (n < 16)%nat)
    by (exists (N.to_nat d); split; [now rewrite N2Nat.id | lia]).
  destruct H as (n & -> & Hn).
  do 16 (destruct n as [|n]; [split; reflexivity|]). lia.
Qed.

Lemma reads_empty : reads EmptyString 0 0.
Proof. intros a. cbn. f_equal. f_equal. lia. Qed.

Lemma reads_cons (d : N) (s : string) (k : nat) (v : N) :
  (d < 16)%N -> reads s k v ->
  reads (String (hex_char d) s) (S k) (d * 16 ^ N.of_nat k + v).
Proof.
  intros Hd Hs a. destruct (hex_char_digit d Hd) as [Hv Hu].
  cbn [scan_digits]. rewrite Hu, Hv, Hs. f_equal. f_equal.
  rewrite Nat2N.inj_succ, N.pow_succ_r'. ring.
Qed.

Lemma hex_digits_reads (fuel : nat) (m : N) (acc : string) (k : nat) (v : N) :
  (m < 16 ^ N.of_nat fuel)%N -> reads acc k v ->
  exists k', reads (hex_digits fuel m acc) k' (m * 16 ^ N.of_nat k + v).
Proof.
  revert m acc k v. induction fuel as [|fuel IH]; intros m acc k v Hm Hacc.
  - cbn in Hm. assert (m = 0%N) by lia. subst m. exists k. exact Hacc.
  - cbn [hex_digits].
    assert (Hd : (m mod 16 < 16)%N) by (apply N.mod_lt; discriminate).
    pose proof (reads_cons _ _ _ _ Hd Hacc) as Hacc'.
    pose proof (N.div_mod m 16 ltac:(discriminate)) as Hdm.
    destruct (N.eqb_spec (m / 16) 0) as [Hz|Hz].
    + exists (S k). replace (m * 16 ^ N.of_nat k + v)%N
        with (m mod 16 * 16 ^ N.of_nat k + v)%N; [exact Hacc'|].
      rewrite Hz in Hdm. f_equal. f_equal. lia.
    + destruct (IH (m / 16)%N _ _ _ ltac:(
          rewrite Nat2N.inj_succ, N.pow_succ_r' in Hm;
          apply N.Div0.div_lt_upper_bound; exact Hm) Hacc') as (k' & Hk').
      exists k'.
      replace (m * 16 ^ N.of_nat k + v)%N
        with (m / 16 * 16 ^ N.of_nat (S k)
              + (m mod 16 * 16 ^ N.of_nat k + v))%N; [exact Hk'|].
      rewrite Nat2N.inj_succ, N.pow_succ_r'.
      rewrite Hdm at 3. ring.
Qed.

Lemma hex_digits_head (fuel : nat) (m : N) (acc : string) :
  exists d rest,
    (d < 16)%N /\ hex_digits (S fuel) m acc = String (hex_char d) rest.
Proof.
  revert m acc. induction fuel as [|fuel IH]; intros m acc.
  - exists (m mod 16)%N, acc. split; [apply N.mod_lt; discriminate|].
    cbn. now destruct (m / 16 =? 0)%N.
  - cbn [hex_digits]. destruct (m / 16 =? 0)%N.
    + exists (m mod 16)%N, acc. split; [apply N.mod_lt; discriminate|].
      reflexivity.
    + apply IH.
Qed.

(** The text of a natural number reads back as that number. *)
Lemma int_of_hex (n : Z) : 0 <= n -> int_of_str 16 (hex n) = Some n.
Proof.
  intros Hn. unfold hex.
  destruct (Z.ltb_spec n 0) as [|_]; [lia|].
  rewrite Z.abs_eq by assumption.
  set (m := Z.to_N n). set (fuel := N.to_nat (N.log2 m)).
  assert (Hm : (m < 16 ^ N.of_nat (S fuel))%N).
  { subst fuel. rewrite Nat2N.inj_succ, N2Nat.id.
    destruct (N.eq_dec m 0) as [->|Hz]; [reflexivity|].
    pose proof (N.log2_spec m ltac:(lia)) as [_ Hlt].
    eapply N.lt_le_trans; [exact Hlt|].
    apply N.pow_le_mono_l. lia. }
  destruct (hex_digits_reads (S fuel) m EmptyString 0 0 Hm reads_empty)
    as (k' & Hreads).
  destruct (hex_digits_head fuel m EmptyString) as (d & rest & Hd & Hhead).
  destruct (hex_char_digit d Hd) as [Hv Hu].
  unfold int_of_str. cbn [append skip_int_space].
  change (int_isspace "0") with false. cbn iota.
  change (ascii_code "x" =? 120)%N with true.
  change (16 =? 16)%N with true. cbn [andb orb].
  rewrite Hhead.
  assert (Hnot : match String (hex_char d) rest with
                 | String "_" r' => r'
                 | _ => String (hex_char d) rest
                 end = String (hex_char d) rest).
  { assert (H : hex_char d <> "_"%char).
    { intros E. rewrite E in Hu. discriminate Hu. }
    destruct (hex_char d) as [[] [] [] [] [] [] [] []];
      try reflexivity; congruence. }
  rewrite Hnot. unfold starts_with_digit. rewrite Hv.
  change (too_many_digits 16 (String (hex_char d) rest)) with false.
  cbn iota.
  rewrite <- Hhead, Hreads. cbn [skip_int_space].
  f_equal. subst m. rewrite N.mul_0_l, !N.add_0_l, N.mul_1_r.
  cbn. lia.
Qed.

End HexFacts.

(** * The instruction builder *)

Section BuilderFacts.
Import Py Layout NeonInstruction.

Context {NeonTx NeonAddress : Type}.
Variable rlp_encode : NeonTx -> bytes.
Variable hex_tx_sig : NeonTx -> string.
Variable find_program_address : list bytes -> SolPubKey -> SolPubKey * Z.
Variable treasury_pool_max : Z.
Variable SYS_PROGRAM_ID : SolPubKey.
Variable neon_2program : SolPubKey -> NeonAddress -> SolPubKey * Z.

Local Abbreviation builder := (NeonIxBuilder NeonTx).
Local Abbreviation init_sig := (init_neon_tx_sig find_program_address treasury_pool_max).
Local Abbreviation init_tx :=
  (init_neon_tx rlp_encode hex_tx_sig find_program_address treasury_pool_max).
Local Abbreviation is_built :=
  (built rlp_encode hex_tx_sig find_program_address treasury_pool_max neon_2program).

(** What [init_neon_tx_sig] leaves untouched. *)
Lemma init_neon_tx_sig_frame (self : builder) (s : string) :
  let self' := snd (init_sig self s) in
  _neon_tx self' = _neon_tx self /\ _msg self' = _msg self
  /\ _evm_program_id self' = _evm_program_id self
  /\ _holder self' = _holder self
  /\ _operator_neon_address self' = _operator_neon_address self.
Proof.
  unfold init_neon_tx_sig.
  destruct (bytes_fromhex (str_drop 2 s)) as [sig|]; [|now cbn].
  destruct (py_mod _ _) as [i|e]; [|now cbn].
  destruct (int_to_bytes_little i 4) as [buf|e]; now cbn.
Qed.

(** The index buffer is written by [init_neon_tx_sig] only, and always
    with the four bytes [to_bytes(4, 'little')] returned. *)
Lemma init_neon_tx_sig_buf (self : builder) (s : string) (buf : bytes) :
  _treasury_pool_index_buf (snd (init_sig self s)) = Some buf ->
  _treasury_pool_index_buf self = Some buf \/ List.length buf = 4%nat.
Proof.
  unfold init_neon_tx_sig.
  destruct (bytes_fromhex (str_drop 2 s)) as [sig|]; [|now left].
  destruct (py_mod _ _) as [i|e]; [|now left].
  destruct (int_to_bytes_little i 4) as [b|e] eqn:E; [|now left].
  cbn. intros [= <-]. right.
  apply int_to_bytes_little_inv in E. destruct E as [_ ->].
  apply little_digits_length.
Qed.

(** A built builder keeps the RLP encoding of its transaction as message,
    and an index buffer of four bytes. *)
Lemma built_inv (self : builder) :
  is_built self ->
  (forall tx, _neon_tx self = Some tx -> _msg self = Some (rlp_encode tx))
  /\ (forall buf, _treasury_pool_index_buf self = Some buf ->
                  List.length buf = 4%nat).
Proof.
  induction 1 as [evm op | self oe _ [IH1 IH2] | self tx _ [IH1 IH2]
                 | self s _ [IH1 IH2] | self l _ [IH1 IH2]
                 | self h _ [IH1 IH2]]; split; cbn; try discriminate; auto.
  - intros tx'. unfold init_neon_tx.
    destruct (init_neon_tx_sig_frame (set_neon_tx self tx (rlp_encode tx))
                (hex_tx_sig tx)) as (-> & -> & _).
    cbn. now intros [= ->].
  - intros buf Hbuf. unfold init_neon_tx in Hbuf.
    apply init_neon_tx_sig_buf in Hbuf. destruct Hbuf as [Hbuf|]; auto.
  - intros tx'.
    destruct (init_neon_tx_sig_frame self s) as (-> & -> & _). auto.
  - intros buf Hbuf.
    apply init_neon_tx_sig_buf in Hbuf. destruct Hbuf as [Hbuf|]; auto.
Qed.

(** The message of a built builder is the RLP encoding of the transaction
    it holds; a builder that holds no transaction has no message. *)
Lemma built_message (self : builder) :
  is_built self -> _msg self = option_map rlp_encode (_neon_tx self).
Proof.
  induction 1 as [evm op | self oe _ IH | self tx _ IH | self s _ IH
                 | self l _ IH | self h _ IH]; cbn; auto.
  - unfold init_neon_tx.
    destruct (init_neon_tx_sig_frame (set_neon_tx self tx (rlp_encode tx))
                (hex_tx_sig tx)) as (-> & -> & _).
    reflexivity.
  - destruct (init_neon_tx_sig_frame self s) as (-> & -> & _). exact IH.
Qed.

(** With a positive [treasury_pool_max], the index buffer of a built
    builder is the index of the signature it holds. *)
Lemma init_neon_tx_sig_index (self : builder) (s : string) :
  0 < treasury_pool_max ->
  (forall buf, _treasury_pool_index_buf self = Some buf ->
     exists sig, _neon_tx_sig self = Some sig
                 /\ buf = u32_le (u32_le_read sig mod treasury_pool_max)) ->
  forall buf, _treasury_pool_index_buf (snd (init_sig self s)) = Some buf ->
    exists sig, _neon_tx_sig (snd (init_sig self s)) = Some sig
                /\ buf = u32_le (u32_le_read sig mod treasury_pool_max).
Proof.
  intros Hmax Hinv. unfold init_neon_tx_sig.
  destruct (bytes_fromhex (str_drop 2 s)) as [sig|]; [|exact Hinv].
  pose proof (u32_le_read_range sig) as Hread.
  pose proof (Z.mod_pos_bound (u32_le_read sig) treasury_pool_max Hmax) as Hi.
  pose proof (Z.mod_le (u32_le_read sig) treasury_pool_max
                ltac:(lia) Hmax) as Hle.
  unfold py_mod. destruct (Z.eqb_spec treasury_pool_max 0) as [|_]; [lia|].
  rewrite u32_le_read_firstn.
  rewrite int_to_bytes_little_ok
    by (change (256 ^ Z.of_nat 4) with (2 ^ 32); lia).
  cbn -[u32_le little_digits]. intros buf [= <-]. exists sig.
  split; [reflexivity|]. unfold u32_le.
  rewrite <- little_digits_le_bytes by lia. reflexivity.
Qed.

Lemma built_index (self : builder) :
  0 < treasury_pool_max ->
  is_built self ->
  forall buf, _treasury_pool_index_buf self = Some buf ->
    exists sig, _neon_tx_sig self = Some sig
                /\ buf = u32_le (u32_le_read sig mod treasury_pool_max).
Proof.
  intros Hmax.
  induction 1 as [evm op | self oe _ IH | self tx _ IH | self s _ IH
                 | self l _ IH | self h _ IH]; cbn; auto.
  - discriminate.
  - unfold init_neon_tx. apply init_neon_tx_sig_index; [exact Hmax|].
    exact IH.
  - apply init_neon_tx_sig_index; assumption.
Qed.

(** The index buffer and the treasury pool address are written together. *)
Lemma built_address (self : builder) :
  is_built self ->
  _treasury_pool_index_buf self <> None -> _treasury_pool_address self <> None.
Proof.
  induction 1 as [evm op | self oe _ IH | self tx _ IH | self s _ IH
                 | self l _ IH | self h _ IH]; cbn; auto.
  - unfold init_neon_tx, init_neon_tx_sig.
    destruct (bytes_fromhex _) as [sig|]; [|exact IH].
    destruct (py_mod _ _) as [i|e]; [|exact IH].
    destruct (int_to_bytes_little i 4) as [buf|e]; [|exact IH].
    cbn. discriminate.
  - unfold init_neon_tx_sig.
    destruct (bytes_fromhex _) as [sig|]; [|exact IH].
    destruct (py_mod _ _) as [i|e]; [|exact IH].
    destruct (int_to_bytes_little i 4) as [buf|e]; [|exact IH].
    cbn. discriminate.
Qed.

(** The data of a step instruction, whatever the opcode byte. *)
Lemma _make_tx_step_ix_data (self : builder) (code : bytes)
    (step_cnt index : Z) (payload : option bytes) (ix : SolTxIx) :
  _make_tx_step_ix SYS_PROGRAM_ID self code step_cnt index payload = Ok ix ->
  exists tpi,
    _treasury_pool_index_buf self = Some tpi
    /\ 0 <= step_cnt < 2 ^ 32 /\ 0 <= index < 2 ^ 32
    /\ data ix = code ++ tpi ++ u32_le step_cnt ++ u32_le index
                 ++ match payload with Some d => d | None => [] end.
Proof.
  unfold _make_tx_step_ix, rbind.
  destruct (int_to_bytes_little step_cnt 4) as [cnt|] eqn:Ec; [|discriminate].
  destruct (int_to_bytes_little index 4) as [idx|] eqn:Ei; [|discriminate].
  apply int_to_bytes_little_inv in Ec, Ei.
  destruct Ec as [Hc ->], Ei as [Hi ->].
  destruct (_treasury_pool_index_buf self) as [tpi|]; [|discriminate].
  cbn [bytes_join].
  unfold _make_holder_ix, rbind.
  destruct (account_meta (_holder self) false true); [|discriminate].
  destruct (account_meta (_treasury_pool_address self) false true);
    [|discriminate].
  destruct (account_meta (_operator_neon_address self) false true);
    [|discriminate].
  intros [= <-]. exists tpi. cbn [data].
  change (256 ^ Z.of_nat 4) with (2 ^ 32) in Hc, Hi.
  repeat split; try lia.
  unfold u32_le. rewrite <- !(little_digits_le_bytes 4) by lia.
  cbn [little_digits app].
  destruct payload; rewrite <- ?app_assoc, ?app_nil_r; reflexivity.
Qed.

Lemma make_tx_step_from_data_ix_data (self : builder) (step_cnt index : Z)
    (ix : SolTxIx) :
  make_tx_step_from_data_ix SYS_PROGRAM_ID self step_cnt index = Ok ix ->
  exists tpi,
    _treasury_pool_index_buf self = Some tpi
    /\ data ix = [x20] ++ tpi ++ u32_le step_cnt ++ u32_le index
                 ++ match _msg self with Some d => d | None => [] end.
Proof.
  unfold make_tx_step_from_data_ix. cbn [rbind int_to_bytes_little value].
  change (int_to_bytes_little 32 1) with (Ok [x20]). cbn [rbind].
  intros H. apply _make_tx_step_ix_data in H.
  destruct H as (tpi & Htpi & _ & _ & Hdata). eauto.
Qed.

Lemma make_tx_step_from_account_ix_data (self : builder)
    (step_cnt index : Z) (ix : SolTxIx) :
  make_tx_step_from_account_ix SYS_PROGRAM_ID self step_cnt index = Ok ix ->
  exists tpi,
    _treasury_pool_index_buf self = Some tpi
    /\ data ix = [x21] ++ tpi ++ u32_le step_cnt ++ u32_le index.
Proof.
  unfold make_tx_step_from_account_ix.
  change (int_to_bytes_little (value TxStepFromAccount) 1) with (Ok [x21]).
  cbn [rbind].
  intros H. apply _make_tx_step_ix_data in H.
  destruct H as (tpi & Htpi & _ & _ & Hdata).
  rewrite !app_nil_r in Hdata. eauto.
Qed.

Lemma make_tx_step_from_account_no_chainid_ix_data (self : builder)
    (step_cnt index : Z) (ix : SolTxIx) :
  make_tx_step_from_account_no_chainid_ix SYS_PROGRAM_ID self step_cnt index
  = Ok ix ->
  exists tpi,
    _treasury_pool_index_buf self = Some tpi
    /\ data ix = [x22] ++ tpi ++ u32_le step_cnt ++ u32_le index.
Proof.
  unfold make_tx_step_from_account_no_chainid_ix.
  change (int_to_bytes_little (value TxStepFromAccountNoChainId) 1)
    with (Ok [x22]).
  cbn [rbind].
  intros H. apply _make_tx_step_ix_data in H.
  destruct H as (tpi & Htpi & _ & _ & Hdata).
  rewrite !app_nil_r in Hdata. eauto.
Qed.

(** A step instruction is produced as soon as the builder has its holder,
    its operator account and a signature, and the two counters fit 32
    bits. *)
Lemma _make_tx_step_ix_returns (self : builder) (code : bytes)
    (step_cnt index : Z) (payload : option bytes) :
  is_built self ->
  _treasury_pool_index_buf self <> None ->
  _holder self <> None ->
  _operator_neon_address self <> None ->
  0 <= step_cnt < 2 ^ 32 -> 0 <= index < 2 ^ 32 ->
  exists ix,
    _make_tx_step_ix SYS_PROGRAM_ID self code step_cnt index payload = Ok ix.
Proof.
  intros Hbuilt Hb Hh Ho Hc Hi.
  pose proof (built_address self Hbuilt Hb) as Ha.
  unfold _make_tx_step_ix, _make_holder_ix.
  rewrite !int_to_bytes_little_ok by (change (256 ^ Z.of_nat 4) with (2 ^ 32); lia).
  destruct (_treasury_pool_index_buf self); [|congruence].
  destruct (_treasury_pool_address self); [|congruence].
  destruct (_holder self); [|congruence].
  destruct (_operator_neon_address self); [|congruence].
  cbn. eauto.
Qed.

(** C3. For a signature [sig] (the bytes of the hexadecimal text handed to
    [init_neon_tx_sig]) and [treasury_pool_max > 0], the builder returns and
    holds: the signature; as index buffer the four little-endian bytes of
    [u32_le_read sig mod treasury_pool_max], which read back to that index;
    and as treasury pool address the program address derived from the seeds
    ["treasury_pool"] and that buffer under the EVM program id. *)
Theorem C3_treasury_pool_index (self : builder) (neon_tx_sig : string)
    (sig : bytes) :
  0 < treasury_pool_max ->
  bytes_fromhex (str_drop 2 neon_tx_sig) = Some sig ->
  let index := u32_le_read sig mod treasury_pool_max in
  let self' := snd (init_sig self neon_tx_sig) in
  fst (init_sig self neon_tx_sig) = Ok tt
  /\ _neon_tx_sig self' = Some sig
  /\ 0 <= index < treasury_pool_max
  /\ _treasury_pool_index_buf self' = Some (u32_le index)
  /\ List.length (u32_le index) = 4%nat
  /\ int_from_bytes_little (u32_le index) = index
  /\ _treasury_pool_address self'
     = Some (fst (find_program_address
                    [list_byte_of_string "treasury_pool"; u32_le index]
                    (_evm_program_id self))).
Proof.
  intros Hmax Hsig index self'. subst self'.
  pose proof (u32_le_read_range sig) as Hread.
  assert (Hidx : 0 <= index < treasury_pool_max)
    by (apply Z.mod_pos_bound; lia).
  assert (Hidx32 : 0 <= index < 256 ^ Z.of_nat 4).
  { change (256 ^ Z.of_nat 4) with (2 ^ 32).
    pose proof (Z.mod_le (u32_le_read sig) treasury_pool_max). lia. }
  unfold init_neon_tx_sig. rewrite Hsig.
  unfold py_mod. destruct (Z.eqb_spec treasury_pool_max 0) as [|_]; [lia|].
  rewrite u32_le_read_firstn. fold index.
  rewrite (int_to_bytes_little_ok _ _ Hidx32).
  unfold u32_le. rewrite <- little_digits_le_bytes by lia.
  cbn [fst snd]. repeat split; try lia.
  rewrite int_from_little_digits by lia. apply Z.mod_small. lia.
Qed.


(** C5. Whenever the builder produces a HolderWrite instruction for an
    offset and a chunk, the offset fits 64 bits and the data is the byte
    0x26, the builder's transaction signature, the offset as a 64-bit
    little-endian number and the chunk; with a signature of 32 bytes the
    signature sits at bytes 1 to 32, the offset at bytes 33 to 40 and the
    chunk from byte 41 on.  The instruction is produced whenever the builder
    has a signature and a holder and the offset fits 64 bits. *)
Theorem C5_holder_write_data (self : builder) (offset : Z) (chunk : bytes) :
  (forall ix,
      make_write_ix self offset chunk = Ok ix ->
      exists sig,
        _neon_tx_sig self = Some sig
        /\ 0 <= offset < 2 ^ 64
        /\ data ix = [x26] ++ sig ++ u64_le offset ++ chunk
        /\ (List.length sig = 32%nat ->
            firstn 32 (skipn 1 (data ix)) = sig
            /\ firstn 8 (skipn 33 (data ix)) = u64_le offset
            /\ skipn 41 (data ix) = chunk))
  /\ (_neon_tx_sig self <> None -> _holder self <> None ->
      0 <= offset < 2 ^ 64 ->
      exists ix, make_write_ix self offset chunk = Ok ix).
Proof.
  split.
  - intros ix. unfold make_write_ix.
    change (int_to_bytes_little (value HolderWrite) 1) with (Ok [x26]).
    cbn [rbind].
    destruct (int_to_bytes_little offset 8) as [off|] eqn:Eo; [|discriminate].
    apply int_to_bytes_little_inv in Eo. destruct Eo as [Ho Eo].
    change (256 ^ Z.of_nat 8) with (2 ^ 64) in Ho.
    rewrite little_digits_le_bytes in Eo by lia.
    fold (u64_le offset) in Eo.
    assert (Hlen8 : List.length off = 8%nat)
      by (subst off; unfold u64_le, le_bytes;
          now rewrite length_map, length_seq).
    cbn [rbind bytes_join].
    destruct (_neon_tx_sig self) as [sig|]; [|discriminate].
    cbn [rbind].
    destruct (account_meta (_holder self) false true); [|discriminate].
    cbn [rbind]. intros [= <-]. exists sig. cbn [data].
    rewrite app_nil_r. rewrite <- Eo.
    repeat split; try lia.
    all: assert (Hskip : forall l : bytes, skipn 32 (sig ++ l) = l)
      by (intros l; rewrite <- H, skipn_app, skipn_all, Nat.sub_diag;
          reflexivity).
    + rewrite (skipn_cons 0), skipn_O. rewrite <- H at 1.
      rewrite firstn_app, Nat.sub_diag, firstn_all. apply app_nil_r.
    + rewrite (skipn_cons 32), Hskip, <- Hlen8.
      rewrite firstn_app, Nat.sub_diag, firstn_all. apply app_nil_r.
    + rewrite (skipn_cons 40). change 40%nat with (8 + 32)%nat.
      rewrite <- skipn_skipn, Hskip, <- Hlen8.
      rewrite skipn_app, skipn_all, Nat.sub_diag. reflexivity.
  - intros Hs Hh Ho. unfold make_write_ix.
    change (int_to_bytes_little (value HolderWrite) 1) with (Ok [x26]).
    rewrite int_to_bytes_little_ok
      by (change (256 ^ Z.of_nat 8) with (2 ^ 64); lia).
    cbn [rbind bytes_join].
    destruct (_neon_tx_sig self); [|congruence].
    destruct (_holder self); [|congruence].
    cbn. eauto.
Qed.

End BuilderFacts.

(** ** The builder statements on a concrete builder *)

Section BuilderWitnesses.
Import Py Layout NeonInstruction BuilderExample.

Lemma ready_built :
  built rlp_encode hex_tx_sig find_program_address treasury_pool_max
    neon_2program ready.
Proof.
  unfold ready. apply built_iterative, built_neon_tx, built_operator_neon.
  apply built_init.
Defined.

Lemma C3_treasury_pool_index_witness :
  0 < treasury_pool_max
  /\ bytes_fromhex (str_drop 2 tx_sig) = Some sig_bytes
  /\ fst (init_neon_tx_sig find_program_address treasury_pool_max fresh tx_sig)
     = Ok tt
  /\ _treasury_pool_index_buf
       (snd (init_neon_tx_sig find_program_address treasury_pool_max fresh
               tx_sig))
     = Some [x01; x00; x00; x00].
Proof.
  assert (Hmax : 0 < treasury_pool_max) by (unfold treasury_pool_max; lia).
  assert (Hsig : bytes_fromhex (str_drop 2 tx_sig) = Some sig_bytes)
    by reflexivity.
  destruct (C3_treasury_pool_index find_program_address treasury_pool_max
              fresh tx_sig sig_bytes Hmax Hsig) as (Hret & _ & _ & Hbuf & _).
  split; [exact Hmax|]. split; [exact Hsig|]. split; [exact Hret | exact Hbuf].
Defined.


(** The builder that was given a signature and no transaction produces an
    instruction from data of thirteen bytes: no RLP encoding follows the
    index. *)
Lemma C4_counterexample :
  built rlp_encode hex_tx_sig find_program_address treasury_pool_max
    neon_2program signed_iterative
  /\ _neon_tx signed_iterative = None
  /\ exists ix,
       make_tx_step_from_data_ix sys_program_id signed_iterative 500 3 = Ok ix
       /\ data ix = [x20; x01; x00; x00; x00; xf4; x01; x00; x00;
                     x03; x00; x00; x00]
       /\ List.length (data ix) = 13%nat
       /\ forall tx : bytes,
            rlp_encode tx <> [] ->
            data ix <> [x20; x01; x00; x00; x00] ++ u32_le 500 ++ u32_le 3
                       ++ rlp_encode tx.
Proof.
  split.
  { unfold signed_iterative, signed_only.
    apply built_iterative, built_neon_tx_sig, built_operator_neon.
    apply built_init. }
  split; [reflexivity|].
  eexists. split; [reflexivity|]. split; [reflexivity|].
  split; [reflexivity|].
  intros tx Htx H. cbn in H.
  injection H as H. apply Htx. now rewrite <- H.
Qed.

Lemma C5_holder_write_data_witness :
  exists ix,
    make_write_ix ready 258 [xaa; xbb] = Ok ix
    /\ data ix = [x26] ++ sig_bytes
                 ++ [x02; x01; x00; x00; x00; x00; x00; x00] ++ [xaa; xbb].
Proof.
  destruct (C5_holder_write_data ready 258 [xaa; xbb]) as (Hdata & Hret).
  destruct Hret as (ix & Hix); try (cbn; discriminate); try lia.
  exists ix. split; [exact Hix|].
  destruct (Hdata ix Hix) as (sig & Hsig & _ & Hd & _).
  rewrite Hd. injection Hsig as <-. reflexivity.
Defined.

End BuilderWitnesses.

(** * The indexer's start slot *)

Section IndexerFacts.
Import Py IndexerBase.
Local Open Scope string_scope.

Variable get_block_slot : SolCommit -> result Z.
Variable get_first_available_block : result Z.

Lemma keyword_is_no_number :
  int_of_str 10 "CONTINUE" = None /\ int_of_str 10 "LATEST" = None.
Proof. split; reflexivity. Qed.

(** A text that begins with more decimal digits than [max_str_digits] is
    not read by [int()]: the limit on the digits raises [ValueError]. *)
Lemma too_many_digits_unread (s : string) :
  too_many_digits 10 s = true -> int_of_str 10 s = None.
Proof.
  intros H. destruct s as [|c r]; [discriminate H|].
  destruct c as [b0 b1 b2 b3 b4 b5 b6 b7].
  destruct b0, b1, b2, b3, b4, b5, b6, b7;
    try (exfalso; cbn in H; discriminate H);
    unfold int_of_str; try destruct r as [|x r'];
    cbn -[too_many_digits scan_digits];
    first [reflexivity | rewrite H; reflexivity].
Qed.

(** The slot [_get_start_slot] resolves, by the form of the configured
    value. *)
Lemma _get_start_slot_cases (config_start_slot : string)
    (last_slot : option Z) (finalized : Z) :
  get_block_slot Finalized = Ok finalized ->
  let last := match last_slot with Some n => n | None => 0 end in
  _get_start_slot get_block_slot config_start_slot last_slot
  = Ok (if String.eqb config_start_slot "LATEST" then finalized
        else if String.eqb config_start_slot "CONTINUE" then
               if Z.ltb 0 last then last else finalized
        else match int_of_str 10 config_start_slot with
             | Some n => Z.max (Z.min n finalized) last
             | None => Z.max 0 last
             end).
Proof.
  intros Hfin last. unfold _get_start_slot. rewrite Hfin. cbn [rbind].
  fold last.
  destruct (String.eqb_spec config_start_slot "CONTINUE") as [->|Hc].
  - cbn [String.eqb Ascii.eqb Bool.eqb orb negb andb].
    rewrite Z.gtb_ltb. destruct (0 <? last)%Z; reflexivity.
  - destruct (String.eqb_spec config_start_slot "LATEST") as [->|Hl].
    + reflexivity.
    + cbn [orb negb andb].
      destruct (int_of_str 10 config_start_slot) as [n|].
      * destruct (Z.ltb_spec (Z.min n finalized) last);
          f_equal; lia.
      * destruct (Z.ltb_spec 0 last); f_equal; lia.
Qed.


End IndexerFacts.

Section IndexerWitness.
Import Py IndexerBase IndexerExample.
Local Open Scope string_scope.


End IndexerWitness.

(** * The strategy ladder *)

Section ExecutorFacts.
Import NeonTxSender.

Context {EmulatedResult NeonTxResultInfo : Type}.
Variable outside : Outside EmulatedResult NeonTxResultInfo.

Local Abbreviation store := (Store outside).

(** ** Laws of the executor's computations *)

Lemma bind_returns {A B : Type} (m : M outside A) (k : A -> M outside B)
    (s : store) (a : A) :
  returned (m s) = Ok a ->
  bind m k s
  = mkRun (returned (k a (final (m s)))) (final (k a (final (m s))))
      (events (m s) ++ events (k a (final (m s)))).
Proof. intros H. unfold bind. now rewrite H. Qed.

Lemma bind_raises {A B : Type} (m : M outside A) (k : A -> M outside B)
    (s : store) (e : exn) :
  returned (m s) = Raise e ->
  bind m k s = mkRun (Raise e) (final (m s)) (events (m s)).
Proof. intros H. unfold bind. now rewrite H. Qed.

Lemma bind_ret_returned {A B : Type} (m : M outside A) (b b' : B) (s : store) :
  returned (bind m (fun _ => ret b) s) = Ok b' -> b = b'.
Proof.
  unfold bind. destruct (returned (m s)); cbn; congruence.
Qed.

Lemma run_eta {A : Type} (r : Run outside A) :
  r = mkRun (returned r) (final r) (events r).
Proof. now destruct r. Qed.

Lemma external_run {A : Type} (c : call) (describe : A -> outcome)
    (f : store -> result A * store) (s : store) :
  external c describe f s
  = mkRun (fst (f s)) (snd (f s)) [(c, outcome_of describe (fst (f s)))].
Proof. unfold external. now destruct (f s). Qed.

(** ** The refresh of [state_tx_cnt] and the nonce check *)

Lemma _init_state_tx_cnt_run (s : store) :
  _init_state_tx_cnt outside s
  = match get_state_tx_cnt outside (neon_tx_info_addr (fst s)) (snd s) with
    | (Ok v, w') =>
        mkRun (Ok tt) (set_state_tx_cnt (fst s) v, w')
          [(get_state_tx_cnt_call, ReturnedInt v)]
    | (Raise e, w') =>
        mkRun (Raise e) (fst s, w') [(get_state_tx_cnt_call, Raised e)]
    end.
Proof.
  unfold _init_state_tx_cnt, bind, get_ctx, external_world, modify_ctx.
  cbn.
  destruct (get_state_tx_cnt outside (neon_tx_info_addr (fst s)) (snd s))
    as [[v|e] w']; reflexivity.
Qed.

Lemma _validate_nonce_run (s : store) :
  _validate_nonce outside s
  = match get_state_tx_cnt outside (neon_tx_info_addr (fst s)) (snd s) with
    | (Ok v, w') =>
        mkRun (nonce_verdict (fst s) v) (set_state_tx_cnt (fst s) v, w')
          [(get_state_tx_cnt_call, ReturnedInt v)]
    | (Raise e, w') =>
        mkRun (Raise e) (fst s, w') [(get_state_tx_cnt_call, Raised e)]
    end.
Proof.
  unfold _validate_nonce, bind. rewrite _init_state_tx_cnt_run.
  destruct (get_state_tx_cnt outside (neon_tx_info_addr (fst s)) (snd s))
    as [[v|e] w']; [|reflexivity].
  cbn. unfold nonce_verdict.
  destruct (v =? neon_tx_info_nonce (fst s)); [reflexivity|].
  destruct (v <? neon_tx_info_nonce (fst s)); reflexivity.
Qed.

Lemma nonce_verdict_low (c : NeonTxSendCtx EmulatedResult) (v : Z) :
  nonce_verdict c v
  = Raise (NonceTooLowError (neon_tx_info_addr c) (neon_tx_info_nonce c) v)
  <-> neon_tx_info_nonce c < v.
Proof.
  unfold nonce_verdict.
  destruct (Z.eqb_spec v (neon_tx_info_nonce c));
    [split; [discriminate|lia]|].
  destruct (Z.ltb_spec v (neon_tx_info_nonce c));
    split; try discriminate; try lia; reflexivity.
Qed.

Lemma nonce_verdict_high (c : NeonTxSendCtx EmulatedResult) (v : Z) :
  nonce_verdict c v = Raise NonceTooHighError <-> v < neon_tx_info_nonce c.
Proof.
  unfold nonce_verdict.
  destruct (Z.eqb_spec v (neon_tx_info_nonce c));
    [split; [discriminate|lia]|].
  destruct (Z.ltb_spec v (neon_tx_info_nonce c));
    split; try discriminate; try lia; reflexivity.
Qed.

Lemma nonce_verdict_pass (c : NeonTxSendCtx EmulatedResult) (v : Z) :
  nonce_verdict c v = Ok tt <-> v = neon_tx_info_nonce c.
Proof.
  unfold nonce_verdict.
  destruct (Z.eqb_spec v (neon_tx_info_nonce c));
    [split; [auto|reflexivity]|].
  destruct (Z.ltb_spec v (neon_tx_info_nonce c));
    split; try discriminate; try lia.
Qed.

(** The loop over the strategies makes no call, or starts with building a
    strategy. *)
Lemma execute_from_first_event (l : list Strategy) (idx : nat) (s : store) :
  events (execute_from outside l idx s) = []
  \/ exists cls o rest,
       events (execute_from outside l idx s) = (new_call cls, o) :: rest.
Proof.
  destruct l as [|cls rest]; [left; reflexivity|right].
  cbn [execute_from]. unfold bind at 1. rewrite external_run.
  cbn [returned final events].
  destruct (strategy_new outside cls s) as [[[]|e] s'];
    cbn; do 3 eexists; reflexivity.
Qed.

(** C1. The nonce check opens the run of the ladder exactly when
    [has_completed_receipt] is false: the first call of [execute] is then
    the refresh of [state_tx_cnt], and otherwise the run is the loop over
    the strategies alone.  With [v] the refreshed count, the check raises
    [NonceTooLow] exactly when [v] is above the nonce of the transaction,
    [NonceTooHigh] exactly when it is below, and passes exactly when the two
    are equal; a failed check ends [execute] before any strategy is built,
    a passed one hands over to the loop with [state_tx_cnt = v]. *)
Theorem C1_nonce_precheck (s : store) :
  let c := fst s in
  let addr := neon_tx_info_addr c in
  let nonce := neon_tx_info_nonce c in
  let ladder :=
    execute_from outside (skipn (strategy_idx c) _strategy_list)
      (strategy_idx c) in
  ((exists o rest,
       events (execute outside s) = (get_state_tx_cnt_call, o) :: rest)
   <-> completed_receipt c = false)
  /\ (completed_receipt c = true -> execute outside s = ladder s)
  /\ (completed_receipt c = false ->
      forall v w',
        get_state_tx_cnt outside addr (snd s) = (Ok v, w') ->
        let s1 : store := (set_state_tx_cnt c v, w') in
        let refresh := [(get_state_tx_cnt_call, ReturnedInt v)] in
        let precheck := _validate_nonce outside s in
        final precheck = s1
        /\ events precheck = refresh
        /\ (returned precheck = Raise (NonceTooLowError addr nonce v)
            <-> nonce < v)
        /\ (returned precheck = Raise NonceTooHighError <-> v < nonce)
        /\ (returned precheck = Ok tt <-> v = nonce)
        /\ (nonce < v ->
            execute outside s
            = mkRun (Raise (NonceTooLowError addr nonce v)) s1 refresh)
        /\ (v < nonce ->
            execute outside s = mkRun (Raise NonceTooHighError) s1 refresh)
        /\ (v = nonce ->
            execute outside s
            = mkRun (returned (ladder s1)) (final (ladder s1))
                (refresh ++ events (ladder s1)))).
Proof.
  intros c addr nonce ladder.
  assert (Hdone : completed_receipt c = true -> execute outside s = ladder s).
  { intros Hc. unfold execute, bind at 1, get_ctx at 1. cbn.
    fold c. rewrite Hc. cbn. unfold bind, ret, get_ctx. cbn.
    fold c. fold ladder. symmetry. apply run_eta. }
  assert (Hopen : completed_receipt c = false ->
                  execute outside s
                  = bind (_validate_nonce outside)
                      (fun _ => execute_from outside
                                  (skipn (strategy_idx c) _strategy_list)
                                  (strategy_idx c)) s).
  { intros Hc. unfold execute, bind at 1, get_ctx at 1. cbn.
    fold c. rewrite Hc. cbn [negb].
    unfold bind. destruct (_validate_nonce outside s) as [[[]|e] s1 t] eqn:E;
      cbn; [|reflexivity].
    assert (Hctx : strategy_idx (fst s1) = strategy_idx c
                   /\ True).
    { rewrite _validate_nonce_run in E. fold c addr in E.
      destruct (get_state_tx_cnt outside addr (snd s)) as [[v|e] w'];
        inversion E; subst; cbn; auto. }
    destruct Hctx as [-> _]. reflexivity. }
  split; [|split].
  - split.
    + intros (o & rest & Hev).
      destruct (completed_receipt c) eqn:Hc; [|reflexivity].
      rewrite (Hdone eq_refl) in Hev. unfold ladder in Hev.
      destruct (execute_from_first_event
                  (skipn (strategy_idx c) _strategy_list) (strategy_idx c) s)
        as [Hnil | (cls & o' & rest' & Hnew)]; congruence.
    + intros Hc. rewrite (Hopen Hc). unfold bind.
      rewrite _validate_nonce_run. fold c addr.
      destruct (get_state_tx_cnt outside addr (snd s)) as [[v|e] w'];
        cbn; [|eauto].
      destruct (nonce_verdict c v) as [[]|e]; cbn; eauto.
  - exact Hdone.
  - intros Hc v w' Hget s1 refresh precheck. subst precheck.
    rewrite (Hopen Hc). unfold bind.
    rewrite _validate_nonce_run. fold c addr. rewrite Hget. cbn.
    split; [reflexivity|]. split; [reflexivity|].
    split; [apply nonce_verdict_low|].
    split; [apply nonce_verdict_high|].
    split; [apply nonce_verdict_pass|].
    split; [|split].
    + intros H. apply nonce_verdict_low in H. fold addr nonce in H.
      now rewrite H.
    + intros H. apply nonce_verdict_high in H. now rewrite H.
    + intros H. apply nonce_verdict_pass in H. rewrite H. reflexivity.
Qed.

(** ** Properties of the record that every piece of a run keeps

    A property [Q] of records that holds of the empty record and is kept by
    concatenation holds of a run as soon as it holds of each external call
    in it. *)

Section Emits.

Variable Q : list event -> Prop.
Hypothesis Q_nil : Q [].
Hypothesis Q_app : forall t1 t2, Q t1 -> Q t2 -> Q (t1 ++ t2).

Lemma emits_ret {A : Type} (a : A) : emits (outside := outside) Q (ret a).
Proof. intros s. exact Q_nil. Qed.

Lemma emits_raise {A : Type} (e : exn) : emits (outside := outside) Q (@raise _ _ outside A e).
Proof. intros s. exact Q_nil. Qed.

Lemma emits_get_ctx : emits (outside := outside) Q (@get_ctx _ _ outside).
Proof. intros s. exact Q_nil. Qed.

Lemma emits_modify_ctx f : emits (outside := outside) Q (@modify_ctx _ _ outside f).
Proof. intros s. exact Q_nil. Qed.

Lemma emits_bind {A B : Type} (m : M outside A) (k : A -> M outside B) :
  emits (outside := outside) Q m -> (forall a, emits (outside := outside) Q (k a)) -> emits (outside := outside) Q (bind m k).
Proof.
  intros Hm Hk s. unfold bind.
  destruct (returned (m s)) as [a|e]; cbn.
  - apply Q_app; [apply Hm | apply Hk].
  - apply Hm.
Qed.

Lemma emits_try_finally {A : Type} (body : M outside A) (fin : M outside unit) :
  emits (outside := outside) Q body -> emits (outside := outside) Q fin -> emits (outside := outside) Q (try_finally body fin).
Proof.
  intros Hb Hf s. unfold try_finally. cbn. apply Q_app; [apply Hb | apply Hf].
Qed.

Lemma emits_try_except {A : Type} (body : M outside A)
    (handler : exn -> M outside A) :
  emits (outside := outside) Q body -> (forall e, emits (outside := outside) Q (handler e)) ->
  emits (outside := outside) Q (try_except body handler).
Proof.
  intros Hb Hh s. unfold try_except.
  destruct (returned (body s)) as [a|e] eqn:E; cbn.
  - apply Hb.
  - apply Q_app; [apply Hb | apply Hh].
Qed.

Lemma emits_external {A : Type} (c : call) (describe : A -> outcome) f :
  (forall o, Q [(c, o)]) -> emits (outside := outside) Q (external c describe f).
Proof. intros H s. rewrite external_run. apply H. Qed.

Lemma emits_external_world {A : Type} (c : call) (describe : A -> outcome) f :
  (forall o, Q [(c, o)]) ->
  emits (outside := outside) Q (external_world (outside := outside) c describe f).
Proof.
  intros H s. unfold external_world. destruct (f (snd s)). apply H.
Qed.

End Emits.

(** Breaks a computation of the executor into its external calls. *)
Ltac emits_step :=
  match goal with
  | |- forall _, _ => intros ?
  | |- emits _ (bind _ _) => apply emits_bind
  | |- emits _ (try_finally _ _) => apply emits_try_finally
  | |- emits _ (try_except _ _) => apply emits_try_except
  | |- emits _ (ret _) => apply emits_ret
  | |- emits _ (raise _) => apply emits_raise
  | |- emits _ get_ctx => apply emits_get_ctx
  | |- emits _ (modify_ctx _) => apply emits_modify_ctx
  | |- emits _ (external _ _ _) => apply emits_external
  | |- emits _ (external_world _ _ _) => apply emits_external_world
  | |- emits _ (if ?b then _ else _) => destruct b
  | |- emits _ (match ?e with _ => _ end) => destruct e
  end.

Lemma all_events_nil P : all_events P [].
Proof. reflexivity. Qed.

Lemma all_events_app P t1 t2 :
  all_events P t1 -> all_events P t2 -> all_events P (t1 ++ t2).
Proof.
  unfold all_events. intros H1 H2. rewrite forallb_app, H1, H2. reflexivity.
Qed.

Lemma all_events_In P t e : all_events P t -> In e t -> P e = true.
Proof.
  unfold all_events. rewrite forallb_forall. auto.
Qed.

(** Reduces [emits (all_events P) m] to [P] on the external calls of [m];
    what [m] calls must be in the context. *)
Ltac emits_all :=
  repeat first
    [ assumption
    | apply all_events_nil
    | apply all_events_app
    | emits_step ].

Section NeverCalls.

(** A test on calls that a piece of the executor never meets. *)
Variable avoided : call -> bool.

Let P : event -> bool := fun e => negb (avoided (fst e)).

Lemma _init_state_tx_cnt_avoids :
  avoided get_state_tx_cnt_call = false ->
  emits (all_events P) (_init_state_tx_cnt outside).
Proof.
  intros H. unfold _init_state_tx_cnt.
  emits_all. unfold all_events, P; cbn; now rewrite H.
Qed.

Lemma _validate_nonce_avoids :
  avoided get_state_tx_cnt_call = false ->
  emits (all_events P) (_validate_nonce outside).
Proof.
  intros H. pose proof (_init_state_tx_cnt_avoids H) as Hi.
  unfold _validate_nonce. emits_all.
Qed.

Lemma _emulate_neon_tx_avoids :
  avoided get_state_tx_cnt_call = false ->
  avoided call_tx_emulated_call = false ->
  emits (all_events P) (_emulate_neon_tx outside).
Proof.
  intros H H'. pose proof (_validate_nonce_avoids H) as Hv.
  unfold _emulate_neon_tx.
  emits_all. unfold all_events, P; cbn; now rewrite H'.
Qed.

End NeverCalls.

(** ** The [try] block never cancels *)

Lemma _prepare_never_cancels (cls : Strategy) (retry : Z) :
  emits (all_events no_cancel) (_prepare outside cls retry).
Proof.
  pose proof (_emulate_neon_tx_avoids is_cancel_call eq_refl eq_refl) as He.
  unfold _prepare. emits_all; reflexivity.
Qed.

Lemma _execute_retry_never_cancels (cls : Strategy) (n : nat) (retry : Z) :
  emits (all_events no_cancel) (_execute_retry outside cls n retry).
Proof.
  revert retry. induction n as [|n IH]; intros retry; cbn [_execute_retry].
  - emits_all.
  - pose proof (_prepare_never_cancels cls retry) as Hp.
    specialize (IH (retry + 1)).
    emits_all; reflexivity.
Qed.

Lemma attempt_body_never_cancels (idx : nat) (cls : Strategy) :
  emits (all_events no_cancel) (attempt_body outside idx cls).
Proof.
  unfold attempt_body, _execute.
  pose proof (_execute_retry_never_cancels cls) as Hr.
  emits_all; try reflexivity. apply Hr.
Qed.

(** ** Cancellation and the [except] clauses *)

(** [_cancel] lets a [RescheduleError] of [cancel()] through and swallows
    every other failure. *)
Lemma _cancel_run (cls : Strategy) (s : store) :
  _cancel outside cls s
  = mkRun
      match fst (cancel outside cls s) with
      | Raise RescheduleError => Raise RescheduleError
      | _ => Ok tt
      end
      (snd (cancel outside cls s))
      [cancel_event cls (fst (cancel outside cls s))].
Proof.
  unfold _cancel, try_except. rewrite external_run. cbn.
  destruct (cancel outside cls s) as [[[]|e] s']; cbn; [reflexivity|].
  destruct e; reflexivity.
Qed.

Lemma _cancel_then_raise (cls : Strategy) (e : exn) (s : store) :
  bind (_cancel outside cls) (fun _ => @raise _ _ outside (loop_exit NeonTxResultInfo) e) s
  = mkRun
      match fst (cancel outside cls s) with
      | Raise RescheduleError => Raise RescheduleError
      | _ => Raise e
      end
      (snd (cancel outside cls s))
      [cancel_event cls (fst (cancel outside cls s))].
Proof.
  unfold bind. rewrite _cancel_run. cbn.
  destruct (cancel outside cls s) as [[[]|e'] s']; cbn; [reflexivity|].
  destruct e'; reflexivity.
Qed.

(** The whole [try] statement after a [try] block that raised. *)
Lemma attempt_after_raise (idx : nat) (cls : Strategy) (s : store) (e : exn) :
  returned (attempt_body outside idx cls s) = Raise e ->
  let body := attempt_body outside idx cls s in
  let handled := on_exception outside cls e (final body) in
  let refresh := _init_state_tx_cnt outside (final handled) in
  attempt outside idx cls s
  = mkRun
      match returned refresh with
      | Ok _ => returned handled
      | Raise e' => Raise e'
      end
      (final refresh)
      ((events body ++ events handled) ++ events refresh).
Proof.
  intros H body handled refresh.
  subst refresh handled body.
  unfold attempt, try_finally, try_except. rewrite H. reflexivity.
Qed.

Lemma execute_from_cons (cls : Strategy) (rest : list Strategy) (idx : nat)
    (s0 s : store) :
  strategy_new outside cls s0 = (Ok tt, s) ->
  let pass := attempt outside idx cls s in
  execute_from outside (cls :: rest) idx s0
  = match returned pass with
    | Ok Continue =>
        let next := execute_from outside rest (S idx) (final pass) in
        mkRun (returned next) (final next)
          ((new_call cls, Returned) :: events pass ++ events next)
    | Ok (Return r) =>
        mkRun (Ok r) (final pass) ((new_call cls, Returned) :: events pass)
    | Raise e =>
        mkRun (Raise e) (final pass) ((new_call cls, Returned) :: events pass)
    end.
Proof.
  intros Hnew pass. cbn [execute_from]. unfold bind at 1.
  rewrite external_run, Hnew. cbn [fst snd returned final events outcome_of].
  unfold bind. fold pass.
  destruct (returned pass) as [[|r]|e]; cbn; try reflexivity.
  now rewrite app_nil_r.
Qed.

(** When the [try] block fails with anything but [RescheduleError], and
    not with a [WrongStrategyError] that can still be rolled back, the
    strategy is cancelled, [state_tx_cnt] is refreshed, and the failure goes
    on to the caller unless the cancellation asks for a reschedule or the
    refresh fails. *)
Lemma attempt_cancels (idx : nat) (cls : Strategy) (s : store) (e : exn) :
  let body := attempt_body outside idx cls s in
  returned body = Raise e ->
  e <> RescheduleError ->
  (e = WrongStrategyError -> completed_receipt (fst (final body)) = true) ->
  let c := cancel outside cls (final body) in
  let refresh := _init_state_tx_cnt outside (snd c) in
  attempt outside idx cls s
  = mkRun
      match returned refresh with
      | Ok _ =>
          match fst c with
          | Raise RescheduleError => Raise RescheduleError
          | _ => Raise e
          end
      | Raise e' => Raise e'
      end
      (final refresh)
      (events body ++ cancel_event cls (fst c) :: events refresh).
Proof.
  intros body Hbody Hre Hws c refresh. subst refresh c.
  rewrite (attempt_after_raise idx cls s e Hbody). fold body.
  assert (Hh : on_exception outside cls e (final body)
               = bind (_cancel outside cls) (fun _ => raise e) (final body)).
  { destruct e; try reflexivity; [congruence|].
    cbn [on_exception]. unfold bind at 1, get_ctx at 1. cbn.
    rewrite (Hws eq_refl). cbn. symmetry. apply run_eta. }
  rewrite Hh, _cancel_then_raise. cbn [returned final events].
  rewrite <- app_assoc. reflexivity.
Qed.

(** C2 (as amended). Let the [try] block of a strategy raise
    [WrongStrategyError].  If [has_completed_receipt] is then false,
    [cancel()] is not called, and once the closing refresh of
    [state_tx_cnt] has returned the loop goes on with the next strategy
    index on the store left by this one.  If it is true, [cancel()] is
    called right after the failed block, and once the closing refresh has
    returned the caller gets [WrongStrategyError], unless [cancel()] raised
    [RescheduleError], which the caller then gets instead. *)
Theorem C2_wrong_strategy (idx : nat) (cls : Strategy) (rest : list Strategy)
    (s0 s : store) :
  strategy_new outside cls s0 = (Ok tt, s) ->
  let body := attempt_body outside idx cls s in
  returned body = Raise WrongStrategyError ->
  let s2 := final body in
  let pass := execute_from outside (cls :: rest) idx s0 in
  let built := (new_call cls, Returned) in
  let refreshed v := (get_state_tx_cnt_call, ReturnedInt v) in
  (forall e, In e (events body) -> is_cancel_call (fst e) = false)
  /\ (completed_receipt (fst s2) = false ->
      forall v w',
        get_state_tx_cnt outside (neon_tx_info_addr (fst s2)) (snd s2)
        = (Ok v, w') ->
        let next :=
          execute_from outside rest (S idx) (set_state_tx_cnt (fst s2) v, w') in
        pass = mkRun (returned next) (final next)
                 (built :: (events body ++ [refreshed v]) ++ events next))
  /\ (completed_receipt (fst s2) = true ->
      let c := cancel outside cls s2 in
      let s3 := snd c in
      (exists t,
          events pass = built :: events body ++ cancel_event cls (fst c) :: t)
      /\ forall v w',
          get_state_tx_cnt outside (neon_tx_info_addr (fst s3)) (snd s3)
          = (Ok v, w') ->
          pass
          = mkRun
              (if match fst c with
                  | Raise RescheduleError => true
                  | _ => false
                  end
               then Raise RescheduleError else Raise WrongStrategyError)
              (set_state_tx_cnt (fst s3) v, w')
              (built :: events body
                        ++ [cancel_event cls (fst c); refreshed v])).
Proof.
  intros Hnew body Hbody s2 pass built refreshed.
  split; [|split].
  - intros e He.
    pose proof (all_events_In _ _ e (attempt_body_never_cancels idx cls s) He)
      as H.
    unfold no_cancel in H. now destruct (is_cancel_call (fst e)).
  - intros Hc v w' Hget next. subst pass.
    rewrite (execute_from_cons cls rest idx s0 s Hnew).
    rewrite (attempt_after_raise idx cls s _ Hbody). fold body s2.
    assert (Hh : on_exception outside cls WrongStrategyError s2
                 = mkRun (Ok Continue) s2 []).
    { cbn [on_exception]. unfold bind, get_ctx. cbn. now rewrite Hc. }
    rewrite Hh. cbn [returned final events].
    rewrite _init_state_tx_cnt_run, Hget. cbn [returned final events].
    rewrite app_nil_r. reflexivity.
  - intros Hc c s3. subst pass.
    rewrite (execute_from_cons cls rest idx s0 s Hnew).
    assert (Hne : WrongStrategyError <> RescheduleError) by discriminate.
    rewrite (attempt_cancels idx cls s _ Hbody Hne (fun _ => Hc)).
    fold body s2 c s3. cbn [returned final events].
    split.
    + destruct (returned (_init_state_tx_cnt outside s3)) as [[]|e'].
      * destruct (fst c) as [[]|[]]; cbn; eauto.
      * cbn. eauto.
    + intros v w' Hget. rewrite _init_state_tx_cnt_run, Hget.
      cbn [returned final events].
      destruct (fst c) as [[]|[]]; reflexivity.
Qed.

(** ** The retry loop *)

Lemma strategy_eqb_eq (a b : Strategy) : strategy_eqb a b = true -> a = b.
Proof. destruct a, b; cbn; intros H; try reflexivity; discriminate H. Qed.

Lemma strategy_eqb_refl (a : Strategy) : strategy_eqb a a = true.
Proof. destruct a; reflexivity. Qed.

Lemma quiet_skipped (q t : list event) (last : option (Strategy * bool)) :
  all_events quiet q -> execute_guarded last (q ++ t) = execute_guarded last t.
Proof.
  unfold all_events. induction q as [|[c o] q IH]; [reflexivity|].
  cbn [forallb]. intros H. apply andb_prop in H. destruct H as [Hc Hq].
  cbn [app]. destruct c; cbn in Hc; try discriminate Hc; cbn; auto.
Qed.

Lemma quiet_filter (q : list event) :
  all_events quiet q -> filter (fun e => is_prep_call (fst e)) q = [].
Proof.
  unfold all_events. induction q as [|[c o] q IH]; [reflexivity|].
  cbn [forallb]. intros H. apply andb_prop in H. destruct H as [Hc Hq].
  cbn [filter]. destruct c; cbn in Hc; try discriminate Hc; cbn; auto.
Qed.

Lemma quiet_not_execute (q : list event) (c : Strategy) (o : outcome) :
  all_events quiet q -> ~ In (execute_call c, o) q.
Proof.
  intros Hq Hin. apply (all_events_In _ _ _ Hq) in Hin. discriminate Hin.
Qed.

Lemma quiet_not_prep (q : list event) (c : Strategy) (o : outcome) :
  all_events quiet q -> ~ In (prep_before_emulate_call c, o) q.
Proof.
  intros Hq Hin. apply (all_events_In _ _ _ Hq) in Hin. discriminate Hin.
Qed.

Lemma _prepare_run (cls : Strategy) (retry : Z) (s : store) :
  _prepare outside cls retry s
  = match prep_before_emulate outside cls s with
    | (Ok b, s1) =>
        let tail := _prepare_tail outside cls retry b s1 in
        mkRun (returned tail) (final tail)
          ((prep_before_emulate_call cls, ReturnedBool b) :: events tail)
    | (Raise e, s1) =>
        mkRun (Raise e) s1 [(prep_before_emulate_call cls, Raised e)]
    end.
Proof.
  unfold _prepare. unfold bind at 1. rewrite external_run.
  destruct (prep_before_emulate outside cls s) as [[b|e] s1]; reflexivity.
Qed.

Lemma _prepare_tail_quiet (cls : Strategy) (retry : Z) (b : bool) :
  emits (all_events quiet) (_prepare_tail outside cls retry b).
Proof.
  pose proof (_emulate_neon_tx_avoids
                (fun c => is_prep_call c || is_execute_call c)
                eq_refl eq_refl) as He.
  change (emits (all_events quiet) (_emulate_neon_tx outside)) in He.
  unfold _prepare_tail. emits_all; reflexivity.
Qed.

(** A preparation starts with [prep_before_emulate()]; what follows is
    neither a preparation nor an execution; and it returns what that call
    returned. *)
Lemma _prepare_events (cls : Strategy) (retry : Z) (s : store) :
  let p := _prepare outside cls retry s in
  exists o q,
    events p = (prep_before_emulate_call cls, o) :: q
    /\ all_events quiet q
    /\ forall b, returned p = Ok b -> o = ReturnedBool b.
Proof.
  cbn zeta. rewrite _prepare_run.
  destruct (prep_before_emulate outside cls s) as [[b|e] s1];
    cbn [returned final events].
  - eexists. eexists. split; [reflexivity|]. split.
    + apply _prepare_tail_quiet.
    + intros b' H. unfold _prepare_tail in H.
      apply bind_ret_returned in H. congruence.
  - exists (Raised e), []. split; [reflexivity|]. split; [reflexivity|].
    discriminate.
Qed.

Lemma execute_step_events (cls : Strategy) (s : store) :
  exists o1 o2,
    events (execute_step outside cls s)
    = [(execute_call cls, o1); (has_completed_receipt_call cls, o2)].
Proof.
  unfold execute_step, try_finally. rewrite external_run.
  cbn [returned final events app]. unfold bind. rewrite external_run.
  cbn [returned final events].
  match goal with
  | |- context [has_completed_receipt outside cls ?x] =>
      destruct (has_completed_receipt outside cls x) as [[[]|e] s']
  end; cbn; do 2 eexists; reflexivity.
Qed.

(** One pass of the retry loop. *)
Lemma _execute_retry_pass (cls : Strategy) (n : nat) (retry : Z) (s : store) :
  let p := _prepare outside cls retry s in
  _execute_retry outside cls (S n) retry s
  = match returned p with
    | Ok has_changes =>
        let r :=
          if has_changes
          then _execute_retry outside cls n (retry + 1) (final p)
          else execute_step outside cls (final p) in
        mkRun (returned r) (final r) (events p ++ events r)
    | Raise e => mkRun (Raise e) (final p) (events p)
    end.
Proof.
  cbn [_execute_retry]. unfold bind at 1. cbn zeta.
  destruct (returned (_prepare outside cls retry s)) as [[]|e]; reflexivity.
Qed.

Lemma Guarded_nil : Guarded [].
Proof. intros last t2 H. apply H. Qed.

Lemma Guarded_app t1 t2 : Guarded t1 -> Guarded t2 -> Guarded (t1 ++ t2).
Proof.
  intros H1 H2 last t3 H3. rewrite <- app_assoc. apply H1.
  intros last'. apply H2, H3.
Qed.

Lemma Guarded_quiet q : all_events quiet q -> Guarded q.
Proof. intros Hq last t2 H. rewrite quiet_skipped by assumption. apply H. Qed.

Lemma Guarded_safe t : Guarded t -> safe t.
Proof.
  intros H last. rewrite <- (app_nil_r t). apply H. intros last'. reflexivity.
Qed.

Lemma _execute_retry_guarded (cls : Strategy) (n : nat) (retry : Z)
    (s : store) :
  Guarded (events (_execute_retry outside cls n retry s)).
Proof.
  revert retry s. induction n as [|n IH]; intros retry s;
    [apply Guarded_nil|].
  rewrite _execute_retry_pass.
  destruct (_prepare_events cls retry s) as (o & q & Hev & Hq & Hret).
  destruct (returned (_prepare outside cls retry s)) as [b|e].
  - rewrite (Hret b eq_refl) in Hev. cbn [returned final events].
    rewrite Hev. destruct b.
    + intros last t2 H2. cbn [app execute_guarded].
      rewrite <- app_assoc, quiet_skipped by assumption. now apply IH.
    + destruct (execute_step_events cls (final (_prepare outside cls retry s)))
        as (o1 & o2 & ->).
      intros last t2 H2. cbn [app execute_guarded].
      rewrite <- app_assoc, quiet_skipped by assumption.
      cbn [app execute_guarded]. rewrite strategy_eqb_refl. apply H2.
  - cbn [events]. rewrite Hev.
    intros last t2 H2. cbn [app execute_guarded].
    rewrite quiet_skipped by assumption. apply H2.
Qed.

(** In a guarded record an execution has its preparation before it. *)
Lemma guarded_execute_prepared (t : list event)
    (last : option (Strategy * bool)) (c : Strategy) (o : outcome) :
  execute_guarded last t = true ->
  In (execute_call c, o) t ->
  last = Some (c, false)
  \/ In (prep_before_emulate_call c, ReturnedBool false) t.
Proof.
  revert last. induction t as [|[c' o'] t IH]; intros last Hg Hin;
    [destruct Hin|].
  destruct Hin as [Heq|Hin].
  - inversion Heq; subst. cbn in Hg.
    destruct last as [[cls' []]|]; try discriminate Hg.
    apply andb_prop in Hg. destruct Hg as [Hg _].
    apply strategy_eqb_eq in Hg. subst. now left.
  - destruct c'; cbn in Hg;
      try (destruct (IH last Hg Hin) as [H|H]; [now left | now right; right]).
    + (* a preparation *)
      destruct (IH _ Hg Hin) as [H|H]; [|now right; right].
      destruct o'; try discriminate H. inversion H; subst.
      right. now left.
    + (* an execution *)
      destruct last as [[cls' []]|]; try discriminate Hg.
      apply andb_prop in Hg. destruct Hg as [_ Hg].
      destruct (IH _ Hg Hin) as [H|H]; [discriminate H | now right; right].
Qed.

(** The loop returns only through [execute()]. *)
Lemma _execute_retry_returns (cls : Strategy) (n : nat) (retry : Z)
    (s : store) (r : NeonTxResultInfo) :
  returned (_execute_retry outside cls n retry s) = Ok r ->
  exists o,
    In (execute_call cls, o) (events (_execute_retry outside cls n retry s)).
Proof.
  revert retry s. induction n as [|n IH]; intros retry s; [discriminate|].
  rewrite _execute_retry_pass.
  destruct (returned (_prepare outside cls retry s)) as [[]|e];
    cbn [returned final events]; [| |discriminate].
  - intros H. destruct (IH _ _ H) as (o & Ho). exists o.
    apply in_or_app. now right.
  - intros _.
    destruct (execute_step_events cls (final (_prepare outside cls retry s)))
      as (o1 & o2 & ->).
    exists o1. apply in_or_app. right. now left.
Qed.

(** When every pass changes something, the loop runs out. *)
Lemma _execute_retry_exhausted (cls : Strategy) (n : nat) (retry : Z)
    (s : store) :
  always_changes outside cls n retry s ->
  let run := _execute_retry outside cls n retry s in
  returned run = Raise NoMoreRetriesError
  /\ (forall c o, ~ In (execute_call c, o) (events run))
  /\ List.length (filter (fun e => is_prep_call (fst e)) (events run)) = n.
Proof.
  revert retry s. induction n as [|n IH]; intros retry s Hall.
  - cbn. repeat split. intros c o [].
  - destruct Hall as [Hret Hall]. cbn zeta.
    rewrite _execute_retry_pass, Hret. cbn [returned final events].
    destruct (IH _ _ Hall) as (Hr & Hne & Hlen).
    destruct (_prepare_events cls retry s) as (o & q & Hev & Hq & _).
    rewrite Hev. split; [exact Hr|]. split.
    + intros c o' [Heq|Hin]; [discriminate Heq|].
      apply in_app_or in Hin. destruct Hin as [Hin|Hin].
      * now apply (quiet_not_execute q c o').
      * now apply (Hne c o').
    + cbn [app filter fst is_prep_call List.length].
      rewrite filter_app, quiet_filter by assumption. cbn [app].
      f_equal. exact Hlen.
Qed.

Lemma _execute_run (idx : nat) (cls : Strategy) (s : store) :
  _execute outside idx cls s
  = match complete_init outside cls s with
    | (Ok _, s1) =>
        let r :=
          _execute_retry outside cls (Z.to_nat (retry_on_fail (fst s1))) 0
            (set_strategy_idx (fst s1) idx, snd s1) in
        mkRun (returned r) (final r)
          ((complete_init_call cls, Returned) :: events r)
    | (Raise e, s1) =>
        mkRun (Raise e) s1 [(complete_init_call cls, Raised e)]
    end.
Proof.
  unfold _execute. unfold bind at 1. rewrite external_run.
  destruct (complete_init outside cls s) as [[[]|e] s1]; reflexivity.
Qed.

(** ** The whole ladder keeps executions behind their preparations *)

Ltac emits_guarded :=
  repeat first
    [ assumption
    | apply Guarded_nil
    | apply Guarded_app
    | emits_step
    | apply Guarded_quiet; reflexivity ].

Lemma _init_state_tx_cnt_guarded : emits Guarded (_init_state_tx_cnt outside).
Proof. unfold _init_state_tx_cnt. emits_guarded. Qed.

Lemma _execute_guarded (idx : nat) (cls : Strategy) :
  emits Guarded (_execute outside idx cls).
Proof.
  unfold _execute.
  emits_guarded. intros s. apply _execute_retry_guarded.
Qed.

Lemma attempt_guarded (idx : nat) (cls : Strategy) :
  emits Guarded (attempt outside idx cls).
Proof.
  pose proof (_execute_guarded idx cls) as He.
  pose proof _init_state_tx_cnt_guarded as Hi.
  unfold attempt, attempt_body, on_exception, _cancel. emits_guarded.
Qed.

Lemma execute_from_guarded (l : list Strategy) (idx : nat) :
  emits Guarded (execute_from outside l idx).
Proof.
  revert idx. induction l as [|cls rest IH]; intros idx; cbn [execute_from].
  - emits_guarded.
  - pose proof (attempt_guarded idx cls) as Ha. specialize (IH (S idx)).
    emits_guarded.
Qed.

Lemma execute_guarded_run (s : store) :
  execute_guarded None (events (execute outside s)) = true.
Proof.
  apply Guarded_safe. revert s.
  change (emits Guarded (execute outside)). unfold execute, _validate_nonce.
  pose proof _init_state_tx_cnt_guarded as Hi.
  emits_guarded. apply execute_from_guarded.
Qed.

(** C6 (as amended). For a selected strategy, on the store [s] where
    [_execute] starts:
    - if each of the [retry_on_fail] passes of the retry loop completes its
      preparation with [has_changes] true, [_execute] makes exactly
      [retry_on_fail] calls of [prep_before_emulate()], never calls
      [execute()] and raises [NoMoreRetriesError];
    - if no [prep_before_emulate()] of the run returned [False], [execute()]
      is never called and [_execute] ends by raising;
    - every call of [execute()], in [_execute] and in the whole run of the
      ladder, comes after a [prep_before_emulate()] of the same strategy
      that returned [False], with no other preparation in between. *)
Theorem C6_retries_exhausted (idx : nat) (cls : Strategy) (s : store) :
  let run := _execute outside idx cls s in
  (forall s1,
      complete_init outside cls s = (Ok tt, s1) ->
      let n := Z.to_nat (retry_on_fail (fst s1)) in
      always_changes outside cls n 0 (set_strategy_idx (fst s1) idx, snd s1) ->
      returned run = Raise NoMoreRetriesError
      /\ (forall c o, ~ In (execute_call c, o) (events run))
      /\ List.length (filter (fun e => is_prep_call (fst e)) (events run)) = n)
  /\ ((forall c, ~ In (prep_before_emulate_call c, ReturnedBool false)
                   (events run)) ->
      (forall c o, ~ In (execute_call c, o) (events run))
      /\ exists e, returned run = Raise e)
  /\ (forall c o,
         In (execute_call c, o) (events run) ->
         In (prep_before_emulate_call c, ReturnedBool false) (events run))
  /\ execute_guarded None (events run) = true
  /\ (forall s', execute_guarded None (events (execute outside s')) = true).
Proof.
  intros run.
  assert (Hg : execute_guarded None (events run) = true)
    by (apply Guarded_safe, _execute_guarded).
  assert (Hprep : forall c o,
             In (execute_call c, o) (events run) ->
             In (prep_before_emulate_call c, ReturnedBool false) (events run)).
  { intros c o Hin.
    destruct (guarded_execute_prepared _ _ c o Hg Hin) as [H|H];
      [discriminate H | exact H]. }
  split; [|split; [|split; [|split]]].
  - intros s1 Hinit n Hall. subst run. rewrite _execute_run, Hinit.
    cbn [returned final events].
    destruct (_execute_retry_exhausted cls n 0 _ Hall) as (Hr & Hne & Hlen).
    split; [exact Hr|]. split.
    + intros c o [Heq|Hin]; [discriminate Heq | now apply (Hne c o)].
    + cbn [filter fst is_prep_call]. exact Hlen.
  - intros Hnone. split.
    + intros c o Hin. apply (Hnone c). now apply (Hprep c o).
    + subst run. rewrite _execute_run in *.
      destruct (complete_init outside cls s) as [[[]|e] s1];
        [|eexists; reflexivity].
      cbn [returned final events] in *.
      match goal with
      | |- exists e, returned ?r = Raise e =>
          destruct (returned r) as [res|e] eqn:E; [|eexists; reflexivity]
      end.
      exfalso. apply _execute_retry_returns in E. destruct E as (o & Ho).
      apply (Hnone cls). apply (Hprep cls o). now right.
  - exact Hprep.
  - exact Hg.
  - apply execute_guarded_run.
Qed.

End ExecutorFacts.

(** ** The ladder on scripted strategies *)

Section LadderRuns.
Import NeonTxSender LadderExample.

(** The sender's count is 5 and the nonce 3: the opening check refuses the
    transaction before any strategy is built. *)
Lemma C1_nonce_precheck_witness :
  completed_receipt (fresh_ctx 3) = false
  /\ get_state_tx_cnt (scripted nonce_behind) "0xabc" 0%nat = (Ok 5, 1%nat)
  /\ execute (scripted nonce_behind) (fresh_ctx 3, 0%nat)
     = mkRun (outside := scripted nonce_behind)
         (Raise (NonceTooLowError "0xabc" 3 5))
         (set_state_tx_cnt (fresh_ctx 3) 5, 1%nat)
         [(get_state_tx_cnt_call, ReturnedInt 5)].
Proof.
  split; [reflexivity|]. split; [reflexivity|].
  destruct (C1_nonce_precheck (scripted nonce_behind) (fresh_ctx 3, 0%nat))
    as (_ & _ & H).
  destruct (H eq_refl 5 1%nat eq_refl) as (_ & _ & _ & _ & _ & Hlow & _).
  apply Hlow. cbn. lia.
Defined.

(** [execute()] of the first strategy raises [WrongStrategyError] with no
    receipt: the loop goes on with the second strategy. *)
Lemma C2_wrong_strategy_witness :
  strategy_new (scripted early_wrong_strategy) SimpleNeonTxStrategy (checked 3)
  = (Ok tt, checked 3)
  /\ returned (attempt_body (scripted early_wrong_strategy) 0
                 SimpleNeonTxStrategy (checked 3))
     = Raise WrongStrategyError
  /\ completed_receipt
       (fst (final (attempt_body (scripted early_wrong_strategy) 0
                      SimpleNeonTxStrategy (checked 3))))
     = false
  /\ exists t,
      events (execute_from (scripted early_wrong_strategy)
                [SimpleNeonTxStrategy; ALTSimpleNeonTxStrategy] 0 (checked 3))
      = (new_call SimpleNeonTxStrategy, Returned)
          :: (events (attempt_body (scripted early_wrong_strategy) 0
                        SimpleNeonTxStrategy (checked 3))
              ++ [(get_state_tx_cnt_call, ReturnedInt 3)])
          ++ (new_call ALTSimpleNeonTxStrategy, Returned) :: t.
Proof.
  pose (outside := scripted early_wrong_strategy).
  pose (s := checked 3 : Store outside).
  assert (Hnew : strategy_new outside SimpleNeonTxStrategy s = (Ok tt, s))
    by reflexivity.
  assert (Hbody : returned (attempt_body outside 0 SimpleNeonTxStrategy s)
                  = Raise WrongStrategyError) by reflexivity.
  split; [exact Hnew|]. split; [exact Hbody|]. split; [reflexivity|].
  destruct (C2_wrong_strategy outside 0 SimpleNeonTxStrategy
              [ALTSimpleNeonTxStrategy] s s Hnew Hbody) as (_ & Hgo & _).
  fold outside. change (checked 3) with s.
  rewrite (Hgo eq_refl 3 3%nat eq_refl). cbn [events].
  eexists. f_equal. f_equal. vm_compute. reflexivity.
Defined.

(** C2 as stated fails.  First run: [execute()] raises
    [WrongStrategyError] with a completed receipt, [cancel()] is called and
    raises [RescheduleError]: the caller gets [RescheduleError].  Second
    run: [execute()] raises [WrongStrategyError] with no completed receipt,
    the closing refresh of [state_tx_cnt] fails: the ladder stops with that
    failure and the next strategy is never built. *)
Lemma C2_counterexample :
  (returned (attempt_body (scripted late_wrong_strategy) 0
               SimpleNeonTxStrategy (checked 3))
   = Raise WrongStrategyError
   /\ completed_receipt
        (fst (final (attempt_body (scripted late_wrong_strategy) 0
                       SimpleNeonTxStrategy (checked 3))))
      = true
   /\ In (execute_call SimpleNeonTxStrategy, Raised WrongStrategyError)
        (events (execute (scripted late_wrong_strategy) (fresh_ctx 3, 0%nat)))
   /\ In (cancel_call SimpleNeonTxStrategy, Raised RescheduleError)
        (events (execute (scripted late_wrong_strategy) (fresh_ctx 3, 0%nat)))
   /\ returned (execute (scripted late_wrong_strategy) (fresh_ctx 3, 0%nat))
      = Raise RescheduleError
   /\ returned (execute (scripted late_wrong_strategy) (fresh_ctx 3, 0%nat))
      <> Raise WrongStrategyError)
  /\ (returned (attempt_body (scripted early_wrong_strategy_rpc_down) 0
                  SimpleNeonTxStrategy (checked 3))
      = Raise WrongStrategyError
      /\ completed_receipt
           (fst (final (attempt_body (scripted early_wrong_strategy_rpc_down)
                          0 SimpleNeonTxStrategy (checked 3))))
         = false
      /\ returned (execute (scripted early_wrong_strategy_rpc_down)
                     (fresh_ctx 3, 0%nat))
         = Raise (OtherException "rpc")
      /\ forall cls o,
           cls <> SimpleNeonTxStrategy ->
           ~ In (new_call cls, o)
               (events (execute (scripted early_wrong_strategy_rpc_down)
                          (fresh_ctx 3, 0%nat)))).
Proof.
  split.
  - split; [reflexivity|]. split; [reflexivity|].
    split; [vm_compute; tauto|]. split; [vm_compute; tauto|].
    split; [reflexivity|]. vm_compute. discriminate.
  - split; [reflexivity|]. split; [reflexivity|].
    split; [reflexivity|].
    intros cls o Hcls Hin. vm_compute in Hin.
    repeat (destruct Hin as [Hin|Hin]; [inversion Hin; congruence|]).
    exact Hin.
Qed.

(** Two passes, each changing something: [_execute] runs out of retries. *)
Lemma C6_retries_exhausted_witness :
  complete_init (scripted always_changing) SimpleNeonTxStrategy (checked 2)
  = (Ok tt, checked 2)
  /\ always_changes (scripted always_changing) SimpleNeonTxStrategy 2 0
       (checked 2)
  /\ returned (_execute (scripted always_changing) 0 SimpleNeonTxStrategy
                 (checked 2))
     = Raise NoMoreRetriesError
  /\ (forall c o,
         ~ In (execute_call c, o)
             (events (_execute (scripted always_changing) 0
                        SimpleNeonTxStrategy (checked 2))))
  /\ List.length
       (filter (fun e => is_prep_call (fst e))
          (events (_execute (scripted always_changing) 0
                     SimpleNeonTxStrategy (checked 2))))
     = 2%nat.
Proof.
  pose (outside := scripted always_changing).
  pose (s := checked 2 : Store outside).
  assert (Hinit : complete_init outside SimpleNeonTxStrategy s = (Ok tt, s))
    by reflexivity.
  assert (Hall : always_changes outside SimpleNeonTxStrategy 2 0 s)
    by (cbn [always_changes]; repeat split; reflexivity).
  split; [exact Hinit|]. split; [exact Hall|].
  destruct (C6_retries_exhausted outside 0 SimpleNeonTxStrategy s)
    as (Hex & _).
  exact (Hex s Hinit Hall).
Defined.

(** C6 as stated fails: with [retry_on_fail = 1], the one pass of the retry
    loop gets [True] from [prep_before_emulate()], then the emulation
    checks the nonce again against a count that has moved to 5:
    [_execute], and the ladder with it, fails with [NonceTooLowError], not
    with [NoMoreRetriesError]. *)
Lemma C6_counterexample :
  retry_on_fail (fst (checked 1)) = 1
  /\ filter (fun e => is_prep_call (fst e))
       (events (_execute (scripted always_changing_nonce_moves) 0
                  SimpleNeonTxStrategy (checked 1)))
     = [(prep_before_emulate_call SimpleNeonTxStrategy, ReturnedBool true)]
  /\ returned (_execute (scripted always_changing_nonce_moves) 0
                 SimpleNeonTxStrategy (checked 1))
     = Raise (NonceTooLowError "0xabc" 3 5)
  /\ returned (_execute (scripted always_changing_nonce_moves) 0
                 SimpleNeonTxStrategy (checked 1))
     <> Raise NoMoreRetriesError
  /\ filter (fun e => is_prep_call (fst e))
       (events (execute (scripted always_changing_nonce_moves)
                  (fresh_ctx 1, 0%nat)))
     = [(prep_before_emulate_call SimpleNeonTxStrategy, ReturnedBool true)]
  /\ returned (execute (scripted always_changing_nonce_moves)
                 (fresh_ctx 1, 0%nat))
     = Raise (NonceTooLowError "0xabc" 3 5).
Proof.
  repeat split; try reflexivity. vm_compute. discriminate.
Qed.

End LadderRuns.

(** * The RPC worker: [eth_getTransactionCount] *)

Section PrintFacts.
Import Py NeonRpcApiWorker.
Local Open Scope string_scope.

(** A number within the limit on the digits is printed. *)
Lemma format_int_printable (n : Z) :
  printable n -> format_int n = Ok (str_of_int n).
Proof.
  unfold printable, format_int. intros H.
  destruct (Z.leb_spec (10 ^ Z.of_N max_str_digits) (Z.abs n)) as [Hle|_];
    [|reflexivity].
  exfalso. revert H Hle. generalize (10 ^ Z.of_N max_str_digits).
  intros limit H Hle. lia.
Qed.

(** A number beyond the limit is not: [ValueError]. *)
Lemma format_int_unprintable (n : Z) :
  ~ printable n -> format_int n = Raise ValueError.
Proof.
  unfold printable, format_int. intros H.
  destruct (Z.leb_spec (10 ^ Z.of_N max_str_digits) (Z.abs n)) as [_|Hlt];
    [reflexivity|].
  contradiction.
Qed.

Lemma format_opt_int_printable (n : option Z) :
  (forall v, n = Some v -> printable v) ->
  exists text, format_opt_int n = Ok text.
Proof.
  intros H. destruct n as [v|]; cbn; [|eauto].
  rewrite format_int_printable by auto. eauto.
Qed.

(** What [except (Exception,)] does with the outcome of its body. *)
Lemma except_Exception_cases {A : Type} (body handler : result A) :
  match body with
  | Ok v => except_Exception body handler = Ok v
  | Raise e =>
      if is_Exception e then except_Exception body handler = handler
      else except_Exception body handler = Raise e
  end.
Proof.
  destruct body as [v|e]; cbn; [reflexivity|].
  destruct (is_Exception e); reflexivity.
Qed.

Lemma tag_is_other (tag : Tag) (name : string) :
  tag <> TagStr name -> tag_is tag name = false.
Proof.
  intros Hne. destruct tag as [t|n|d]; [|reflexivity|reflexivity]. cbn.
  destruct (String.eqb_spec t name); [subst; congruence|reflexivity].
Qed.

End PrintFacts.

Section WorkerFacts.
Import Py NeonRpcApiWorker.
Local Open Scope string_scope.

Context {SolBlockInfo : Type}.
Variable is_empty : SolBlockInfo -> result bool.
Variable get_block_by_hash : string -> result SolBlockInfo.
Variable get_block_by_slot : Json -> result SolBlockInfo.
Variable repr : Json -> result string.
Variable get_pending_tx_nonce : string -> string -> result (option Z).
Variable get_mempool_tx_nonce : string -> string -> result (option Z).
Variable get_state_tx_cnt : string -> SolCommit -> result Z.
Variable get_req_id_from_log : string.

Local Abbreviation validate_block_tag :=
  (_validate_block_tag is_empty get_block_by_hash get_block_by_slot repr).
Local Abbreviation format_tag := (NeonRpcApiWorker.format_tag repr).
Local Abbreviation transaction_count :=
  (eth_getTransactionCount is_empty get_block_by_hash get_block_by_slot repr
     get_pending_tx_nonce get_mempool_tx_nonce get_state_tx_cnt
     get_req_id_from_log).
Local Abbreviation mempool_query :=
  (NeonRpcApiWorker.mempool_query get_pending_tx_nonce get_mempool_tx_nonce
     get_req_id_from_log).

(** The steps of the [try] block, in their order: the first log line, the
    mempool query of the tag, its log line, the test of the tag against
    [{'finalized', 'safe'}], and the Chain query. *)
Lemma eth_getTransactionCount_run (account : string) (tag : Tag)
    (address : string) :
  validate_block_tag tag = Ok tt ->
  _normalize_address account "address" = Ok address ->
  transaction_count account tag
  = except_Exception
      (rbind (format_tag tag) (fun _ =>
       rbind (mempool_query tag (str_lower address)) (fun pending =>
       rbind (format_opt_int pending) (fun _ =>
       rbind (tag_in tag ["finalized"; "safe"]) (fun _ =>
       rbind (get_state_tx_cnt (str_lower address) (commitment_of tag))
         (fun tx_cnt =>
       Ok (hex (Z.max tx_cnt
                  match pending with Some n => n | None => 0 end))))))))
      (Ok (hex 0)).
Proof.
  intros Htag Haddr.
  unfold eth_getTransactionCount, NeonRpcApiWorker.mempool_query,
    commitment_of.
  rewrite Htag, Haddr. cbn [rbind]. f_equal.
  destruct (format_tag tag) as [text|e]; cbn [rbind]; [|reflexivity].
  destruct tag as [s|n|d]; cbn [tag_is tag_in existsb orb rbind];
    [|reflexivity|reflexivity].
  destruct (s =? "pending"); cbn [orb rbind].
  - destruct (get_pending_tx_nonce _ _) as [p|e]; cbn [rbind]; [|reflexivity].
    destruct (format_opt_int p); reflexivity.
  - destruct (s =? "latest"); cbn [orb rbind].
    + destruct (get_mempool_tx_nonce _ _) as [p|e]; cbn [rbind];
        [|reflexivity].
      destruct (format_opt_int p); reflexivity.
    + rewrite orb_false_r.
      destruct ((s =? "finalized") || (s =? "safe")); reflexivity.
Qed.

(** An accepted block object is answered [0x0]: the test of a [dict]
    against a set raises [TypeError] inside the [try] block, before the
    Chain is asked. *)
Lemma eth_getTransactionCount_block_object (account : string)
    (fields : Dict) (address : string) :
  validate_block_tag (TagDict fields) = Ok tt ->
  _normalize_address account "address" = Ok address ->
  (forall e, repr (JDict fields) = Raise e -> is_Exception e = true) ->
  transaction_count account (TagDict fields) = Ok "0x0".
Proof.
  intros Htag Haddr Hrepr.
  rewrite (eth_getTransactionCount_run account _ address Htag Haddr).
  cbn [NeonRpcApiWorker.format_tag NeonRpcApiWorker.mempool_query tag_is
       tag_in rbind format_opt_int].
  destruct (repr (JDict fields)) as [text|e] eqn:E; cbn [rbind];
    [reflexivity|].
  cbn [except_Exception]. now rewrite (Hrepr e eq_refl).
Qed.



End WorkerFacts.

Section WorkerRuns.
Import Py NeonRpcApiWorker WorkerExample.
Local Open Scope string_scope.

Local Abbreviation validate_block_tag :=
  (_validate_block_tag is_empty get_block_by_hash get_block_by_slot repr).
Local Abbreviation transaction_count :=
  (eth_getTransactionCount is_empty get_block_by_hash get_block_by_slot repr).

Lemma account_accepted :
  _normalize_address account "address" = Ok checksum_account.
Proof. vm_compute. reflexivity. Defined.

Lemma twelve_printable : printable 12.
Proof. unfold printable. cbn [Z.abs]. vm_compute. reflexivity. Defined.

Lemma nine_printable (n : Z) : Some 9 = Some n -> printable n.
Proof.
  intros [= <-]. unfold printable. cbn [Z.abs]. vm_compute. reflexivity.
Defined.


(** The block object of slot 5 is accepted and answered [0x0], while the
    sender's count at [Confirmed] is 6; so is a tag of 4301 digits; and so
    is [pending] when the nonce of the mempool has 4301 digits. *)
Lemma C8_counterexample :
  (validate_block_tag block_5 = Ok tt
   /\ _normalize_address account "address" = Ok checksum_account
   /\ get_state_tx_cnt (str_lower checksum_account) Confirmed = Ok 6
   /\ transaction_count get_pending_tx_nonce get_mempool_tx_nonce
        get_state_tx_cnt req_id account block_5
      = Ok "0x0"
   /\ transaction_count get_pending_tx_nonce get_mempool_tx_nonce
        get_state_tx_cnt req_id account block_5
      <> Ok (hex 6))
  /\ (validate_block_tag (TagInt huge) = Ok tt
      /\ transaction_count get_pending_tx_nonce get_mempool_tx_nonce
           get_state_tx_cnt req_id account (TagInt huge)
         = Ok "0x0"
      /\ transaction_count get_pending_tx_nonce get_mempool_tx_nonce
           get_state_tx_cnt req_id account (TagInt huge)
         <> Ok (hex 6))
  /\ (transaction_count (fun _ _ => Ok (Some huge)) get_mempool_tx_nonce
        get_state_tx_cnt req_id account (TagStr "pending")
      = Ok "0x0"
      /\ get_state_tx_cnt (str_lower checksum_account) Processed = Ok 7
      /\ hex (Z.max 7 huge) <> "0x0").
Proof.
  assert (H5 : transaction_count get_pending_tx_nonce get_mempool_tx_nonce
                 get_state_tx_cnt req_id account block_5 = Ok "0x0")
    by (vm_compute; reflexivity).
  assert (Hh : transaction_count get_pending_tx_nonce get_mempool_tx_nonce
                 get_state_tx_cnt req_id account (TagInt huge) = Ok "0x0")
    by (vm_compute; reflexivity).
  split; [|split].
  - split; [reflexivity|]. split; [exact account_accepted|].
    split; [reflexivity|]. split; [exact H5|].
    rewrite H5. discriminate.
  - split; [reflexivity|]. split; [exact Hh|]. rewrite Hh. discriminate.
  - split; [vm_compute; reflexivity|]. split; [reflexivity|].
    intros H. pose proof (Z.le_max_l 7 huge) as Hle.
    pose proof (int_of_hex (Z.max 7 huge) ltac:(lia)) as Hread.
    rewrite H in Hread. change (int_of_str 16 "0x0") with (Some 0) in Hread.
    injection Hread as Hread. lia.
Qed.


(** With a Chain client that is interrupted, [eth_getTransactionCount]
    raises: the [KeyboardInterrupt] is no [Exception], and the text [0x0]
    is not returned. *)
Lemma C10_counterexample :
  validate_block_tag (TagInt 12) = Ok tt
  /\ _normalize_address account "address" = Ok checksum_account
  /\ interrupted_state_tx_cnt (str_lower checksum_account) Confirmed
     = Raise (NotException "KeyboardInterrupt")
  /\ transaction_count get_pending_tx_nonce get_mempool_tx_nonce
       interrupted_state_tx_cnt req_id account (TagInt 12)
     = Raise (NotException "KeyboardInterrupt")
  /\ transaction_count get_pending_tx_nonce get_mempool_tx_nonce
       interrupted_state_tx_cnt req_id account (TagInt 12)
     <> Ok "0x0".
Proof.
  assert (H : transaction_count get_pending_tx_nonce get_mempool_tx_nonce
                interrupted_state_tx_cnt req_id account (TagInt 12)
              = Raise (NotException "KeyboardInterrupt"))
    by (vm_compute; reflexivity).
  split; [reflexivity|]. split; [exact account_accepted|].
  split; [reflexivity|]. split; [exact H|]. rewrite H. discriminate.
Qed.

End WorkerRuns.

(** * The RPC worker: addresses *)

Section AddressFacts.
Import Py EthUtils NeonRpcApiWorker.
Local Open Scope string_scope.

(** ** Characters *)

Ltac by_cases_on_char c :=
  destruct c as [[] [] [] [] [] [] [] []]; vm_compute; try reflexivity;
  try discriminate; try congruence.

Lemma char_lower_idem (c : ascii) : char_lower (char_lower c) = char_lower c.
Proof. by_cases_on_char c. Qed.

Lemma hex_digit_no_space (c : ascii) :
  hex_digit_value c <> None -> Py_ISSPACE c = false.
Proof. by_cases_on_char c. Qed.

Lemma hex_digit_not_x (c : ascii) :
  hex_digit_value c <> None -> c <> "x"%char /\ c <> "X"%char.
Proof. by_cases_on_char c; split; discriminate. Qed.

Lemma char_upper_hex (c : ascii) :
  hex_digit_value c <> None -> hex_digit_value (char_upper c) <> None.
Proof. by_cases_on_char c. Qed.

Lemma char_lower_upper (c : ascii) :
  char_lower c = c -> char_lower (char_upper c) = c.
Proof. by_cases_on_char c. Qed.

(** ** Texts *)

Lemma str_lower_idem (s : string) : str_lower (str_lower s) = str_lower s.
Proof.
  induction s as [|c s IH]; [reflexivity|].
  cbn [str_lower]. now rewrite char_lower_idem, IH.
Qed.

Lemma str_take_drop (n : nat) (s : string) : str_take n s ++ str_drop n s = s.
Proof.
  revert s. induction n as [|n IH]; intros s; [reflexivity|].
  destruct s as [|c s]; [reflexivity|]. cbn. now rewrite IH.
Qed.

Lemma all_hex_digits_cons (c : ascii) (s : string) :
  all_hex_digits (String c s) = true ->
  hex_digit_value c <> None /\ all_hex_digits s = true.
Proof.
  cbn [all_hex_digits]. destruct (hex_digit_value c); [|discriminate].
  split; [discriminate|assumption].
Qed.

(** Forty hexadecimal digits are twenty bytes for [bytes.fromhex]. *)
Lemma bytes_fromhex_digits (n : nat) (h : string) :
  String.length h = (2 * n)%nat ->
  all_hex_digits h = true ->
  exists bs, bytes_fromhex h = Some bs /\ List.length bs = n.
Proof.
  revert h. induction n as [|n IH]; intros h Hlen Hhex.
  - destruct h; [|discriminate Hlen]. exists []. now split.
  - destruct h as [|c [|d r]]; cbn [String.length] in Hlen; try lia.
    apply all_hex_digits_cons in Hhex. destruct Hhex as [Hc Hhex].
    apply all_hex_digits_cons in Hhex. destruct Hhex as [Hd Hhex].
    destruct (IH r) as (bs & Hbs & Hl); [lia | assumption |].
    cbn [bytes_fromhex]. rewrite (hex_digit_no_space c Hc).
    destruct (hex_digit_value c) as [top|]; [|congruence].
    destruct (hex_digit_value d) as [bot|]; [|congruence].
    rewrite Hbs. eexists. split; [reflexivity|]. cbn. now rewrite Hl.
Qed.

Lemma all_hex_not_prefixed (h : string) :
  all_hex_digits h = true -> is_0x_prefixed h = false.
Proof.
  intros Hhex. unfold is_0x_prefixed.
  destruct h as [|c [|d r]]; try reflexivity.
  - destruct c as [[] [] [] [] [] [] [] []]; reflexivity.
  - apply all_hex_digits_cons in Hhex. destruct Hhex as [_ Hhex].
    apply all_hex_digits_cons in Hhex. destruct Hhex as [Hd _].
    apply hex_digit_not_x in Hd. destruct Hd as [Hx HX].
    cbn [str_take String.eqb].
    destruct (Ascii.eqb_spec d "x"); [congruence|].
    destruct (Ascii.eqb_spec d "X"); [congruence|].
    now destruct (c =? "0")%char.
Qed.

Lemma prefixed_no_bytes (h : string) :
  is_0x_prefixed h = true -> bytes_fromhex h = None.
Proof.
  unfold is_0x_prefixed. intros H. apply orb_prop in H.
  rewrite <- (str_take_drop 2 h).
  destruct H as [H|H]; apply String.eqb_eq in H; rewrite H; reflexivity.
Qed.

(** ** The checksum case *)

Lemma checksum_chars_hex (h : string) (ns : list N) :
  all_hex_digits h = true -> all_hex_digits (checksum_chars h ns) = true.
Proof.
  revert ns. induction h as [|c h IH]; intros ns Hhex; [reflexivity|].
  apply all_hex_digits_cons in Hhex. destruct Hhex as [Hc Hhex].
  destruct ns as [|n ns]; [reflexivity|].
  cbn [checksum_chars all_hex_digits].
  assert (Hc' : hex_digit_value (if (7 <? n)%N then char_upper c else c)
                <> None)
    by (destruct (7 <? n)%N; [now apply char_upper_hex | assumption]).
  destruct (hex_digit_value (if (7 <? n)%N then char_upper c else c));
    [now apply IH | congruence].
Qed.

Lemma checksum_chars_length (h : string) (ns : list N) :
  (String.length h <= List.length ns)%nat ->
  String.length (checksum_chars h ns) = String.length h.
Proof.
  revert ns. induction h as [|c h IH]; intros ns Hlen; [reflexivity|].
  destruct ns as [|n ns]; [cbn in Hlen; lia|].
  cbn [checksum_chars String.length]. rewrite IH; [reflexivity|].
  cbn in Hlen. lia.
Qed.

Lemma checksum_chars_lower (h : string) (ns : list N) :
  (String.length h <= List.length ns)%nat ->
  str_lower h = h ->
  str_lower (checksum_chars h ns) = h.
Proof.
  revert ns. induction h as [|c h IH]; intros ns Hlen Hlow; [reflexivity|].
  destruct ns as [|n ns]; [cbn in Hlen; lia|].
  cbn [str_lower] in Hlow. injection Hlow as Hc Hh.
  cbn [checksum_chars str_lower]. rewrite IH by (cbn in Hlen; lia || assumption).
  f_equal. destruct (7 <? n)%N; [now apply char_lower_upper | assumption].
Qed.

(** ** The length of a Keccak-256 hash *)

Lemma round_length (st : list N) (rc : N) :
  List.length (Keccak.round st rc) = 25%nat.
Proof.
  unfold Keccak.round, Keccak.chi.
  destruct (map _ Keccak.indices) as [|a l] eqn:E.
  - apply (f_equal (@List.length N)) in E. rewrite length_map in E.
    discriminate E.
  - cbn [Keccak.iota List.length].
    apply (f_equal (@List.length N)) in E. rewrite length_map in E.
    cbn [List.length] in E. cbn in E. lia.
Qed.

Lemma keccak_f_length (st : list N) : List.length (Keccak.keccak_f st) = 25%nat.
Proof.
  unfold Keccak.keccak_f.
  change Keccak.round_constants
    with (removelast Keccak.round_constants ++ [0x8000000080008008%N])%list.
  rewrite fold_left_app. cbn [fold_left]. apply round_length.
Qed.

Lemma absorb_length (k : nat) (bs : bytes) (st : list N) :
  List.length st = 25%nat -> List.length (Keccak.absorb k bs st) = 25%nat.
Proof.
  revert bs st. induction k as [|k IH]; intros bs st Hst; [exact Hst|].
  cbn [Keccak.absorb]. apply IH, keccak_f_length.
Qed.

Lemma keccak256_length (msg : bytes) :
  List.length (Keccak.keccak256 msg) = 32%nat.
Proof.
  unfold Keccak.keccak256.
  set (st := Keccak.absorb _ _ _).
  assert (Hst : List.length st = 25%nat)
    by (apply absorb_length, repeat_length).
  destruct st as [|a [|b [|c [|d st]]]]; try discriminate Hst.
  cbn [firstn flat_map]. rewrite !length_app.
  unfold Keccak.bytes_of_lane. reflexivity.
Qed.

Lemma nibbles_length (bs : bytes) :
  List.length (nibbles bs) = (2 * List.length bs)%nat.
Proof.
  unfold nibbles. induction bs as [|b bs IH]; [reflexivity|].
  cbn [flat_map List.length app]. rewrite IH. lia.
Qed.

(** ** [to_checksum_address] on the text the worker hands it *)

Lemma to_normalized_address_digits (h : string) :
  String.length h = 40%nat -> all_hex_digits h = true -> str_lower h = h ->
  to_normalized_address h = Ok ("0x" ++ h).
Proof.
  intros Hlen Hhex Hlow.
  pose proof (all_hex_not_prefixed h Hhex) as Hpre.
  unfold to_normalized_address.
  assert (Hstr : is_hexstr h = true).
  { unfold is_hexstr, remove_0x_prefix. rewrite Hpre.
    destruct h; [discriminate Hlen | exact Hhex]. }
  rewrite Hstr. cbn [negb andb]. rewrite andb_false_r.
  rewrite Hlow. unfold add_0x_prefix. rewrite Hpre.
  assert (Hl2 : str_lower ("0x" ++ h) = "0x" ++ h)
    by (cbn; now rewrite Hlow).
  rewrite Hl2.
  assert (Haddr : is_hex_address ("0x" ++ h) = true).
  { unfold is_hex_address, is_hexstr. cbn. rewrite Hhex, Hlen. reflexivity. }
  now rewrite Haddr.
Qed.

Lemma to_checksum_address_digits (h : string) :
  String.length h = 40%nat -> all_hex_digits h = true -> str_lower h = h ->
  to_checksum_address h = Ok (checksum_case h).
Proof.
  intros Hlen Hhex Hlow. unfold to_checksum_address.
  rewrite (to_normalized_address_digits h Hlen Hhex Hlow).
  change (remove_0x_prefix ("0x" ++ h)) with h.
  unfold add_0x_prefix.
  rewrite (all_hex_not_prefixed _ (checksum_chars_hex h _ Hhex)).
  reflexivity.
Qed.

Lemma to_checksum_address_inv (h r : string) :
  is_0x_prefixed h = false -> str_lower h = h ->
  to_checksum_address h = Ok r ->
  String.length h = 40%nat /\ all_hex_digits h = true.
Proof.
  intros Hpre Hlow. unfold to_checksum_address, to_normalized_address.
  destruct (negb (remove_0x_prefix h =? "") && negb (is_hexstr h));
    [discriminate|].
  rewrite Hlow. unfold add_0x_prefix. rewrite Hpre.
  assert (Hl2 : str_lower ("0x" ++ h) = "0x" ++ h)
    by (cbn; now rewrite Hlow).
  rewrite Hl2.
  destruct (is_hex_address ("0x" ++ h)) eqn:E; [|discriminate].
  intros _. unfold is_hex_address, is_hexstr in E. cbn in E.
  apply andb_prop in E. destruct E as [E1 E2].
  apply Nat.eqb_eq in E2. now split.
Qed.

(** C9 (as amended). [_normalize_address] trims the white space around the
    text and puts it in lower case.  When what is left is [0x] followed by
    forty hexadecimal digits [h] (twenty bytes), it returns [0x] followed by
    [h] in the checksum case of EIP-55: 42 characters that differ from the
    trimmed text in the case of letters only.  On every other input it
    raises [InvalidParamError] with the message [bad <field>: <input>]. *)
Theorem C9_normalize_address (raw_address address_type : string) :
  let trimmed := str_lower (str_strip raw_address) in
  (forall h,
      trimmed = "0x" ++ h ->
      String.length h = 40%nat -> all_hex_digits h = true ->
      _normalize_address raw_address address_type = Ok (checksum_case h)
      /\ str_lower (checksum_case h) = trimmed
      /\ String.length (checksum_case h) = 42%nat)
  /\ ((forall h, trimmed = "0x" ++ h ->
                 ~ (String.length h = 40%nat /\ all_hex_digits h = true)) ->
      _normalize_address raw_address address_type
      = Raise (InvalidParamError
                 ("bad " ++ address_type ++ ": " ++ raw_address))).
Proof.
  intros trimmed.
  assert (Hlow : str_lower trimmed = trimmed) by apply str_lower_idem.
  split.
  - intros h Heq Hlen Hhex.
    assert (Hh : str_lower h = h).
    { rewrite Heq in Hlow. cbn in Hlow. now injection Hlow. }
    assert (Hns : (String.length h
                   <= List.length
                        (nibbles (Keccak.keccak256 (list_byte_of_string h))))%nat)
      by (rewrite nibbles_length, keccak256_length, Hlen; lia).
    split; [|split].
    + unfold _normalize_address. fold trimmed. rewrite Heq.
      change (str_take 2 ("0x" ++ h)) with "0x".
      change (str_drop 2 ("0x" ++ h)) with h.
      cbn [String.eqb Ascii.eqb Bool.eqb assert rbind].
      destruct (bytes_fromhex_digits 20 h Hlen Hhex) as (bs & -> & ->).
      cbn [Nat.eqb assert rbind].
      now rewrite (to_checksum_address_digits h Hlen Hhex Hh).
    + unfold checksum_case. rewrite Heq. cbn. f_equal. f_equal.
      now apply checksum_chars_lower.
    + unfold checksum_case. cbn [append String.length].
      rewrite checksum_chars_length by assumption. now rewrite Hlen.
  - intros Hnot. unfold _normalize_address. fold trimmed.
    destruct (String.eqb_spec (str_take 2 trimmed) "0x") as [Hpre|Hpre];
      [|reflexivity].
    cbn [assert rbind].
    set (h := str_drop 2 trimmed).
    assert (Heq : trimmed = "0x" ++ h)
      by (rewrite <- Hpre; symmetry; apply str_take_drop).
    destruct (bytes_fromhex h) as [bs|] eqn:Ebs; [|reflexivity].
    destruct (List.length bs =? 20)%nat; [|reflexivity].
    cbn [assert rbind].
    destruct (to_checksum_address h) as [r|e] eqn:Er; [|reflexivity].
    exfalso. apply (Hnot h Heq).
    apply (to_checksum_address_inv h r); [| |exact Er].
    + destruct (is_0x_prefixed h) eqn:E; [|reflexivity].
      apply prefixed_no_bytes in E. congruence.
    + rewrite Heq in Hlow. cbn in Hlow. now injection Hlow.
Qed.

(** C9 as stated fails: the address comes back in checksum case, here in
    upper case, not in lower case. *)
Lemma C9_counterexample :
  str_lower (str_strip "0x52908400098527886e0f7030069857d2e4169ee7")
  = "0x52908400098527886e0f7030069857d2e4169ee7"
  /\ _normalize_address "0x52908400098527886e0f7030069857d2e4169ee7" "address"
     = Ok "0x52908400098527886E0F7030069857D2E4169EE7"
  /\ _normalize_address "0x52908400098527886e0f7030069857d2e4169ee7" "address"
     <> Ok "0x52908400098527886e0f7030069857d2e4169ee7".
Proof.
  split; [reflexivity|].
  assert (H : _normalize_address "0x52908400098527886e0f7030069857d2e4169ee7"
                "address"
              = Ok "0x52908400098527886E0F7030069857D2E4169EE7")
    by (vm_compute; reflexivity).
  split; [exact H|]. rewrite H. discriminate.
Qed.

Lemma C9_normalize_address_witness :
  str_lower (str_strip "  0XFB6916095CA1DF60BB79CE92CE3EA74C37C5D359 ")
  = "0x" ++ "fb6916095ca1df60bb79ce92ce3ea74c37c5d359"
  /\ String.length "fb6916095ca1df60bb79ce92ce3ea74c37c5d359" = 40%nat
  /\ all_hex_digits "fb6916095ca1df60bb79ce92ce3ea74c37c5d359" = true
  /\ _normalize_address "  0XFB6916095CA1DF60BB79CE92CE3EA74C37C5D359 "
       "address"
     = Ok "0xfB6916095ca1df60bB79Ce92cE3Ea74c37c5d359"
  /\ _normalize_address "0xfb6916095ca1df60bb79ce92ce3ea74c37c5d3" "to"
     = Raise (InvalidParamError
                "bad to: 0xfb6916095ca1df60bb79ce92ce3ea74c37c5d3").
Proof.
  split; [reflexivity|]. split; [reflexivity|]. split; [reflexivity|].
  split.
  - destruct (C9_normalize_address
                "  0XFB6916095CA1DF60BB79CE92CE3EA74C37C5D359 " "address")
      as (Hok & _).
    destruct (Hok "fb6916095ca1df60bb79ce92ce3ea74c37c5d359"
                eq_refl eq_refl eq_refl) as (Hr & _).
    rewrite Hr. vm_compute. reflexivity.
  - destruct (C9_normalize_address
                "0xfb6916095ca1df60bb79ce92ce3ea74c37c5d3" "to")
      as (_ & Hbad).
    apply Hbad. intros h Heq [Hlen _].
    vm_compute in Heq. injection Heq as <-. discriminate Hlen.
Defined.

End AddressFacts.

(** * The instruction builder: the other instructions *)

Section InstructionFacts.
Import Py Layout NeonInstruction.

Context {NeonTx NeonAddress : Type}.
Variable rlp_encode : NeonTx -> bytes.
Variable hex_tx_sig : NeonTx -> string.
Variable find_program_address : list bytes -> SolPubKey -> SolPubKey * Z.
Variable treasury_pool_max : Z.
Variable SYS_PROGRAM_ID : SolPubKey.
Variable INCINERATOR_ID : SolPubKey.
Variable ADDRESS_LOOKUP_TABLE_ID : SolPubKey.
Variable neon_2program : SolPubKey -> NeonAddress -> SolPubKey * Z.

Local Abbreviation builder := (NeonIxBuilder NeonTx).
Local Abbreviation init_sig :=
  (init_neon_tx_sig find_program_address treasury_pool_max).
Local Abbreviation init_tx :=
  (init_neon_tx rlp_encode hex_tx_sig find_program_address treasury_pool_max).
Local Abbreviation is_built :=
  (built rlp_encode hex_tx_sig find_program_address treasury_pool_max
     neon_2program).

(** ** What the [init_*] methods keep *)

(** [init_neon_tx_sig] does not touch the messages. *)
Lemma init_neon_tx_sig_holder_msg (self : builder) (s : string) :
  _holder_msg (snd (init_sig self s)) = _holder_msg self.
Proof.
  unfold init_neon_tx_sig.
  destruct (bytes_fromhex (str_drop 2 s)) as [sig|]; [|reflexivity].
  destruct (py_mod _ _) as [i|e]; [|reflexivity].
  destruct (int_to_bytes_little i 4) as [buf|e]; reflexivity.
Qed.

(** The two messages of a built builder are one: the RLP encoding of the
    transaction it holds, and nothing without a transaction. *)
Lemma built_msg (self : builder) :
  is_built self ->
  _holder_msg self = _msg self
  /\ _msg self = match _neon_tx self with
                 | Some tx => Some (rlp_encode tx)
                 | None => None
                 end.
Proof.
  induction 1 as [evm op | self oe _ [IH1 IH2] | self tx _ [IH1 IH2]
                 | self s _ [IH1 IH2] | self l _ [IH1 IH2]
                 | self h _ [IH1 IH2]]; cbn; auto.
  - unfold init_neon_tx.
    rewrite init_neon_tx_sig_holder_msg.
    destruct (init_neon_tx_sig_frame find_program_address treasury_pool_max
                (set_neon_tx self tx (rlp_encode tx)) (hex_tx_sig tx))
      as (-> & -> & _).
    cbn. auto.
  - rewrite init_neon_tx_sig_holder_msg.
    destruct (init_neon_tx_sig_frame find_program_address treasury_pool_max
                self s) as (-> & -> & _).
    auto.
Qed.

(** X1. The message for the holder account is at hand exactly once a
    transaction was given: [holder_msg] is the RLP encoding of the
    transaction the builder holds, and fails its assertion on a builder
    without one.  [init_neon_tx] stores the message before it decodes the
    signature text, so the message is there even when [init_neon_tx]
    raised. *)
Theorem holder_msg_available (self : builder) :
  is_built self ->
  holder_msg self
  = match _neon_tx self with
    | Some tx => Ok (rlp_encode tx)
    | None => Raise AssertionError
    end
  /\ (forall tx, holder_msg (snd (init_tx self tx)) = Ok (rlp_encode tx)).
Proof.
  intros Hbuilt. destruct (built_msg self Hbuilt) as [Hh Hm].
  split.
  - unfold holder_msg. rewrite Hh, Hm. now destruct (_neon_tx self).
  - intros tx. unfold holder_msg, init_neon_tx.
    now rewrite init_neon_tx_sig_holder_msg.
Qed.

(** ** Order of the [init_*] methods *)

(** X2. The [init_*] methods can be called in any order: giving the
    holder, the account list or the operator's Neon address before or after
    the signature leaves the same builder, and the same outcome of
    [init_neon_tx_sig]. *)
Theorem init_order_independent (self : builder) (s : string)
    (holder : SolPubKey) (neon_account_list : list SolAccountMeta)
    (operator_ether : NeonAddress) :
  init_sig (init_iterative self holder) s
  = (fst (init_sig self s), init_iterative (snd (init_sig self s)) holder)
  /\ init_sig (init_neon_account_list self neon_account_list) s
     = (fst (init_sig self s),
        init_neon_account_list (snd (init_sig self s)) neon_account_list)
  /\ init_sig (init_operator_neon neon_2program self operator_ether) s
     = (fst (init_sig self s),
        init_operator_neon neon_2program (snd (init_sig self s))
          operator_ether)
  /\ init_iterative (init_operator_neon neon_2program self operator_ether)
       holder
     = init_operator_neon neon_2program (init_iterative self holder)
         operator_ether.
Proof.
  unfold init_neon_tx_sig.
  destruct (bytes_fromhex (str_drop 2 s)) as [sig|].
  - cbn [_evm_program_id set_neon_tx_sig init_iterative
           init_neon_account_list init_operator_neon
           set_operator_neon_address].
    destruct (py_mod _ _) as [i|e]; [|repeat split].
    destruct (int_to_bytes_little i 4) as [buf|e]; repeat split.
  - repeat split.
Qed.

(** ** Failures of [init_neon_tx_sig] *)

(** X3. [init_neon_tx_sig] on a text that is not hexadecimal raises
    [ValueError] and leaves the builder as it was.  With
    [treasury_pool_max] zero it raises [ZeroDivisionError] after the
    signature was replaced: the builder then holds the new signature with
    the index buffer and the treasury pool address of the old one. *)
Theorem init_neon_tx_sig_failures (self : builder) (s : string) :
  (bytes_fromhex (str_drop 2 s) = None ->
   init_sig self s = (Raise ValueError, self))
  /\ (forall sig,
         bytes_fromhex (str_drop 2 s) = Some sig ->
         treasury_pool_max = 0 ->
         let self' := snd (init_sig self s) in
         fst (init_sig self s) = Raise ZeroDivisionError
         /\ _neon_tx_sig self' = Some sig
         /\ _treasury_pool_index_buf self' = _treasury_pool_index_buf self
         /\ _treasury_pool_address self' = _treasury_pool_address self).
Proof.
  split.
  - intros Hs. unfold init_neon_tx_sig. now rewrite Hs.
  - intros sig Hs Hmax. unfold init_neon_tx_sig. rewrite Hs.
    unfold py_mod. rewrite Hmax. cbn. repeat split.
Qed.

(** ** The execution instructions *)

(** X4. Whenever the builder of a transaction produces the instruction
    that executes it in one step, the data is the byte 0x1f, the four bytes
    of the treasury pool index and the RLP encoding of the transaction for
    [make_tx_exec_from_data_ix], and the byte 0x2a and the four index bytes
    for [make_tx_exec_from_account_ix].  A builder that was given a
    signature only has no message: [make_tx_exec_from_data_ix] then raises
    [TypeError]. *)
Theorem tx_exec_data (self : builder) :
  is_built self ->
  (forall ix,
      make_tx_exec_from_data_ix SYS_PROGRAM_ID self = Ok ix ->
      exists tpi tx,
        _treasury_pool_index_buf self = Some tpi
        /\ List.length tpi = 4%nat
        /\ _neon_tx self = Some tx
        /\ data ix = [x1f] ++ tpi ++ rlp_encode tx
        /\ program_id ix = _evm_program_id self)
  /\ (forall ix,
         make_tx_exec_from_account_ix SYS_PROGRAM_ID self = Ok ix ->
         exists tpi,
           _treasury_pool_index_buf self = Some tpi
           /\ List.length tpi = 4%nat
           /\ data ix = [x2a] ++ tpi
           /\ List.length (data ix) = 5%nat
           /\ program_id ix = _evm_program_id self)
  /\ (_neon_tx self = None ->
      make_tx_exec_from_data_ix SYS_PROGRAM_ID self = Raise TypeError)
  /\ (forall tx,
         _neon_tx self = Some tx ->
         _treasury_pool_index_buf self <> None ->
         _operator_neon_address self <> None ->
         exists ix, make_tx_exec_from_data_ix SYS_PROGRAM_ID self = Ok ix).
Proof.
  intros Hbuilt. destruct (built_inv _ _ _ _ _ self Hbuilt) as [_ Hlen].
  destruct (built_msg self Hbuilt) as [_ Hmsg].
  pose proof (built_address _ _ _ _ _ self Hbuilt) as Haddr.
  split; [|split; [|split]].
  - intros ix. unfold make_tx_exec_from_data_ix.
    change (int_to_bytes_little (value TxExecFromData) 1) with (Ok [x1f]).
    cbn [rbind bytes_join].
    destruct (_treasury_pool_index_buf self) as [tpi|]; [|discriminate].
    rewrite Hmsg.
    destruct (_neon_tx self) as [tx|]; [|discriminate].
    cbn [rbind].
    destruct (account_meta (_treasury_pool_address self) false true);
      [|discriminate].
    destruct (account_meta (_operator_neon_address self) false true);
      [|discriminate].
    cbn [rbind]. intros [= <-]. exists tpi, tx. cbn [data program_id].
    rewrite app_nil_r. repeat split. now apply Hlen.
  - intros ix. unfold make_tx_exec_from_account_ix.
    change (int_to_bytes_little (value TxExecFromAccount) 1) with (Ok [x2a]).
    cbn [rbind bytes_join].
    destruct (_treasury_pool_index_buf self) as [tpi|]; [|discriminate].
    cbn [rbind]. unfold _make_holder_ix, rbind.
    destruct (account_meta (_holder self) false true); [|discriminate].
    destruct (account_meta (_treasury_pool_address self) false true);
      [|discriminate].
    destruct (account_meta (_operator_neon_address self) false true);
      [|discriminate].
    intros [= <-]. exists tpi. cbn [data program_id].
    rewrite app_nil_r. specialize (Hlen tpi eq_refl).
    repeat split; [exact Hlen|]. cbn [app List.length]. now rewrite Hlen.
  - intros Htx. unfold make_tx_exec_from_data_ix.
    change (int_to_bytes_little (value TxExecFromData) 1) with (Ok [x1f]).
    cbn [rbind bytes_join]. rewrite Hmsg, Htx.
    now destruct (_treasury_pool_index_buf self).
  - intros tx Htx Hb Ho. specialize (Haddr Hb).
    unfold make_tx_exec_from_data_ix.
    change (int_to_bytes_little (value TxExecFromData) 1) with (Ok [x1f]).
    cbn [rbind bytes_join]. rewrite Hmsg, Htx.
    destruct (_treasury_pool_index_buf self); [|congruence].
    destruct (_treasury_pool_address self); [|congruence].
    destruct (_operator_neon_address self); [|congruence].
    cbn. eauto.
Qed.

(** ** Reading a step instruction back *)

Lemma firstn_app_exact {A : Type} (l1 l2 : list A) (n : nat) :
  List.length l1 = n -> firstn n (l1 ++ l2) = l1.
Proof.
  intros <-. rewrite firstn_app, Nat.sub_diag, firstn_all. apply app_nil_r.
Qed.

Lemma skipn_app_exact {A : Type} (l1 l2 : list A) (n : nat) :
  List.length l1 = n -> skipn n (l1 ++ l2) = l2.
Proof.
  intros <-. rewrite skipn_app, skipn_all, Nat.sub_diag. reflexivity.
Qed.

Lemma u32_le_length (n : Z) : List.length (u32_le n) = 4%nat.
Proof. unfold u32_le, le_bytes. now rewrite length_map, length_seq. Qed.

Lemma u32_le_value (n : Z) :
  0 <= n < 2 ^ 32 -> int_from_bytes_little (u32_le n) = n.
Proof.
  intros Hn. unfold u32_le. rewrite <- little_digits_le_bytes by lia.
  rewrite int_from_little_digits by lia. apply Z.mod_small.
  change (256 ^ Z.of_nat 4) with (2 ^ 32). lia.
Qed.

(** The fields of data laid out as a step instruction. *)
Lemma step_data_fields (code tpi rest : bytes) (step_cnt index : Z) :
  List.length code = 1%nat -> List.length tpi = 4%nat ->
  0 <= step_cnt < 2 ^ 32 -> 0 <= index < 2 ^ 32 ->
  let d := code ++ tpi ++ u32_le step_cnt ++ u32_le index ++ rest in
  firstn 4 (skipn 1 d) = tpi
  /\ int_from_bytes_little (firstn 4 (skipn 5 d)) = step_cnt
  /\ int_from_bytes_little (firstn 4 (skipn 9 d)) = index
  /\ skipn 13 d = rest.
Proof.
  intros Hcode Htpi Hc Hi d. subst d.
  pose proof (u32_le_length step_cnt) as Hl1.
  pose proof (u32_le_length index) as Hl2.
  assert (H1 : forall l : bytes, skipn 1 (code ++ l) = l)
    by (intros l; now apply skipn_app_exact).
  assert (H4 : forall l : bytes, skipn 4 (tpi ++ l) = l)
    by (intros l; now apply skipn_app_exact).
  assert (H4c : forall l : bytes, skipn 4 (u32_le step_cnt ++ l) = l)
    by (intros l; now apply skipn_app_exact).
  assert (H4i : forall l : bytes, skipn 4 (u32_le index ++ l) = l)
    by (intros l; now apply skipn_app_exact).
  change 13%nat with (4 + (4 + (4 + 1)))%nat.
  change 9%nat with (4 + (4 + 1))%nat. change 5%nat with (4 + 1)%nat.
  rewrite <- !skipn_skipn, !H1, !H4, !H4c, !H4i.
  rewrite !firstn_app_exact by assumption.
  repeat split; try reflexivity; now apply u32_le_value.
Qed.

(** X5. A step instruction reads back: in the data of an instruction made
    by [make_tx_step_from_data_ix], [make_tx_step_from_account_ix] or
    [make_tx_step_from_account_no_chainid_ix], bytes 1 to 4 are the index
    buffer of the builder, bytes 5 to 8 read as a little-endian number give
    the step count and bytes 9 to 12 the index; the two variants from the
    account end there, 13 bytes long. *)
Theorem tx_step_reads_back (self : builder) (step_cnt index : Z)
    (ix : SolTxIx) :
  is_built self ->
  make_tx_step_from_data_ix SYS_PROGRAM_ID self step_cnt index = Ok ix
  \/ make_tx_step_from_account_ix SYS_PROGRAM_ID self step_cnt index = Ok ix
  \/ make_tx_step_from_account_no_chainid_ix SYS_PROGRAM_ID self step_cnt index
     = Ok ix ->
  Some (firstn 4 (skipn 1 (data ix))) = _treasury_pool_index_buf self
  /\ int_from_bytes_little (firstn 4 (skipn 5 (data ix))) = step_cnt
  /\ int_from_bytes_little (firstn 4 (skipn 9 (data ix))) = index
  /\ (make_tx_step_from_data_ix SYS_PROGRAM_ID self step_cnt index <> Ok ix ->
      List.length (data ix) = 13%nat).
Proof.
  intros Hbuilt H. destruct (built_inv _ _ _ _ _ self Hbuilt) as [_ Hlen].
  assert (Hshape : exists code payload,
             _make_tx_step_ix SYS_PROGRAM_ID self code step_cnt index payload
             = Ok ix
             /\ List.length code = 1%nat
             /\ (make_tx_step_from_data_ix SYS_PROGRAM_ID self step_cnt index
                 <> Ok ix -> payload = None)).
  { destruct H as [H|[H|H]].
    - exists [x20], (_msg self). split; [exact H|]. split; [reflexivity|].
      intros Hn. now elim Hn.
    - exists [x21], None. split; [exact H|]. split; reflexivity.
    - exists [x22], None. split; [exact H|]. split; reflexivity. }
  destruct Hshape as (code & payload & Hix & Hcode & Hpay).
  apply (_make_tx_step_ix_data SYS_PROGRAM_ID) in Hix.
  destruct Hix as (tpi & Htpi & Hc & Hi & Hdata).
  specialize (Hlen tpi Htpi).
  destruct (step_data_fields code tpi
              match payload with Some d => d | None => [] end
              step_cnt index Hcode Hlen Hc Hi) as (F1 & F2 & F3 & F4).
  rewrite Hdata, Htpi.
  split; [exact (f_equal Some F1)|]. split; [exact F2|]. split; [exact F3|].
  intros Hn. rewrite (Hpay Hn), app_nil_r, !length_app, Hcode, Hlen.
  now rewrite !u32_le_length.
Qed.

(** ** The accounts of the instructions on the holder *)

(** X6. The instructions that run a transaction from the holder account,
    the three step instructions and the execution from the account, name
    the same accounts in the same order: the holder, the operator, the
    treasury pool, the operator's Neon account, the system program and the
    EVM program, then the accounts of the transaction as they were given.
    Of the six the operator alone signs, and the two programs alone are
    read-only. *)
Theorem holder_ix_accounts (self : builder) (step_cnt index : Z)
    (ix : SolTxIx) :
  make_tx_step_from_data_ix SYS_PROGRAM_ID self step_cnt index = Ok ix
  \/ make_tx_step_from_account_ix SYS_PROGRAM_ID self step_cnt index = Ok ix
  \/ make_tx_step_from_account_no_chainid_ix SYS_PROGRAM_ID self step_cnt index
     = Ok ix
  \/ make_tx_exec_from_account_ix SYS_PROGRAM_ID self = Ok ix ->
  exists holder treasury operator_neon,
    _holder self = Some holder
    /\ _treasury_pool_address self = Some treasury
    /\ _operator_neon_address self = Some operator_neon
    /\ map pubkey (accounts ix)
       = [holder; _operator_account self; treasury; operator_neon;
          SYS_PROGRAM_ID; _evm_program_id self]
         ++ map pubkey (_neon_account_list self)
    /\ map is_signer (firstn 6 (accounts ix))
       = [false; true; false; false; false; false]
    /\ map is_writable (firstn 6 (accounts ix))
       = [true; true; true; true; false; false]
    /\ skipn 6 (accounts ix) = _neon_account_list self
    /\ program_id ix = _evm_program_id self.
Proof.
  intros H.
  assert (Hh : exists d, _make_holder_ix SYS_PROGRAM_ID self d = Ok ix).
  { unfold make_tx_step_from_data_ix, make_tx_step_from_account_ix,
      make_tx_step_from_account_no_chainid_ix, make_tx_exec_from_account_ix,
      _make_tx_step_ix, rbind in H.
    destruct H as [H|[H|[H|H]]];
      repeat match type of H with
             | match ?x with _ => _ end = Ok _ =>
                 destruct x; [|discriminate H]
             end; eauto. }
  destruct Hh as (d & Hix). unfold _make_holder_ix, rbind, account_meta in Hix.
  destruct (_holder self) as [holder|]; [|discriminate].
  destruct (_treasury_pool_address self) as [treasury|]; [|discriminate].
  destruct (_operator_neon_address self) as [operator_neon|]; [|discriminate].
  injection Hix as <-. exists holder, treasury, operator_neon.
  cbn [accounts program_id app map firstn skipn pubkey is_signer is_writable].
  repeat split.
Qed.

(** ** The address lookup table instructions *)

Lemma u64_le_length (n : Z) : List.length (u64_le n) = 8%nat.
Proof. unfold u64_le, le_bytes. now rewrite length_map, length_seq. Qed.

Lemma u64_le_value (n : Z) :
  0 <= n < 2 ^ 64 -> int_from_bytes_little (u64_le n) = n.
Proof.
  intros Hn. unfold u64_le. rewrite <- little_digits_le_bytes by lia.
  rewrite int_from_little_digits by lia. apply Z.mod_small.
  change (256 ^ Z.of_nat 8) with (2 ^ 64). lia.
Qed.

(** X7. [make_create_lookup_table_ix] returns exactly when the slot fits
    64 bits and the seed one byte, and raises [OverflowError] otherwise.
    Its data is 13 bytes for the lookup table program: the number 0 on four
    bytes, the slot as a 64-bit little-endian number, which reads back, and
    the seed. *)
Theorem create_lookup_table_data (self : builder) (table_account : SolPubKey)
    (recent_block_slot seed : Z) :
  (0 <= recent_block_slot < 2 ^ 64 -> 0 <= seed < 256 ->
   exists ix,
     make_create_lookup_table_ix SYS_PROGRAM_ID ADDRESS_LOOKUP_TABLE_ID self
       table_account recent_block_slot seed = Ok ix
     /\ data ix = [x00; x00; x00; x00] ++ u64_le recent_block_slot
                  ++ [byte_of_Z seed]
     /\ List.length (data ix) = 13%nat
     /\ int_from_bytes_little (firstn 8 (skipn 4 (data ix)))
        = recent_block_slot
     /\ program_id ix = ADDRESS_LOOKUP_TABLE_ID)
  /\ (~ (0 <= recent_block_slot < 2 ^ 64 /\ 0 <= seed < 256) ->
      make_create_lookup_table_ix SYS_PROGRAM_ID ADDRESS_LOOKUP_TABLE_ID self
        table_account recent_block_slot seed = Raise OverflowError).
Proof.
  split.
  - intros Hs Hb. unfold make_create_lookup_table_ix.
    change (int_to_bytes_little 0 4) with (Ok [x00; x00; x00; x00]).
    rewrite (int_to_bytes_little_ok recent_block_slot 8)
      by (change (256 ^ Z.of_nat 8) with (2 ^ 64); lia).
    rewrite (int_to_bytes_little_ok seed 1)
      by (change (256 ^ Z.of_nat 1) with 256; lia).
    rewrite little_digits_le_bytes by lia. fold (u64_le recent_block_slot).
    cbn [rbind bytes_join little_digits]. eexists. split; [reflexivity|].
    cbn [data program_id]. rewrite Z.mod_small by lia.
    pose proof (u64_le_length recent_block_slot) as Hl.
    rewrite app_nil_r.
    split; [reflexivity|]. split; [|split; [|reflexivity]].
    + cbn [app List.length]. rewrite length_app, Hl. reflexivity.
    + change (skipn 4 ([x00; x00; x00; x00] ++ ?l)) with l.
      rewrite firstn_app_exact by assumption. now apply u64_le_value.
  - intros Hn. unfold make_create_lookup_table_ix.
    change (int_to_bytes_little 0 4) with (Ok [x00; x00; x00; x00]).
    cbn [rbind].
    destruct (int_to_bytes_little recent_block_slot 8) as [slot|e] eqn:Es.
    + apply int_to_bytes_little_inv in Es. destruct Es as [Hs _].
      change (256 ^ Z.of_nat 8) with (2 ^ 64) in Hs.
      rewrite int_to_bytes_little_overflow; [reflexivity|].
      change (256 ^ Z.of_nat 1) with 256. lia.
    + unfold int_to_bytes_little in Es.
      destruct (recent_block_slot <? 0); [now injection Es as <-|].
      destruct (256 ^ Z.of_nat 8 <=? recent_block_slot);
        [now injection Es as <-|discriminate].
Qed.

Lemma bytes_join_some (parts : list bytes) :
  bytes_join (map Some parts) = Ok (List.concat parts).
Proof.
  induction parts as [|p parts IH]; [reflexivity|].
  cbn [map bytes_join List.concat]. now rewrite IH.
Qed.

Lemma length_concat_uniform {A : Type} (ls : list (list A)) (n : nat) :
  Forall (fun l => List.length l = n) ls ->
  List.length (List.concat ls) = (n * List.length ls)%nat.
Proof.
  induction 1 as [|l ls Hl _ IH]; [cbn; lia|].
  cbn [List.concat List.length]. rewrite length_app, Hl, IH. lia.
Qed.

(** X8. [make_extend_lookup_table_ix] on a list of fewer than 2^64 keys
    returns data made of the number 2 on four bytes, the number of keys as
    a 64-bit little-endian number, which reads back, and the keys one after
    the other in the order of the list; with keys of 32 bytes the data is
    [12 + 32 * n] bytes long. *)
Theorem extend_lookup_table_data (self : builder) (table_account : SolPubKey)
    (account_list : list SolPubKey) :
  Z.of_nat (List.length account_list) < 2 ^ 64 ->
  exists ix,
    make_extend_lookup_table_ix SYS_PROGRAM_ID ADDRESS_LOOKUP_TABLE_ID self
      table_account account_list = Ok ix
    /\ data ix = [x02; x00; x00; x00]
                 ++ u64_le (Z.of_nat (List.length account_list))
                 ++ List.concat account_list
    /\ int_from_bytes_little (firstn 8 (skipn 4 (data ix)))
       = Z.of_nat (List.length account_list)
    /\ skipn 12 (data ix) = List.concat account_list
    /\ (Forall (fun key => List.length key = 32%nat) account_list ->
        List.length (data ix) = (12 + 32 * List.length account_list)%nat)
    /\ program_id ix = ADDRESS_LOOKUP_TABLE_ID.
Proof.
  intros Hn. unfold make_extend_lookup_table_ix.
  set (n := Z.of_nat (List.length account_list)) in *.
  change (int_to_bytes_little 2 4) with (Ok [x02; x00; x00; x00]).
  rewrite (int_to_bytes_little_ok n 8)
    by (change (256 ^ Z.of_nat 8) with (2 ^ 64); lia).
  rewrite little_digits_le_bytes by lia. fold (u64_le n).
  cbn [rbind app bytes_join]. rewrite bytes_join_some. cbn [rbind].
  eexists. split; [reflexivity|]. cbn [data program_id].
  pose proof (u64_le_length n) as Hl.
  split; [reflexivity|]. split; [|split; [|split; [|reflexivity]]].
  - change (int_from_bytes_little
              (firstn 8 (u64_le n ++ List.concat account_list)) = n).
    rewrite firstn_app_exact by assumption. apply u64_le_value. lia.
  - change (skipn 8 (u64_le n ++ List.concat account_list)
            = List.concat account_list).
    now apply skipn_app_exact.
  - intros Hkeys. pose proof (length_concat_uniform _ 32 Hkeys) as Hc.
    change (S (S (S (S (List.length (u64_le n ++ List.concat account_list)))))
            = (12 + 32 * List.length account_list)%nat).
    rewrite length_app, Hl, Hc. reflexivity.
Qed.

End InstructionFacts.

(** ** The names of the instruction codes *)

Section CodeNameFacts.
Import Py NeonInstruction.

Variable str_enum : EvmIxCode -> string.

(** X9. [EvmIxCodeName] names every instruction code: [get] on the value
    of a member of [EvmIxCode] returns the text of that member, whatever
    the default; no two members share a value, so none is shadowed.  A
    number that is no member's value gives the default, and its [hex] text
    without a default. *)
Theorem code_name_lookup :
  (forall ix_code default,
      EvmIxCodeName_get (EvmIxCodeName str_enum) (value ix_code) default
      = str_enum ix_code)
  /\ (forall a b, value a = value b -> a = b)
  /\ (forall n default,
         (forall ix_code, value ix_code <> n) ->
         EvmIxCodeName_get (EvmIxCodeName str_enum) n default
         = match default with
           | Some name => name
           | None => hex n
           end).
Proof.
  split; [|split].
  - intros ix_code default. destruct ix_code; reflexivity.
  - intros a b. destruct a, b; cbn; intros H; try reflexivity;
      discriminate H.
  - intros n default Hn. unfold EvmIxCodeName_get.
    assert (Hget : dict_get (EvmIxCodeName str_enum) n = None).
    { change (EvmIxCodeName str_enum)
        with (map (fun c => (value c, str_enum c)) EvmIxCode_members).
      cbn [map EvmIxCode_members dict_get value].
      repeat match goal with
             | |- context [(?k =? n)] =>
                 destruct (Z.eqb_spec k n) as [E|_];
                 [exfalso;
                  first [ apply (Hn Unknown); exact E
                        | apply (Hn CollectTreasure); exact E
                        | apply (Hn TxExecFromData); exact E
                        | apply (Hn TxExecFromAccount); exact E
                        | apply (Hn TxStepFromData); exact E
                        | apply (Hn TxStepFromAccount); exact E
                        | apply (Hn TxStepFromAccountNoChainId); exact E
                        | apply (Hn CancelWithHash); exact E
                        | apply (Hn HolderCreate); exact E
                        | apply (Hn HolderDelete); exact E
                        | apply (Hn HolderWrite); exact E
                        | apply (Hn DepositV03); exact E
                        | apply (Hn CreateAccountV03); exact E ]
                 |]
             end.
      reflexivity. }
    rewrite Hget. reflexivity.
Qed.

End CodeNameFacts.

(** ** The statements on concrete builders *)

Section InstructionWitnesses.
Import Py Layout NeonInstruction BuilderExample.

Lemma signed_only_built :
  built rlp_encode hex_tx_sig find_program_address treasury_pool_max
    neon_2program signed_only.
Proof.
  unfold signed_only. apply built_neon_tx_sig, built_operator_neon.
  apply built_init.
Defined.

Lemma holder_msg_available_witness :
  holder_msg ready = Ok neon_tx
  /\ holder_msg signed_only = Raise AssertionError.
Proof.
  split.
  - exact (proj1 (holder_msg_available rlp_encode hex_tx_sig
                    find_program_address treasury_pool_max neon_2program
                    ready ready_built)).
  - exact (proj1 (holder_msg_available rlp_encode hex_tx_sig
                    find_program_address treasury_pool_max neon_2program
                    signed_only signed_only_built)).
Defined.

Lemma init_neon_tx_sig_failures_witness :
  bytes_fromhex (str_drop 2 "0xzz") = None
  /\ init_neon_tx_sig find_program_address treasury_pool_max ready "0xzz"
     = (Raise ValueError, ready)
  /\ bytes_fromhex (str_drop 2 "0xaabbccdd") = Some [xaa; xbb; xcc; xdd]
  /\ fst (init_neon_tx_sig find_program_address 0 ready "0xaabbccdd")
     = Raise ZeroDivisionError
  /\ _neon_tx_sig (snd (init_neon_tx_sig find_program_address 0 ready
                          "0xaabbccdd"))
     = Some [xaa; xbb; xcc; xdd]
  /\ _treasury_pool_index_buf
       (snd (init_neon_tx_sig find_program_address 0 ready "0xaabbccdd"))
     = Some [x01; x00; x00; x00].
Proof.
  destruct (init_neon_tx_sig_failures find_program_address treasury_pool_max
              ready "0xzz") as [Hbad _].
  destruct (init_neon_tx_sig_failures find_program_address 0
              ready "0xaabbccdd") as [_ Hzero].
  destruct (Hzero [xaa; xbb; xcc; xdd] eq_refl eq_refl)
    as (Hr & Hs & Hb & _).
  split; [reflexivity|]. split; [exact (Hbad eq_refl)|].
  split; [reflexivity|]. split; [exact Hr|]. split; [exact Hs|].
  rewrite Hb. reflexivity.
Defined.

Lemma tx_exec_data_witness :
  (exists ix,
      make_tx_exec_from_data_ix sys_program_id ready = Ok ix
      /\ data ix = [x1f; x01; x00; x00; x00; xf8; x01; x02])
  /\ make_tx_exec_from_data_ix sys_program_id signed_only = Raise TypeError.
Proof.
  destruct (tx_exec_data rlp_encode hex_tx_sig find_program_address
              treasury_pool_max sys_program_id neon_2program ready
              ready_built) as (Hdata & _ & _ & Hret).
  destruct (tx_exec_data rlp_encode hex_tx_sig find_program_address
              treasury_pool_max sys_program_id neon_2program signed_only
              signed_only_built) as (_ & _ & Hnone & _).
  split; [|exact (Hnone eq_refl)].
  destruct (Hret neon_tx eq_refl) as (ix & Hix); try (cbn; discriminate).
  exists ix. split; [exact Hix|].
  destruct (Hdata ix Hix) as (tpi & tx & Htpi & _ & Htx & Hd & _).
  rewrite Hd. injection Htpi as <-. injection Htx as <-. reflexivity.
Defined.

Lemma tx_step_reads_back_witness :
  exists ix,
    make_tx_step_from_account_ix sys_program_id ready 500 3 = Ok ix
    /\ int_from_bytes_little (firstn 4 (skipn 5 (data ix))) = 500
    /\ int_from_bytes_little (firstn 4 (skipn 9 (data ix))) = 3
    /\ List.length (data ix) = 13%nat.
Proof.
  destruct (make_tx_step_from_account_ix sys_program_id ready 500 3)
    as [ix|e] eqn:E; [|discriminate E].
  exists ix. split; [reflexivity|].
  destruct (tx_step_reads_back rlp_encode hex_tx_sig find_program_address
              treasury_pool_max sys_program_id neon_2program ready 500 3 ix
              ready_built (or_intror (or_introl E)))
    as (_ & Hc & Hi & Hl).
  split; [exact Hc|]. split; [exact Hi|]. apply Hl.
  injection E as <-. discriminate.
Defined.

Lemma holder_ix_accounts_witness :
  exists ix,
    make_tx_exec_from_account_ix sys_program_id ready = Ok ix
    /\ map is_signer (firstn 6 (accounts ix))
       = [false; true; false; false; false; false]
    /\ skipn 6 (accounts ix) = [].
Proof.
  destruct (make_tx_exec_from_account_ix sys_program_id ready)
    as [ix|e] eqn:E; [|discriminate E].
  exists ix. split; [reflexivity|].
  destruct (holder_ix_accounts sys_program_id ready 0 0 ix
              (or_intror (or_intror (or_intror E))))
    as (h & t & o & _ & _ & _ & _ & Hs & _ & Hk & _).
  split; [exact Hs | exact Hk].
Defined.

Lemma create_lookup_table_data_witness :
  (exists ix,
      make_create_lookup_table_ix sys_program_id lookup_table_id ready
        holder 258 255 = Ok ix
      /\ data ix = [x00; x00; x00; x00;
                    x02; x01; x00; x00; x00; x00; x00; x00; xff])
  /\ make_create_lookup_table_ix sys_program_id lookup_table_id ready
       holder 258 256 = Raise OverflowError.
Proof.
  destruct (create_lookup_table_data sys_program_id lookup_table_id ready
              holder 258 255) as [Hok _].
  destruct (create_lookup_table_data sys_program_id lookup_table_id ready
              holder 258 256) as [_ Hbad].
  split; [|apply Hbad; lia].
  destruct Hok as (ix & Hix & Hd & _); [lia | lia |].
  exists ix. split; [exact Hix|]. rewrite Hd. reflexivity.
Defined.

Lemma extend_lookup_table_data_witness :
  exists ix,
    make_extend_lookup_table_ix sys_program_id lookup_table_id ready
      holder [operator; holder] = Ok ix
    /\ int_from_bytes_little (firstn 8 (skipn 4 (data ix))) = 2
    /\ List.length (data ix) = 76%nat.
Proof.
  destruct (extend_lookup_table_data sys_program_id lookup_table_id ready
              holder [operator; holder])
    as (ix & Hix & _ & Hn & _ & Hl & _); [cbn; lia|].
  exists ix. split; [exact Hix|]. split; [exact Hn|].
  apply Hl. repeat constructor.
Defined.

Lemma code_name_lookup_witness :
  EvmIxCodeName_get (EvmIxCodeName code_name) 0x26 None = "HolderWrite"%string
  /\ EvmIxCodeName_get (EvmIxCodeName code_name) 0x99 None = "0x99"%string.
Proof.
  destruct (code_name_lookup code_name) as (Hname & _ & Hother).
  split; [exact (Hname HolderWrite None)|].
  apply (Hother 0x99 None). intros c. destruct c; discriminate.
Defined.

End InstructionWitnesses.

(** * The strategy ladder: failures, cancellation and order *)

Section LadderFacts.
Import NeonTxSender.

Context {EmulatedResult NeonTxResultInfo : Type}.
Variable outside : Outside EmulatedResult NeonTxResultInfo.

Local Abbreviation store := (Store outside).

(** Breaks a computation of the executor into its external calls. *)
Ltac run_step :=
  match goal with
  | |- forall _, _ => intros ?
  | |- emits _ (bind _ _) => apply emits_bind
  | |- emits _ (try_finally _ _) => apply emits_try_finally
  | |- emits _ (try_except _ _) => apply emits_try_except
  | |- emits _ (ret _) => apply emits_ret
  | |- emits _ (raise _) => apply emits_raise
  | |- emits _ get_ctx => apply emits_get_ctx
  | |- emits _ (modify_ctx _) => apply emits_modify_ctx
  | |- emits _ (external _ _ _) => apply emits_external
  | |- emits _ (external_world _ _ _) => apply emits_external_world
  | |- emits _ (if ?b then _ else _) => destruct b
  | |- emits _ (match ?e with _ => _ end) => destruct e
  end.

Ltac run_all :=
  repeat first
    [ assumption
    | apply all_events_nil
    | apply all_events_app
    | run_step ].

(** ** What a record holds *)

Lemma strategies_built_app (t1 t2 : list event) :
  strategies_built (t1 ++ t2) = strategies_built t1 ++ strategies_built t2.
Proof. apply flat_map_app. Qed.

Lemma strategies_built_none (t : list event) :
  all_events not_built t -> strategies_built t = [].
Proof.
  unfold all_events. induction t as [|[c o] t IH]; [reflexivity|].
  cbn [forallb]. intros H. apply andb_prop in H. destruct H as [Hc Ht].
  cbn [strategies_built flat_map fst]. fold (strategies_built t).
  rewrite (IH Ht). destruct c; try reflexivity. discriminate Hc.
Qed.

Lemma cancellations_app (t1 t2 : list event) :
  cancellations (t1 ++ t2) = cancellations t1 ++ cancellations t2.
Proof. apply filter_app. Qed.

Lemma cancellations_none (t : list event) :
  all_events no_cancel t -> cancellations t = [].
Proof.
  unfold all_events, cancellations. induction t as [|e t IH]; [reflexivity|].
  cbn [forallb filter]. intros H. apply andb_prop in H. destruct H as [He Ht].
  unfold no_cancel in He. destruct (is_cancel_call (fst e)); [discriminate|].
  now apply IH.
Qed.

(** The refresh of [state_tx_cnt] calls the Chain and nothing else. *)
Lemma refresh_events (s : store) (e : event) :
  In e (events (_init_state_tx_cnt outside s)) ->
  fst e = get_state_tx_cnt_call.
Proof.
  rewrite _init_state_tx_cnt_run.
  destruct (get_state_tx_cnt outside (neon_tx_info_addr (fst s)) (snd s))
    as [[v|e'] w']; cbn; intros [<-|[]]; reflexivity.
Qed.

Lemma refresh_never_cancels :
  emits (all_events no_cancel) (_init_state_tx_cnt outside).
Proof. exact (_init_state_tx_cnt_avoids outside is_cancel_call eq_refl). Qed.

Lemma only_refresh_no_cancel (t : list event) :
  (forall e, In e t -> fst e = get_state_tx_cnt_call) ->
  all_events no_cancel t.
Proof.
  intros H. unfold all_events. apply forallb_forall. intros e He.
  unfold no_cancel. now rewrite (H e He).
Qed.

(** ** No strategy is built inside an attempt *)

Lemma _execute_retry_never_builds (cls : Strategy) (n : nat) (retry : Z) :
  emits (all_events not_built) (_execute_retry outside cls n retry).
Proof.
  pose proof (_emulate_neon_tx_avoids outside is_new_call eq_refl eq_refl)
    as He.
  revert retry. induction n as [|n IH]; intros retry; cbn [_execute_retry].
  - run_all.
  - specialize (IH (retry + 1)). unfold _prepare.
    run_all; reflexivity.
Qed.

Lemma attempt_body_never_builds (idx : nat) (cls : Strategy) :
  emits (all_events not_built) (attempt_body outside idx cls).
Proof.
  pose proof (_execute_retry_never_builds cls) as Hr.
  unfold attempt_body, _execute.
  run_all; try reflexivity. apply Hr.
Qed.

Lemma attempt_never_builds (idx : nat) (cls : Strategy) :
  emits (all_events not_built) (attempt outside idx cls).
Proof.
  pose proof (_execute_retry_never_builds cls) as Hr.
  pose proof (_init_state_tx_cnt_avoids outside is_new_call eq_refl) as Hi.
  unfold attempt, attempt_body, on_exception, _execute, _cancel.
  run_all; try reflexivity. apply Hr.
Qed.

(** ** The run of [execute] *)

(** [execute] is the nonce check, when the receipt is not complete, then
    the loop from the strategy index of the context. *)
Lemma execute_run (s : store) :
  let pre :=
    (if negb (completed_receipt (fst s))
     then _validate_nonce outside else ret tt) s in
  execute outside s
  = match returned pre with
    | Ok _ =>
        let start := strategy_idx (fst (final pre)) in
        let next :=
          execute_from outside (skipn start _strategy_list) start (final pre) in
        mkRun (returned next) (final next) (events pre ++ events next)
    | Raise e => mkRun (Raise e) (final pre) (events pre)
    end.
Proof.
  intros pre. unfold execute, bind, get_ctx.
  cbn [returned final events app]. fold pre.
  destruct (returned pre) as [[]|e]; reflexivity.
Qed.

(** The nonce check keeps the strategy index and makes no other call than
    the refresh. *)
Lemma precheck_keeps (s : store) :
  let pre :=
    (if negb (completed_receipt (fst s))
     then _validate_nonce outside else ret tt) s in
  strategy_idx (fst (final pre)) = strategy_idx (fst s)
  /\ (forall e, In e (events pre) -> fst e = get_state_tx_cnt_call)
  /\ (completed_receipt (fst s) = true -> pre = mkRun (Ok tt) s []).
Proof.
  intros pre. subst pre.
  destruct (completed_receipt (fst s)); cbn [negb].
  - split; [reflexivity|]. split; [intros e []|reflexivity].
  - rewrite _validate_nonce_run.
    destruct (get_state_tx_cnt outside (neon_tx_info_addr (fst s)) (snd s))
      as [[v|e'] w']; cbn; (split; [reflexivity|]);
      (split; [intros e [<-|[]]; reflexivity | discriminate]).
Qed.

(** The loop over the strategies, whatever building the first one gives. *)
Lemma execute_from_new_fails (cls : Strategy) (rest : list Strategy)
    (idx : nat) (s0 s : store) (e : exn) :
  strategy_new outside cls s0 = (Raise e, s) ->
  execute_from outside (cls :: rest) idx s0
  = mkRun (Raise e) s [(new_call cls, Raised e)].
Proof.
  intros Hnew. cbn [execute_from]. unfold bind at 1.
  rewrite external_run, Hnew. reflexivity.
Qed.

(** ** Failures of the [try] block *)

(** X10. A strategy whose [try] block fails with anything but
    [RescheduleError] and [WrongStrategyError] is cancelled: [cancel()] is
    called on it right after the failed block, a failure of [cancel()]
    other than [RescheduleError] is dropped, and no further strategy is
    built.  The ladder ends by raising; once the closing refresh of
    [state_tx_cnt] has returned, the caller gets the failure of the block,
    or [RescheduleError] when [cancel()] asked for it. *)
Theorem failed_strategy_is_cancelled (idx : nat) (cls : Strategy)
    (rest : list Strategy) (s0 s : store) (e : exn) :
  strategy_new outside cls s0 = (Ok tt, s) ->
  let body := attempt_body outside idx cls s in
  returned body = Raise e ->
  e <> RescheduleError -> e <> WrongStrategyError ->
  let c := cancel outside cls (final body) in
  let s3 := snd c in
  let pass := execute_from outside (cls :: rest) idx s0 in
  let built := (new_call cls, Returned) in
  let refreshed v := (get_state_tx_cnt_call, ReturnedInt v) in
  (exists t,
      events pass = built :: events body ++ cancel_event cls (fst c) :: t
      /\ forall e', In e' t -> fst e' = get_state_tx_cnt_call)
  /\ cancellations (events pass) = [cancel_event cls (fst c)]
  /\ strategies_built (events pass) = [cls]
  /\ (exists e', returned pass = Raise e')
  /\ (forall v w',
         get_state_tx_cnt outside (neon_tx_info_addr (fst s3)) (snd s3)
         = (Ok v, w') ->
         pass
         = mkRun
             (if match fst c with
                 | Raise RescheduleError => true
                 | _ => false
                 end
              then Raise RescheduleError else Raise e)
             (set_state_tx_cnt (fst s3) v, w')
             (built :: events body
                       ++ [cancel_event cls (fst c); refreshed v])).
Proof.
  intros Hnew body Hbody Hre Hws c s3 pass built refreshed.
  assert (Hpass : pass
            = let refresh := _init_state_tx_cnt outside s3 in
              mkRun
                match returned refresh with
                | Ok _ =>
                    match fst c with
                    | Raise RescheduleError => Raise RescheduleError
                    | _ => Raise e
                    end
                | Raise e' => Raise e'
                end
                (final refresh)
                (built :: events body
                          ++ cancel_event cls (fst c) :: events refresh)).
  { subst pass. rewrite (execute_from_cons outside cls rest idx s0 s Hnew).
    rewrite (attempt_cancels outside idx cls s e Hbody Hre
               (fun H => False_ind _ (Hws H))).
    fold body c s3. cbn [returned final events].
    destruct (returned (_init_state_tx_cnt outside s3)) as [[]|e'];
      [|reflexivity].
    destruct (fst c) as [[]|[]]; reflexivity. }
  cbv zeta in Hpass.
  pose proof (attempt_body_never_cancels outside idx cls s) as Hbc.
  fold body in Hbc.
  pose proof (attempt_body_never_builds idx cls s) as Hbb.
  fold body in Hbb.
  split; [|split; [|split; [|split]]].
  - exists (events (_init_state_tx_cnt outside s3)).
    split; [now rewrite Hpass|]. apply refresh_events.
  - rewrite Hpass. cbn [events].
    change (built :: events body ++ ?l) with ([built] ++ events body ++ l).
    rewrite !cancellations_app.
    rewrite (cancellations_none (events body) Hbc).
    change (cancel_event cls (fst c) :: ?l)
      with ([cancel_event cls (fst c)] ++ l).
    rewrite cancellations_app.
    rewrite (cancellations_none (events (_init_state_tx_cnt outside s3))
               (refresh_never_cancels s3)).
    destruct (fst c) as [[]|e0]; reflexivity.
  - rewrite Hpass. cbn [events].
    change (built :: events body ++ ?l) with ([built] ++ events body ++ l).
    rewrite !strategies_built_app.
    rewrite (strategies_built_none (events body) Hbb).
    change (cancel_event cls (fst c) :: ?l)
      with ([cancel_event cls (fst c)] ++ l).
    rewrite strategies_built_app.
    rewrite (strategies_built_none (events (_init_state_tx_cnt outside s3))).
    + destruct (fst c) as [[]|e0]; reflexivity.
    + apply (_init_state_tx_cnt_avoids outside is_new_call eq_refl).
  - rewrite Hpass. cbn [returned].
    destruct (returned (_init_state_tx_cnt outside s3)) as [[]|e'];
      [|eauto].
    destruct (fst c) as [[]|[]]; eauto.
  - intros v w' Hget. rewrite Hpass, _init_state_tx_cnt_run, Hget.
    cbn [returned final events].
    destruct (fst c) as [[]|[]]; reflexivity.
Qed.

(** X11. A [RescheduleError] of the [try] block goes to the caller as it
    is: the strategy is not cancelled, no further strategy is built, and
    once the closing refresh of [state_tx_cnt] has returned the ladder
    raises [RescheduleError] on the store the refresh left. *)
Theorem reschedule_is_not_cancelled (idx : nat) (cls : Strategy)
    (rest : list Strategy) (s0 s : store) :
  strategy_new outside cls s0 = (Ok tt, s) ->
  let body := attempt_body outside idx cls s in
  returned body = Raise RescheduleError ->
  let s2 := final body in
  let pass := execute_from outside (cls :: rest) idx s0 in
  let built := (new_call cls, Returned) in
  let refreshed v := (get_state_tx_cnt_call, ReturnedInt v) in
  cancellations (events pass) = []
  /\ strategies_built (events pass) = [cls]
  /\ (exists e', returned pass = Raise e')
  /\ (forall v w',
         get_state_tx_cnt outside (neon_tx_info_addr (fst s2)) (snd s2)
         = (Ok v, w') ->
         pass
         = mkRun (Raise RescheduleError) (set_state_tx_cnt (fst s2) v, w')
             (built :: events body ++ [refreshed v])).
Proof.
  intros Hnew body Hbody s2 pass built refreshed.
  assert (Hpass : pass
            = let refresh := _init_state_tx_cnt outside s2 in
              mkRun
                match returned refresh with
                | Ok _ => Raise RescheduleError
                | Raise e' => Raise e'
                end
                (final refresh)
                (built :: events body ++ events refresh)).
  { subst pass. rewrite (execute_from_cons outside cls rest idx s0 s Hnew).
    rewrite (attempt_after_raise outside idx cls s _ Hbody).
    fold body s2. cbn [on_exception raise returned final events].
    rewrite app_nil_r.
    destruct (returned (_init_state_tx_cnt outside s2)) as [[]|e'];
      reflexivity. }
  cbv zeta in Hpass.
  pose proof (attempt_body_never_cancels outside idx cls s) as Hbc.
  pose proof (attempt_body_never_builds idx cls s) as Hbb.
  fold body in Hbc, Hbb.
  split; [|split; [|split]].
  - rewrite Hpass. cbn [events].
    change (built :: events body ++ ?l) with ([built] ++ events body ++ l).
    rewrite !cancellations_app, (cancellations_none (events body) Hbc).
    now rewrite (cancellations_none _ (refresh_never_cancels s2)).
  - rewrite Hpass. cbn [events].
    change (built :: events body ++ ?l) with ([built] ++ events body ++ l).
    rewrite !strategies_built_app, (strategies_built_none (events body) Hbb).
    rewrite (strategies_built_none (events (_init_state_tx_cnt outside s2)));
      [reflexivity|].
    apply (_init_state_tx_cnt_avoids outside is_new_call eq_refl).
  - rewrite Hpass. cbn [returned].
    destruct (returned (_init_state_tx_cnt outside s2)) as [[]|e']; eauto.
  - intros v w' Hget. rewrite Hpass, _init_state_tx_cnt_run, Hget.
    reflexivity.
Qed.

(** ** Cancellation happens at most once *)

(** One pass of the loop either never cancels, or cancels once, ends by
    raising, and only refreshes [state_tx_cnt] afterwards. *)
Lemma attempt_cancel_shape (idx : nat) (cls : Strategy) (s : store) :
  let run := attempt outside idx cls s in
  all_events no_cancel (events run)
  \/ exists t r tail,
       events run = t ++ cancel_event cls r :: tail
       /\ all_events no_cancel t
       /\ (forall e, In e tail -> fst e = get_state_tx_cnt_call)
       /\ exists e, returned run = Raise e.
Proof.
  intros run. subst run.
  pose proof (attempt_body_never_cancels outside idx cls s) as Hbc.
  destruct (returned (attempt_body outside idx cls s)) as [x|e] eqn:Hbody.
  - left. unfold attempt, try_finally, try_except. rewrite Hbody.
    cbn [events]. apply all_events_app; [exact Hbc|].
    apply refresh_never_cancels.
  - set (body := attempt_body outside idx cls s) in *.
    assert (Hcase : e = RescheduleError
                    \/ (e = WrongStrategyError
                        /\ completed_receipt (fst (final body)) = false)
                    \/ (e <> RescheduleError
                        /\ (e = WrongStrategyError ->
                            completed_receipt (fst (final body)) = true))).
    { destruct e; try (right; right; split; [discriminate|discriminate]).
      - now left.
      - destruct (completed_receipt (fst (final body))) eqn:Hc.
        + right; right. split; [discriminate|reflexivity].
        + right; left. now split. }
    destruct Hcase as [->|[[-> Hc]|[Hre Hws]]].
    + left. rewrite (attempt_after_raise outside idx cls s _ Hbody).
      fold body. cbn [on_exception raise events final].
      rewrite app_nil_r. apply all_events_app; [exact Hbc|].
      apply refresh_never_cancels.
    + left. rewrite (attempt_after_raise outside idx cls s _ Hbody).
      fold body. cbn [on_exception]. unfold bind, get_ctx.
      cbn [returned final events fst]. rewrite Hc.
      cbn [negb ret returned final events app].
      rewrite app_nil_r. apply all_events_app; [exact Hbc|].
      apply refresh_never_cancels.
    + right. rewrite (attempt_cancels outside idx cls s e Hbody Hre Hws).
      fold body. cbn [events returned].
      set (c := cancel outside cls (final body)).
      exists (events body), (fst c),
        (events (_init_state_tx_cnt outside (snd c))).
      split; [reflexivity|]. split; [exact Hbc|].
      split; [apply refresh_events|].
      destruct (returned (_init_state_tx_cnt outside (snd c))) as [[]|e'];
        [|eauto].
      destruct (fst c) as [[]|[]]; eauto.
Qed.

Lemma execute_from_cancel_shape (l : list Strategy) (idx : nat) (s0 : store) :
  let run := execute_from outside l idx s0 in
  all_events no_cancel (events run)
  \/ exists t cls r tail,
       events run = t ++ cancel_event cls r :: tail
       /\ all_events no_cancel t
       /\ (forall e, In e tail -> fst e = get_state_tx_cnt_call)
       /\ exists e, returned run = Raise e.
Proof.
  revert idx s0. induction l as [|cls rest IH]; intros idx s0 run; subst run.
  - left. reflexivity.
  - destruct (strategy_new outside cls s0) as [[[]|e] s] eqn:Hnew.
    + rewrite (execute_from_cons outside cls rest idx s0 s Hnew).
      destruct (attempt_cancel_shape idx cls s)
        as [Hno|(t & r & tail & Hev & Ht & Htail & e & Hret)].
      * set (pass := attempt outside idx cls s) in *.
        destruct (returned pass) as [[|x]|e]; cbn [events returned].
        -- destruct (IH (S idx) (final pass))
             as [Hn|(t & c & r & tail & Hev & Ht & Htail & e & Hret)].
           ++ left.
              change (all_events no_cancel
                        ([(new_call cls, Returned)]
                         ++ events pass
                         ++ events (execute_from outside rest (S idx)
                                      (final pass)))).
              apply all_events_app; [reflexivity|].
              apply all_events_app; [exact Hno | exact Hn].
           ++ right.
              exists ((new_call cls, Returned)
                      :: events pass ++ t), c, r, tail.
              split; [rewrite Hev; cbn [app]; now rewrite <- app_assoc|].
              split; [|split; [exact Htail|eauto]].
              change (all_events no_cancel
                        ([(new_call cls, Returned)]
                         ++ events pass ++ t)).
              apply all_events_app; [reflexivity|].
              apply all_events_app; [exact Hno | exact Ht].
        -- left.
           change (all_events no_cancel
                     ([(new_call cls, Returned)]
                      ++ events pass)).
           apply all_events_app; [reflexivity | exact Hno].
        -- left.
           change (all_events no_cancel
                     ([(new_call cls, Returned)]
                      ++ events pass)).
           apply all_events_app; [reflexivity | exact Hno].
      * right. rewrite Hret. cbn [events returned].
        exists ((new_call cls, Returned) :: t), cls, r, tail.
        split; [now rewrite Hev|].
        split; [|split; [exact Htail|eauto]].
        change (all_events no_cancel ([(new_call cls, Returned)] ++ t)).
        apply all_events_app; [reflexivity | exact Ht].
    + left. rewrite (execute_from_new_fails cls rest idx s0 s e Hnew).
      reflexivity.
Qed.

(** X12. In a run of [execute], [cancel()] is called at most once.  When
    it is called, nothing follows it but the closing refresh of
    [state_tx_cnt], and [execute] ends by raising: a run that hands a
    result back has cancelled nothing. *)
Theorem cancel_at_most_once (s : store) :
  let run := execute outside s in
  (List.length (cancellations (events run)) <= 1)%nat
  /\ (forall r, returned run = Ok r -> cancellations (events run) = [])
  /\ (cancellations (events run) <> [] ->
      exists t cls r tail,
        events run = t ++ cancel_event cls r :: tail
        /\ cancellations t = []
        /\ (forall e, In e tail -> fst e = get_state_tx_cnt_call)
        /\ exists e, returned run = Raise e).
Proof.
  intros run.
  assert (Hshape :
            all_events no_cancel (events run)
            \/ exists t cls r tail,
                 events run = t ++ cancel_event cls r :: tail
                 /\ all_events no_cancel t
                 /\ (forall e, In e tail -> fst e = get_state_tx_cnt_call)
                 /\ exists e, returned run = Raise e).
  { subst run. rewrite execute_run.
    destruct (precheck_keeps s) as (_ & Hpre & _).
    apply only_refresh_no_cancel in Hpre.
    set (pre := (if negb (completed_receipt (fst s))
                 then _validate_nonce outside else ret tt) s) in *.
    destruct (returned pre) as [[]|e]; cbn zeta; [|now left].
    cbn [events returned].
    destruct (execute_from_cancel_shape
                (skipn (strategy_idx (fst (final pre))) _strategy_list)
                (strategy_idx (fst (final pre))) (final pre))
      as [Hn|(t & c & r & tail & Hev & Ht & Htail & e & Hret)].
    - left. now apply all_events_app.
    - right. exists (events pre ++ t), c, r, tail.
      split; [rewrite Hev; now rewrite <- app_assoc|].
      split; [now apply all_events_app|]. split; [exact Htail|eauto]. }
  destruct Hshape as [Hn|(t & c & r & tail & Hev & Ht & Htail & e & Hret)].
  - rewrite (cancellations_none _ Hn). split; [cbn; lia|].
    split; [reflexivity|]. intros H. now elim H.
  - assert (Hc : cancellations (events run) = [cancel_event c r]).
    { rewrite Hev.
      change (cancel_event c r :: tail) with ([cancel_event c r] ++ tail).
      rewrite !cancellations_app, (cancellations_none t Ht).
      rewrite (cancellations_none tail (only_refresh_no_cancel tail Htail)).
      destruct r as [[]|e0]; reflexivity. }
    rewrite Hc. split; [cbn; lia|]. split.
    + intros x Hx. rewrite Hx in Hret. discriminate Hret.
    + intros _. exists t, c, r, tail. split; [exact Hev|].
      split; [now apply cancellations_none|]. split; [exact Htail|eauto].
Qed.

(** ** The closing refresh *)

Lemma attempt_returns (idx : nat) (cls : Strategy) (s : store)
    (x : loop_exit NeonTxResultInfo) :
  returned (attempt outside idx cls s) = Ok x ->
  exists t v,
    events (attempt outside idx cls s)
    = t ++ [(get_state_tx_cnt_call, ReturnedInt v)]
    /\ state_tx_cnt (fst (final (attempt outside idx cls s))) = v.
Proof.
  unfold attempt, try_finally. cbn [returned final events].
  set (body := try_except _ _ s). rewrite _init_state_tx_cnt_run.
  destruct (get_state_tx_cnt outside (neon_tx_info_addr (fst (final body)))
              (snd (final body))) as [[v|e] w'];
    cbn [returned final events]; [|discriminate].
  intros _. exists (events body), v. split; reflexivity.
Qed.

Lemma execute_from_returns (l : list Strategy) (idx : nat) (s0 : store)
    (r : NeonTxResultInfo) :
  returned (execute_from outside l idx s0) = Ok r ->
  exists t v,
    events (execute_from outside l idx s0)
    = t ++ [(get_state_tx_cnt_call, ReturnedInt v)]
    /\ state_tx_cnt (fst (final (execute_from outside l idx s0))) = v.
Proof.
  revert idx s0. induction l as [|cls rest IH]; intros idx s0.
  - discriminate.
  - destruct (strategy_new outside cls s0) as [[[]|e] s] eqn:Hnew.
    + rewrite (execute_from_cons outside cls rest idx s0 s Hnew).
      set (pass := attempt outside idx cls s) in *.
      destruct (returned pass) as [[|x]|e] eqn:Hpass;
        cbn [returned final events]; [| |discriminate].
      * intros Hret. destruct (IH _ _ Hret) as (t & v & Hev & Hv).
        exists ((new_call cls, Returned) :: events pass ++ t), v.
        split; [rewrite Hev; cbn [app]; now rewrite <- app_assoc | exact Hv].
      * intros _. destruct (attempt_returns idx cls s _ Hpass)
          as (t & v & Hev & Hv). fold pass in Hev, Hv.
        exists ((new_call cls, Returned) :: t), v.
        split; [now rewrite Hev | exact Hv].
    + rewrite (execute_from_new_fails cls rest idx s0 s e Hnew).
      discriminate.
Qed.

(** X13. When [execute] hands a result back, the last thing it did was
    the refresh of [state_tx_cnt] in the [finally] clause, and it returned:
    the context is left with the count of the sender that the Chain
    reported last, after the transaction was executed. *)
Theorem count_refreshed_on_return (s : store) (r : NeonTxResultInfo) :
  returned (execute outside s) = Ok r ->
  exists t v,
    events (execute outside s)
    = t ++ [(get_state_tx_cnt_call, ReturnedInt v)]
    /\ state_tx_cnt (fst (final (execute outside s))) = v.
Proof.
  rewrite execute_run.
  set (pre := (if negb (completed_receipt (fst s))
               then _validate_nonce outside else ret tt) s).
  destruct (returned pre) as [[]|e]; cbn zeta; [|discriminate].
  cbn [returned final events]. intros Hret.
  destruct (execute_from_returns _ _ _ _ Hret) as (t & v & Hev & Hv).
  exists (events pre ++ t), v.
  split; [rewrite Hev; now rewrite <- app_assoc | exact Hv].
Qed.

(** ** The order of the strategies *)

Lemma execute_from_in_order (l : list Strategy) (idx : nat) (s0 : store) :
  exists rest,
    l = strategies_built (events (execute_from outside l idx s0)) ++ rest.
Proof.
  revert idx s0. induction l as [|cls l IH]; intros idx s0.
  - exists []. reflexivity.
  - destruct (strategy_new outside cls s0) as [[[]|e] s] eqn:Hnew.
    + rewrite (execute_from_cons outside cls l idx s0 s Hnew).
      pose proof (strategies_built_none _ (attempt_never_builds idx cls s))
        as Hnone.
      destruct (returned (attempt outside idx cls s)) as [[|x]|e];
        cbn [events].
      * destruct (IH (S idx) (final (attempt outside idx cls s)))
          as (rest & Hrest).
        exists rest.
        change ((new_call cls, Returned) :: ?a ++ ?b)
          with ([(new_call cls, Returned)] ++ a ++ b).
        rewrite !strategies_built_app, Hnone. cbn [app].
        change (strategies_built [(new_call cls, Returned)]) with [cls].
        cbn [app]. f_equal. exact Hrest.
      * exists l.
        change ((new_call cls, Returned) :: ?a)
          with ([(new_call cls, Returned)] ++ a).
        rewrite strategies_built_app, Hnone. reflexivity.
      * exists l.
        change ((new_call cls, Returned) :: ?a)
          with ([(new_call cls, Returned)] ++ a).
        rewrite strategies_built_app, Hnone. reflexivity.
    + rewrite (execute_from_new_fails cls l idx s0 s e Hnew).
      exists l. reflexivity.
Qed.

(** X14. [execute] goes through the ladder in its order, from the strategy
    index of the context on: the strategies it builds are, one by one and
    without gap or return, the strategies of [_strategy_list] from that
    index, up to the one where the run ended.  At most
    [10 - strategy_idx] strategies are built. *)
Theorem strategies_in_ladder_order (s : store) :
  let start := strategy_idx (fst s) in
  let tried := strategies_built (events (execute outside s)) in
  (exists rest, skipn start _strategy_list = tried ++ rest)
  /\ (List.length tried <= 10 - start)%nat
  /\ (forall k cls, nth_error tried k = Some cls ->
                    nth_error _strategy_list (start + k) = Some cls).
Proof.
  intros start tried.
  assert (H : exists rest, skipn start _strategy_list = tried ++ rest).
  { subst tried. rewrite execute_run.
    destruct (precheck_keeps s) as (Hidx & Hpre & _).
    set (pre := (if negb (completed_receipt (fst s))
                 then _validate_nonce outside else ret tt) s) in *.
    assert (Hnone : strategies_built (events pre) = []).
    { apply strategies_built_none. unfold all_events.
      apply forallb_forall. intros e He. unfold not_built.
      now rewrite (Hpre e He). }
    destruct (returned pre) as [[]|e]; cbn zeta; cbn [events].
    - rewrite strategies_built_app, Hnone, Hidx. cbn [app].
      apply execute_from_in_order.
    - rewrite Hnone. eexists. reflexivity. }
  split; [exact H|]. destruct H as (rest & Hrest).
  split.
  - assert (Hl : List.length (skipn start _strategy_list)
                 = (10 - start)%nat) by (rewrite length_skipn; reflexivity).
    rewrite Hrest, length_app in Hl. lia.
  - intros k cls Hk.
    rewrite <- (firstn_skipn start _strategy_list) at 1.
    assert (Hle : (start <= 10)%nat \/ (10 < start)%nat) by lia.
    destruct Hle as [Hle|Hgt].
    + rewrite nth_error_app2 by (rewrite length_firstn; cbn; lia).
      rewrite length_firstn.
      replace (start + k - Nat.min start (List.length _strategy_list))%nat
        with k by (cbn [List.length _strategy_list]; lia).
      rewrite Hrest. rewrite nth_error_app1; [exact Hk|].
      apply nth_error_Some. congruence.
    + exfalso. rewrite skipn_all2 in Hrest by (cbn; lia).
      destruct tried; [destruct k; discriminate Hk | discriminate Hrest].
Qed.

(** ** A ladder that runs out *)

(** X15. When every strategy declines the transaction, [validate()]
    returning false, [execute] builds and asks each strategy of the ladder
    from the strategy index on, refreshes [state_tx_cnt] after each of
    them, calls nothing else and raises [BigTxError]: what it does is, for
    each of these strategies in the order of the ladder, the three calls
    of building it, [validate()] on it, and the refresh.  With a strategy
    index beyond the ladder it raises [BigTxError] without any call. *)
Theorem ladder_exhausted (s : store) :
  completed_receipt (fst s) = true ->
  ((10 <= strategy_idx (fst s))%nat ->
   execute outside s = mkRun (Raise BigTxError) s [])
  /\ ((forall cls s', fst (strategy_new outside cls s') = Ok tt) ->
      (forall cls s', fst (validate outside cls s') = Ok false) ->
      (forall a w, exists v, fst (get_state_tx_cnt outside a w) = Ok v) ->
      returned (execute outside s) = Raise BigTxError
      /\ strategies_built (events (execute outside s))
         = skipn (strategy_idx (fst s)) _strategy_list
      /\ (forall e, In e (events (execute outside s)) ->
                    exists cls v,
                      e = (new_call cls, Returned)
                      \/ e = (validate_call cls, ReturnedBool false)
                      \/ e = (get_state_tx_cnt_call, ReturnedInt v))
      /\ exists counts,
           List.length counts
           = List.length (skipn (strategy_idx (fst s)) _strategy_list)
           /\ events (execute outside s)
              = flat_map
                  (fun step =>
                     [(new_call (fst step), Returned);
                      (validate_call (fst step), ReturnedBool false);
                      (get_state_tx_cnt_call, ReturnedInt (snd step))])
                  (combine (skipn (strategy_idx (fst s)) _strategy_list)
                     counts)).
Proof.
  intros Hdone.
  destruct (precheck_keeps s) as (_ & _ & Hpre). specialize (Hpre Hdone).
  assert (Hrun : execute outside s
                 = execute_from outside
                     (skipn (strategy_idx (fst s)) _strategy_list)
                     (strategy_idx (fst s)) s).
  { rewrite execute_run, Hpre. cbn zeta. cbn [returned final events app].
    symmetry. apply run_eta. }
  split.
  - intros Hidx. rewrite Hrun, skipn_all2 by (cbn; lia). reflexivity.
  - intros Hnew Hval Hcnt. rewrite Hrun.
    generalize (skipn (strategy_idx (fst s)) _strategy_list) as l.
    generalize (strategy_idx (fst s)) as idx. clear Hrun Hpre Hdone.
    intros idx l. revert idx s.
    induction l as [|cls l IH]; intros idx s0.
    + split; [reflexivity|]. split; [reflexivity|].
      split; [intros e []|]. exists []. split; reflexivity.
    + pose proof (Hnew cls s0) as Hn.
      destruct (strategy_new outside cls s0) as [rn s] eqn:Enew.
      cbn [fst] in Hn. subst rn.
      rewrite (execute_from_cons outside cls l idx s0 s Enew).
      assert (Hpass : exists v w',
                 attempt outside idx cls s
                 = mkRun (Ok Continue)
                     (set_state_tx_cnt (fst (snd (validate outside cls s))) v,
                      w')
                     [(validate_call cls, ReturnedBool false);
                      (get_state_tx_cnt_call, ReturnedInt v)]).
      { pose proof (Hval cls s) as Hv.
        destruct (validate outside cls s) as [rv s1] eqn:Eval.
        cbn [fst snd] in *. subst rv.
        assert (Hbody : attempt_body outside idx cls s
                        = mkRun (Ok Continue) s1
                            [(validate_call cls, ReturnedBool false)]).
        { unfold attempt_body, bind. rewrite external_run, Eval.
          reflexivity. }
        unfold attempt, try_finally, try_except. rewrite Hbody.
        cbn [returned final events]. rewrite _init_state_tx_cnt_run.
        destruct (Hcnt (neon_tx_info_addr (fst s1)) (snd s1)) as (v & Hv).
        destruct (get_state_tx_cnt outside (neon_tx_info_addr (fst s1))
                    (snd s1)) as [rc w']. cbn [fst] in Hv. subst rc.
        exists v, w'. reflexivity. }
      destruct Hpass as (v & w' & Hpass). rewrite Hpass.
      cbn [returned final events].
      destruct (IH (S idx)
                  (set_state_tx_cnt (fst (snd (validate outside cls s))) v, w'))
        as (Hr & Hb & He & counts & Hlen & Hev).
      split; [exact Hr|]. split; [|split].
      * cbn [app strategies_built flat_map fst]. f_equal. exact Hb.
      * intros e [<-|[<-|[<-|Hin]]]; try (exists cls, v; tauto).
        now apply He.
      * exists (v :: counts). split; [cbn [List.length]; now rewrite Hlen|].
        cbn [combine flat_map fst snd app]. now rewrite Hev.
Qed.

End LadderFacts.

(** ** The statements on scripted strategies *)

Section LadderWitnesses.
Import NeonTxSender LadderExample.

(** [execute()] of the first strategy fails for a reason of the Chain and
    [cancel()] fails too: the strategy is cancelled once, the second
    strategy is never built and the caller gets the first failure. *)
Lemma failed_strategy_is_cancelled_witness :
  strategy_new (scripted failing_execute) SimpleNeonTxStrategy (checked 3)
  = (Ok tt, checked 3)
  /\ returned (attempt_body (scripted failing_execute) 0
                 SimpleNeonTxStrategy (checked 3))
     = Raise (OtherException "SolTxError")
  /\ returned (execute_from (scripted failing_execute)
                 [SimpleNeonTxStrategy; ALTSimpleNeonTxStrategy] 0
                 (checked 3))
     = Raise (OtherException "SolTxError")
  /\ cancellations
       (events (execute_from (scripted failing_execute)
                  [SimpleNeonTxStrategy; ALTSimpleNeonTxStrategy] 0
                  (checked 3)))
     = [(cancel_call SimpleNeonTxStrategy,
         Raised (OtherException "cancel failed"))]
  /\ strategies_built
       (events (execute_from (scripted failing_execute)
                  [SimpleNeonTxStrategy; ALTSimpleNeonTxStrategy] 0
                  (checked 3)))
     = [SimpleNeonTxStrategy].
Proof.
  pose (outside := scripted failing_execute).
  pose (s := checked 3 : Store outside).
  assert (Hnew : strategy_new outside SimpleNeonTxStrategy s = (Ok tt, s))
    by reflexivity.
  assert (Hbody : returned (attempt_body outside 0 SimpleNeonTxStrategy s)
                  = Raise (OtherException "SolTxError")) by reflexivity.
  destruct (failed_strategy_is_cancelled outside 0 SimpleNeonTxStrategy
              [ALTSimpleNeonTxStrategy] s s (OtherException "SolTxError")
              Hnew Hbody ltac:(discriminate) ltac:(discriminate))
    as (_ & Hc & Hb & _ & Hrun).
  split; [exact Hnew|]. split; [exact Hbody|].
  split; [|split; [exact Hc | exact Hb]].
  fold outside. change (checked 3) with s.
  rewrite (Hrun 3 3%nat eq_refl). reflexivity.
Defined.

(** [execute()] of the first strategy asks for a reschedule: nothing is
    cancelled and the caller gets [RescheduleError]. *)
Lemma reschedule_is_not_cancelled_witness :
  strategy_new (scripted rescheduled) SimpleNeonTxStrategy (checked 3)
  = (Ok tt, checked 3)
  /\ returned (attempt_body (scripted rescheduled) 0 SimpleNeonTxStrategy
                 (checked 3))
     = Raise RescheduleError
  /\ returned (execute_from (scripted rescheduled)
                 [SimpleNeonTxStrategy; ALTSimpleNeonTxStrategy] 0
                 (checked 3))
     = Raise RescheduleError
  /\ cancellations
       (events (execute_from (scripted rescheduled)
                  [SimpleNeonTxStrategy; ALTSimpleNeonTxStrategy] 0
                  (checked 3)))
     = [].
Proof.
  pose (outside := scripted rescheduled).
  pose (s := checked 3 : Store outside).
  assert (Hnew : strategy_new outside SimpleNeonTxStrategy s = (Ok tt, s))
    by reflexivity.
  assert (Hbody : returned (attempt_body outside 0 SimpleNeonTxStrategy s)
                  = Raise RescheduleError) by reflexivity.
  destruct (reschedule_is_not_cancelled outside 0 SimpleNeonTxStrategy
              [ALTSimpleNeonTxStrategy] s s Hnew Hbody)
    as (Hc & _ & _ & Hrun).
  split; [exact Hnew|]. split; [exact Hbody|]. split; [|exact Hc].
  fold outside. change (checked 3) with s.
  rewrite (Hrun 3 3%nat eq_refl). reflexivity.
Defined.

(** A run that returns cancels nothing; a run that cancels ends by
    raising. *)
Lemma cancel_at_most_once_witness :
  returned (execute (scripted succeeding) (fresh_ctx 3, 0%nat)) = Ok tt
  /\ cancellations (events (execute (scripted succeeding)
                              (fresh_ctx 3, 0%nat)))
     = []
  /\ cancellations (events (execute (scripted failing_execute)
                              (fresh_ctx 3, 0%nat)))
     <> []
  /\ exists e,
      returned (execute (scripted failing_execute) (fresh_ctx 3, 0%nat))
      = Raise e.
Proof.
  assert (Hret : returned (execute (scripted succeeding) (fresh_ctx 3, 0%nat))
                 = Ok tt) by reflexivity.
  assert (Hne : cancellations (events (execute (scripted failing_execute)
                                         (fresh_ctx 3, 0%nat)))
                <> []) by (vm_compute; discriminate).
  destruct (cancel_at_most_once (scripted succeeding) (fresh_ctx 3, 0%nat))
    as (_ & Hnone & _).
  destruct (cancel_at_most_once (scripted failing_execute)
              (fresh_ctx 3, 0%nat)) as (_ & _ & Hraise).
  destruct (Hraise Hne) as (t & cls & r & tail & _ & _ & _ & Hr).
  split; [exact Hret|]. split; [exact (Hnone tt Hret)|].
  split; [exact Hne | exact Hr].
Defined.

(** The transaction is executed and the count of the sender moves to 4:
    the context ends with 4. *)
Lemma count_refreshed_on_return_witness :
  returned (execute (scripted succeeding) (fresh_ctx 3, 0%nat)) = Ok tt
  /\ exists t,
      events (execute (scripted succeeding) (fresh_ctx 3, 0%nat))
      = t ++ [(get_state_tx_cnt_call, ReturnedInt 4)]
      /\ state_tx_cnt
           (fst (final (execute (scripted succeeding) (fresh_ctx 3, 0%nat))))
         = 4.
Proof.
  assert (Hret : returned (execute (scripted succeeding) (fresh_ctx 3, 0%nat))
                 = Ok tt) by reflexivity.
  split; [exact Hret|].
  destruct (count_refreshed_on_return (scripted succeeding)
              (fresh_ctx 3, 0%nat) tt Hret) as (t & v & Hev & Hv).
  assert (H4 : v = 4) by (rewrite <- Hv; reflexivity).
  rewrite H4 in Hev, Hv. exists t. split; [exact Hev | exact Hv].
Defined.

(** Every strategy is tried and found wrong before any receipt: the tenth
    strategy built is the last of the ladder. *)
Lemma strategies_in_ladder_order_witness :
  nth_error
    (strategies_built
       (events (execute (scripted early_wrong_strategy) (fresh_ctx 3, 0%nat))))
    9
  = Some ALTNoChainIdNeonTxStrategy
  /\ nth_error _strategy_list 9 = Some ALTNoChainIdNeonTxStrategy
  /\ (List.length
        (strategies_built
           (events (execute (scripted early_wrong_strategy)
                      (fresh_ctx 3, 0%nat))))
      <= 10)%nat.
Proof.
  assert (Hk : nth_error
                 (strategies_built
                    (events (execute (scripted early_wrong_strategy)
                               (fresh_ctx 3, 0%nat)))) 9
               = Some ALTNoChainIdNeonTxStrategy) by (vm_compute; reflexivity).
  destruct (strategies_in_ladder_order (scripted early_wrong_strategy)
              (fresh_ctx 3, 0%nat)) as (_ & Hlen & Hnth).
  split; [exact Hk|]. split; [exact (Hnth 9%nat _ Hk) | exact Hlen].
Defined.

(** Every strategy declines a transaction whose receipt is complete. *)
Lemma ladder_exhausted_witness :
  completed_receipt (set_completed_receipt (fresh_ctx 3) true) = true
  /\ (forall cls s', fst (strategy_new declining cls s') = Ok tt)
  /\ (forall cls s', fst (validate declining cls s') = Ok false)
  /\ (forall a w, exists v, fst (get_state_tx_cnt declining a w) = Ok v)
  /\ returned (execute declining
                 (set_completed_receipt (fresh_ctx 3) true, 0%nat))
     = Raise BigTxError
  /\ strategies_built
       (events (execute declining
                  (set_completed_receipt (fresh_ctx 3) true, 0%nat)))
     = _strategy_list
  /\ events (execute declining
               (set_completed_receipt (fresh_ctx 3) true, 0%nat))
     = flat_map
         (fun cls =>
            [(new_call cls, Returned);
             (validate_call cls, ReturnedBool false);
             (get_state_tx_cnt_call, ReturnedInt 3)])
         _strategy_list.
Proof.
  assert (Hnew : forall cls s', fst (strategy_new declining cls s') = Ok tt)
    by reflexivity.
  assert (Hval : forall cls s', fst (validate declining cls s') = Ok false)
    by reflexivity.
  assert (Hcnt : forall a w,
             exists v, fst (get_state_tx_cnt declining a w) = Ok v)
    by (intros a w; exists 3; reflexivity).
  destruct (ladder_exhausted declining
              (set_completed_receipt (fresh_ctx 3) true, 0%nat) eq_refl)
    as (_ & H).
  destruct (H Hnew Hval Hcnt) as (Hr & Hb & _ & counts & _ & Hev).
  split; [reflexivity|]. split; [exact Hnew|]. split; [exact Hval|].
  split; [exact Hcnt|]. split; [exact Hr|]. split; [exact Hb|].
  reflexivity.
Defined.

End LadderWitnesses.

(** * The RPC worker: numbers, transaction ids, topics and hashes *)

Section NormalizerFacts.
Import Py EthUtils NeonRpcApiWorker.
Local Open Scope string_scope.

(** ** Characters *)

Ltac char_cases c :=
  destruct c as [[] [] [] [] [] [] [] []]; vm_compute; try reflexivity;
  try discriminate; try congruence.

Lemma hex_digit_plain (c : ascii) :
  hex_digit_value c <> None ->
  int_isspace c = false /\ py_isspace c = false
  /\ c <> "+"%char /\ c <> "-"%char /\ c <> "_"%char.
Proof. char_cases c; repeat split; discriminate. Qed.

Lemma hex_digit_is_digit (c : ascii) :
  hex_digit_value c <> None ->
  exists d, digit_value 16 c = Some d /\ (ascii_code c =? 95)%N = false.
Proof.
  destruct c as [[] [] [] [] [] [] [] []]; vm_compute;
    try congruence; intros _; eexists; split; reflexivity.
Qed.

Lemma py_isspace_lower (c : ascii) : py_isspace (char_lower c) = py_isspace c.
Proof. char_cases c. Qed.

Lemma hex_digit_lower (c : ascii) :
  hex_digit_value c <> None -> hex_digit_value (char_lower c) <> None.
Proof. char_cases c. Qed.

Lemma hex_char_hex (d : N) :
  (d < 16)%N ->
  hex_digit_value (hex_char d) = Some d
  /\ char_lower (hex_char d) = hex_char d.
Proof.
  intros Hd.
  assert (H : exists n, d = N.of_nat n /\ (n < 16)%nat)
    by (exists (N.to_nat d); split; [now rewrite N2Nat.id | lia]).
  destruct H as (n & -> & Hn).
  do 16 (destruct n as [|n]; [split; reflexivity|]). lia.
Qed.

(** ** [strip] and [lower] *)

Lemma str_lstrip_unspaced (s : string) : unspaced (str_lstrip s).
Proof.
  induction s as [|c s IH]; [exact I|].
  cbn [str_lstrip]. destruct (py_isspace c) eqn:E; [exact IH | exact E].
Qed.

Lemma str_lstrip_id (s : string) : unspaced s -> str_lstrip s = s.
Proof.
  destruct s as [|c s]; [reflexivity|]. cbn. now intros ->.
Qed.

Lemma str_rstrip_unspaced (s : string) : unspaced s -> unspaced (str_rstrip s).
Proof.
  destruct s as [|c s]; [exact id|]. cbn [unspaced str_rstrip]. intros Hc.
  destruct (str_rstrip s); [rewrite Hc|]; exact Hc.
Qed.

Lemma str_rstrip_idem (s : string) : str_rstrip (str_rstrip s) = str_rstrip s.
Proof.
  induction s as [|c s IH]; [reflexivity|].
  cbn [str_rstrip]. destruct (str_rstrip s) as [|d r] eqn:E.
  - destruct (py_isspace c) eqn:Ec; [reflexivity|].
    cbn [str_rstrip]. now rewrite Ec.
  - change (str_rstrip (String c (String d r)))
      with (match str_rstrip (String d r) with
            | EmptyString =>
                if py_isspace c then EmptyString else String c EmptyString
            | r' => String c r'
            end).
    now rewrite IH.
Qed.

Lemma str_strip_idem (s : string) : str_strip (str_strip s) = str_strip s.
Proof.
  unfold str_strip.
  rewrite (str_lstrip_id (str_rstrip (str_lstrip s)))
    by apply str_rstrip_unspaced, str_lstrip_unspaced.
  apply str_rstrip_idem.
Qed.

Lemma str_lstrip_lower (s : string) :
  str_lstrip (str_lower s) = str_lower (str_lstrip s).
Proof.
  induction s as [|c s IH]; [reflexivity|].
  cbn [str_lower str_lstrip]. rewrite py_isspace_lower.
  now destruct (py_isspace c).
Qed.

Lemma str_rstrip_lower (s : string) :
  str_rstrip (str_lower s) = str_lower (str_rstrip s).
Proof.
  induction s as [|c s IH]; [reflexivity|].
  cbn [str_lower str_rstrip]. rewrite IH, py_isspace_lower.
  destruct (str_rstrip s); [now destruct (py_isspace c) | reflexivity].
Qed.

(** [lower] and [strip] can be taken in either order. *)
Lemma str_strip_lower_swap (s : string) :
  str_strip (str_lower s) = str_lower (str_strip s).
Proof. unfold str_strip. now rewrite str_lstrip_lower, str_rstrip_lower. Qed.

Lemma str_rstrip_digits (s : string) :
  all_hex_digits s = true -> str_rstrip s = s.
Proof.
  induction s as [|c s IH]; [reflexivity|]. intros Hhex.
  apply all_hex_digits_cons in Hhex. destruct Hhex as [Hc Hhex].
  destruct (hex_digit_plain c Hc) as (_ & Hsp & _).
  cbn [str_rstrip]. rewrite (IH Hhex), Hsp. now destruct s.
Qed.

(** A text of [0x] and digits has no white space to trim. *)
Lemma str_strip_digits (h : string) :
  all_hex_digits h = true -> str_strip ("0x" ++ h) = "0x" ++ h.
Proof.
  intros Hhex. unfold str_strip.
  change (str_lstrip ("0x" ++ h)) with ("0x" ++ h).
  change ("0x" ++ h) with (String "0" (String "x" h)).
  cbn [str_rstrip]. rewrite (str_rstrip_digits h Hhex).
  now destruct h.
Qed.

Lemma str_lower_digits_hex (h : string) :
  all_hex_digits h = true -> all_hex_digits (str_lower h) = true.
Proof.
  induction h as [|c h IH]; [reflexivity|]. intros Hhex.
  apply all_hex_digits_cons in Hhex. destruct Hhex as [Hc Hhex].
  cbn [str_lower all_hex_digits].
  pose proof (hex_digit_lower c Hc) as Hl.
  destruct (hex_digit_value (char_lower c)); [now apply IH | congruence].
Qed.

Lemma str_lower_length (s : string) :
  String.length (str_lower s) = String.length s.
Proof. induction s as [|c s IH]; [reflexivity|]. cbn. now rewrite IH. Qed.

(** ** [int(s, 16)] on digits *)

Lemma scan_digits_hex (h : string) (acc : N) :
  all_hex_digits h = true ->
  exists v, scan_digits 16 h false acc = Some (v, EmptyString).
Proof.
  revert acc. induction h as [|c h IH]; intros acc Hhex.
  - exists acc. reflexivity.
  - apply all_hex_digits_cons in Hhex. destruct Hhex as [Hc Hhex].
    destruct (hex_digit_is_digit c Hc) as (d & Hd & Hu).
    cbn [scan_digits]. rewrite Hu, Hd. now apply IH.
Qed.

(** Digits with no sign, space or prefix before them are read as they
    stand. *)
Lemma int_of_str_digits (h : string) (v : N) :
  all_hex_digits h = true -> h <> "" ->
  scan_digits 16 h false 0 = Some (v, EmptyString) ->
  int_of_str 16 h = Some (Z.of_N v).
Proof.
  intros Hhex Hne Hscan.
  destruct h as [|c r]; [congruence|].
  pose proof Hhex as Hhex0.
  apply all_hex_digits_cons in Hhex. destruct Hhex as [Hc Hr].
  destruct (hex_digit_plain c Hc) as (Hsp & _ & Hplus & Hminus & _).
  destruct (hex_digit_is_digit c Hc) as (d & Hd & _).
  assert (Hstart : starts_with_digit 16 (String c r) = true)
    by (cbn; now rewrite Hd).
  assert (E : int_of_str 16 (String c r)
              = if starts_with_digit 16 (String c r) then
                  if too_many_digits 16 (String c r) then None else
                  match scan_digits 16 (String c r) false 0 with
                  | Some (v, rest) =>
                      match skip_int_space rest with
                      | EmptyString => Some (Z.of_N v)
                      | String _ _ => None
                      end
                  | None => None
                  end
                else None).
  { clear Hscan Hstart Hd Hhex0.
    unfold int_of_str. cbn [skip_int_space]. rewrite Hsp.
    destruct r as [|x r'].
    - destruct c as [[] [] [] [] [] [] [] []];
        try reflexivity; congruence.
    - apply all_hex_digits_cons in Hr. destruct Hr as [Hx _].
      apply hex_digit_not_x in Hx. destruct Hx as [Hx HX].
      destruct c as [[] [] [] [] [] [] [] []];
        try reflexivity; try congruence.
      cbn [N.eqb Pos.eqb andb].
      destruct x as [[] [] [] [] [] [] [] []];
        try reflexivity; congruence. }
  rewrite E, Hstart, Hscan. reflexivity.
Qed.

Lemma str_startswith_0x (d : string) : str_startswith ("0x" ++ d) "0x" = true.
Proof. unfold str_startswith. cbn. now destruct d. Qed.

(** ** [hex] *)

Lemma hex_digits_all_hex (fuel : nat) (m : N) (acc : string) :
  all_hex_digits acc = true -> all_hex_digits (hex_digits fuel m acc) = true.
Proof.
  revert m acc. induction fuel as [|fuel IH]; intros m acc Hacc; [exact Hacc|].
  assert (Hd : (m mod 16 < 16)%N) by (apply N.mod_lt; discriminate).
  assert (Hacc' : all_hex_digits (String (hex_char (m mod 16)) acc) = true).
  { cbn [all_hex_digits]. destruct (hex_char_hex _ Hd) as [-> _]. exact Hacc. }
  cbn [hex_digits]. destruct (m / 16 =? 0)%N; [exact Hacc' | now apply IH].
Qed.

Lemma hex_digits_lower (fuel : nat) (m : N) (acc : string) :
  str_lower acc = acc ->
  str_lower (hex_digits fuel m acc) = hex_digits fuel m acc.
Proof.
  revert m acc. induction fuel as [|fuel IH]; intros m acc Hacc; [exact Hacc|].
  assert (Hd : (m mod 16 < 16)%N) by (apply N.mod_lt; discriminate).
  assert (Hacc' : str_lower (String (hex_char (m mod 16)) acc)
                  = String (hex_char (m mod 16)) acc).
  { cbn [str_lower]. destruct (hex_char_hex _ Hd) as [_ ->]. now rewrite Hacc. }
  cbn [hex_digits]. destruct (m / 16 =? 0)%N; [exact Hacc' | now apply IH].
Qed.

(** The digits [hex] prints for a natural number, without the prefix, read
    back as that number. *)
Lemma int_of_hex_digits (m : N) :
  let digits := hex_digits (S (N.to_nat (N.log2 m))) m "" in
  int_of_str 16 digits = Some (Z.of_N m)
  /\ str_lower digits = digits.
Proof.
  intros digits. set (fuel := N.to_nat (N.log2 m)) in digits.
  assert (Hm : (m < 16 ^ N.of_nat (S fuel))%N).
  { subst fuel. rewrite Nat2N.inj_succ, N2Nat.id.
    destruct (N.eq_dec m 0) as [->|Hz]; [reflexivity|].
    pose proof (N.log2_spec m ltac:(lia)) as [_ Hlt].
    eapply N.lt_le_trans; [exact Hlt|].
    apply N.pow_le_mono_l. lia. }
  destruct (hex_digits_reads (S fuel) m EmptyString 0 0 Hm reads_empty)
    as (k' & Hreads).
  destruct (hex_digits_head fuel m EmptyString) as (d & rest & Hd & Hhead).
  split; [|now apply hex_digits_lower].
  apply int_of_str_digits.
  - now apply hex_digits_all_hex.
  - subst digits. rewrite Hhead. discriminate.
  - subst digits. rewrite Hreads. f_equal. f_equal. cbn. lia.
Qed.

(** [int(hex(n), 16)] is [n] for a negative number too. *)
Lemma int_of_hex_signed (n : Z) : int_of_str 16 (hex n) = Some n.
Proof.
  destruct (Z.ltb_spec n 0) as [Hneg|Hpos]; [|now apply int_of_hex].
  unfold hex. destruct (Z.ltb_spec n 0) as [_|]; [|lia].
  set (m := Z.to_N (Z.abs n)). set (fuel := N.to_nat (N.log2 m)).
  assert (Hm : (m < 16 ^ N.of_nat (S fuel))%N).
  { subst fuel. rewrite Nat2N.inj_succ, N2Nat.id.
    destruct (N.eq_dec m 0) as [->|Hz]; [reflexivity|].
    pose proof (N.log2_spec m ltac:(lia)) as [_ Hlt].
    eapply N.lt_le_trans; [exact Hlt|].
    apply N.pow_le_mono_l. lia. }
  destruct (hex_digits_reads (S fuel) m EmptyString 0 0 Hm reads_empty)
    as (k' & Hreads).
  destruct (hex_digits_head fuel m EmptyString) as (d & rest & Hd & Hhead).
  destruct (hex_char_digit d Hd) as [Hv Hu].
  unfold int_of_str. cbn [append skip_int_space].
  change (int_isspace "-") with false. cbn iota.
  change (ascii_code "x" =? 120)%N with true.
  change (16 =? 16)%N with true. cbn [andb orb].
  rewrite Hhead.
  assert (Hnot : match String (hex_char d) rest with
                 | String "_" r' => r'
                 | _ => String (hex_char d) rest
                 end = String (hex_char d) rest).
  { assert (H : hex_char d <> "_"%char).
    { intros E. rewrite E in Hu. discriminate Hu. }
    destruct (hex_char d) as [[] [] [] [] [] [] [] []];
      try reflexivity; congruence. }
  rewrite Hnot. unfold starts_with_digit. rewrite Hv.
  change (too_many_digits 16 (String (hex_char d) rest)) with false.
  cbn iota.
  rewrite <- Hhead, Hreads. cbn [skip_int_space].
  f_equal. subst m. rewrite N.mul_0_l, !N.add_0_l, N.mul_1_r.
  cbn. lia.
Qed.

Lemma str_lower_hex (n : Z) : str_lower (hex n) = hex n.
Proof.
  unfold hex.
  destruct (int_of_hex_digits (Z.to_N (Z.abs n))) as [_ Hlow].
  destruct (n <? 0)%Z; cbn [append str_lower]; now rewrite Hlow.
Qed.

(** ** [bytes.hex] and [bytes.fromhex] *)

Lemma byte_nibbles (b : byte) :
  (Byte.to_N b / 16 < 16)%N /\ (Byte.to_N b mod 16 < 16)%N.
Proof.
  pose proof (Byte.to_N_bounded b) as Hb. split.
  - apply N.Div0.div_lt_upper_bound. lia.
  - apply N.mod_lt. discriminate.
Qed.

Lemma bytes_fromhex_byte (b : byte) (rest : string) :
  bytes_fromhex (byte_hex b ++ rest)
  = match bytes_fromhex rest with
    | Some bs => Some (b :: bs)
    | None => None
    end.
Proof.
  destruct (byte_nibbles b) as [H1 H2].
  destruct (hex_char_hex _ H1) as [Hv1 _].
  destruct (hex_char_hex _ H2) as [Hv2 _].
  unfold byte_hex. cbn [append bytes_fromhex].
  rewrite (hex_digit_no_space (hex_char (Byte.to_N b / 16)))
    by (rewrite Hv1; discriminate).
  rewrite Hv1, Hv2.
  replace (Byte.to_N b / 16 * 16 + Byte.to_N b mod 16)%N with (Byte.to_N b)
    by (rewrite (N.div_mod (Byte.to_N b) 16) at 1 by discriminate; lia).
  change (byte_of_Z (Z.of_N (Byte.to_N b))) with (byte_of_Z (byte_to_Z b)).
  now rewrite byte_of_to_Z.
Qed.

(** The text [bytes.hex] prints is read back by [bytes.fromhex]. *)
Lemma bytes_fromhex_hex (bs : bytes) : bytes_fromhex (bytes_hex bs) = Some bs.
Proof.
  induction bs as [|b bs IH]; [reflexivity|].
  cbn [bytes_hex]. now rewrite bytes_fromhex_byte, IH.
Qed.

Lemma bytes_hex_shape (bs : bytes) :
  String.length (bytes_hex bs) = (2 * List.length bs)%nat
  /\ all_hex_digits (bytes_hex bs) = true
  /\ str_lower (bytes_hex bs) = bytes_hex bs.
Proof.
  induction bs as [|b bs (IH1 & IH2 & IH3)]; [now repeat split|].
  destruct (byte_nibbles b) as [H1 H2].
  destruct (hex_char_hex _ H1) as [Hv1 Hl1].
  destruct (hex_char_hex _ H2) as [Hv2 Hl2].
  cbn [bytes_hex byte_hex append String.length List.length all_hex_digits
         str_lower].
  rewrite Hv1, Hv2, Hl1, Hl2, IH1, IH3. repeat split; [lia | exact IH2].
Qed.

(** ** The normalizers on digits *)

Lemma normalize_tx_id_digits (s h : string) :
  str_strip (str_lower s) = "0x" ++ h ->
  String.length h = 64%nat -> all_hex_digits h = true ->
  _normalize_tx_id (ParamStr s) = Ok ("0x" ++ h).
Proof.
  intros Heq Hlen Hhex. unfold _normalize_tx_id. rewrite Heq.
  change (String.length ("0x" ++ h)) with (S (S (String.length h))).
  rewrite Hlen.
  change (str_take 2 ("0x" ++ h)) with "0x".
  change (str_drop 2 ("0x" ++ h)) with h.
  cbn [Nat.eqb String.eqb Ascii.eqb Bool.eqb assert rbind andb].
  destruct (scan_digits_hex h 0 Hhex) as (v & Hv).
  rewrite (int_of_str_digits h v Hhex); [reflexivity | | exact Hv].
  intros ->. discriminate Hlen.
Qed.

Lemma normalize_topic_bytes (s : string) (bs : bytes) :
  str_lower (str_strip s) = "0x" ++ bytes_hex bs ->
  List.length bs = 32%nat ->
  _normalize_topic (ParamStr s) = Ok ("0x" ++ bytes_hex bs).
Proof.
  intros Heq Hlen. unfold _normalize_topic. rewrite Heq.
  change (str_take 2 ("0x" ++ bytes_hex bs)) with "0x".
  change (str_drop 2 ("0x" ++ bytes_hex bs)) with (bytes_hex bs).
  cbn [String.eqb Ascii.eqb Bool.eqb assert rbind andb].
  rewrite bytes_fromhex_hex, Hlen.
  cbn [Nat.eqb assert rbind].
  destruct (bytes_hex_shape bs) as (_ & _ & ->). reflexivity.
Qed.

(** A text of [0x] and digits in lower case is its own trimmed and lowered
    form. *)
Lemma canonical_text (h : string) :
  all_hex_digits h = true -> str_lower h = h ->
  str_lower (str_strip ("0x" ++ h)) = "0x" ++ h
  /\ str_strip (str_lower ("0x" ++ h)) = "0x" ++ h.
Proof.
  intros Hhex Hlow.
  assert (H : str_lower ("0x" ++ h) = "0x" ++ h)
    by (cbn; now rewrite Hlow).
  rewrite str_strip_lower_swap, (str_strip_digits h Hhex). now split.
Qed.

(** ** [_normalize_address] on its own results *)

Lemma normalize_address_digits (raw address_type h : string) :
  str_lower (str_strip raw) = "0x" ++ h ->
  String.length h = 40%nat -> all_hex_digits h = true -> str_lower h = h ->
  _normalize_address raw address_type = Ok (checksum_case h).
Proof.
  intros Heq Hlen Hhex Hlow. unfold _normalize_address. rewrite Heq.
  change (str_take 2 ("0x" ++ h)) with "0x".
  change (str_drop 2 ("0x" ++ h)) with h.
  cbn [String.eqb Ascii.eqb Bool.eqb assert rbind].
  destruct (bytes_fromhex_digits 20 h Hlen Hhex) as (bs & -> & ->).
  cbn [Nat.eqb assert rbind].
  now rewrite (to_checksum_address_digits h Hlen Hhex Hlow).
Qed.

Lemma normalize_address_inv (raw address_type r : string) :
  _normalize_address raw address_type = Ok r ->
  exists h,
    str_lower (str_strip raw) = "0x" ++ h
    /\ String.length h = 40%nat /\ all_hex_digits h = true
    /\ str_lower h = h /\ r = checksum_case h.
Proof.
  unfold _normalize_address. set (trimmed := str_lower (str_strip raw)).
  assert (Hlow : str_lower trimmed = trimmed) by apply str_lower_idem.
  destruct (String.eqb_spec (str_take 2 trimmed) "0x") as [Hpre|Hpre];
    [|discriminate].
  cbn [assert rbind].
  set (h := str_drop 2 trimmed).
  assert (Heq : trimmed = "0x" ++ h)
    by (rewrite <- Hpre; symmetry; apply str_take_drop).
  destruct (bytes_fromhex h) as [bs|] eqn:Ebs; [|discriminate].
  destruct (List.length bs =? 20)%nat; [|discriminate].
  cbn [assert rbind].
  destruct (to_checksum_address h) as [r'|e] eqn:Er; [|discriminate].
  intros Hr. injection Hr as <-.
  assert (Hh : str_lower h = h)
    by (rewrite Heq in Hlow; cbn in Hlow; now injection Hlow).
  destruct (to_checksum_address_inv h r') as [Hlen Hhex]; [|exact Hh|exact Er|].
  - destruct (is_0x_prefixed h) eqn:E; [|reflexivity].
    apply prefixed_no_bytes in E. congruence.
  - exists h. repeat split; try assumption.
    rewrite (to_checksum_address_digits h Hlen Hhex Hh) in Er. congruence.
Qed.

(** * Numbers *)

(** X16. [_normalize_hex] reads back what [hex] prints: for a natural
    number [n], every text that is [hex n] up to the case of its letters
    gives [n], under any parameter name. *)
Theorem normalize_hex_reads_hex (n : Z) (s name : string) :
  0 <= n -> str_lower s = hex n ->
  _normalize_hex (ParamStr s) name = Ok n.
Proof.
  intros Hn Hs. unfold _normalize_hex. rewrite Hs. unfold hex.
  destruct (Z.ltb_spec n 0) as [|_]; [lia|].
  rewrite Z.abs_eq by assumption.
  destruct (int_of_hex_digits (Z.to_N n)) as [Hint _].
  cbn zeta in Hint.
  set (d := hex_digits _ _ _) in *.
  rewrite str_startswith_0x.
  change (str_drop 2 ("0x" ++ d)) with d.
  cbn [negb]. rewrite Hint, Z2N.id by assumption. reflexivity.
Qed.

(** X17. [_normalize_hex] checks that the text begins with [0x] and
    leaves what follows to [int(..., 16)], which takes a sign and a prefix
    of its own.  So the text [0x] followed by what [hex] prints for [n]
    gives [n] whatever the sign of [n]: the number returned can be negative.
    A negative number as [hex] prints it begins with the sign and is
    refused. *)
Theorem normalize_hex_sign (n : Z) (name : string) :
  _normalize_hex (ParamStr ("0x" ++ hex n)) name = Ok n
  /\ (n < 0 ->
      _normalize_hex (ParamStr (hex n)) name
      = Raise (InvalidParamError ("invalid " ++ name ++ ": value"))).
Proof.
  split.
  - unfold _normalize_hex.
    change (str_lower ("0x" ++ hex n)) with ("0x" ++ str_lower (hex n)).
    rewrite str_lower_hex.
    rewrite str_startswith_0x.
    change (str_drop 2 ("0x" ++ hex n)) with (hex n).
    cbn [negb]. now rewrite int_of_hex_signed.
  - intros Hn. unfold _normalize_hex. rewrite str_lower_hex. unfold hex.
    destruct (Z.ltb_spec n 0) as [_|]; [reflexivity|lia].
Qed.

(** * Transaction ids *)

(** X18. What [_normalize_tx_id] returns is the given text in lower case
    with the white space around it removed: 66 characters that begin with
    [0x], and a text that [_normalize_tx_id] returns unchanged. *)
Theorem normalize_tx_id_result (tag : Param) (r : string) :
  _normalize_tx_id tag = Ok r ->
  (exists s, tag = ParamStr s /\ r = str_strip (str_lower s))
  /\ String.length r = 66%nat
  /\ str_take 2 r = "0x"
  /\ str_lower r = r
  /\ _normalize_tx_id (ParamStr r) = Ok r.
Proof.
  destruct tag as [s| | |]; try discriminate.
  intros Hr.
  assert (Hfix : str_strip (str_lower (str_strip (str_lower s)))
                 = str_strip (str_lower s))
    by (rewrite <- str_strip_lower_swap, str_strip_idem, str_lower_idem;
        reflexivity).
  assert (Hsame : _normalize_tx_id (ParamStr (str_strip (str_lower s)))
                  = _normalize_tx_id (ParamStr s))
    by (unfold _normalize_tx_id; now rewrite Hfix).
  unfold _normalize_tx_id in Hr.
  set (t := str_strip (str_lower s)) in *.
  destruct (Nat.eqb_spec (String.length t) 66) as [Hlen|]; [|discriminate].
  destruct (String.eqb_spec (str_take 2 t) "0x") as [Hpre|]; [|discriminate].
  cbn [assert rbind] in Hr.
  destruct (int_of_str 16 (str_drop 2 t)) as [v|] eqn:E; [|discriminate].
  injection Hr as <-.
  split; [now exists s|]. split; [exact Hlen|]. split; [exact Hpre|].
  split.
  - subst t. now rewrite <- str_strip_lower_swap, str_lower_idem.
  - rewrite Hsame. unfold _normalize_tx_id. fold t.
    rewrite Hlen, Hpre, E. reflexivity.
Qed.

(** X19. [_normalize_tx_id] accepts a transaction hash: when the text in
    lower case and without the white space around it is [0x] and 64
    hexadecimal digits, that is the result.  A text of another length
    there raises [InvalidParamError] with [transaction-id is not hex], and a
    parameter that is no [str] with [bad transaction-id format]. *)
Theorem normalize_tx_id_accepts (tag : Param) :
  (forall s h,
      tag = ParamStr s ->
      str_strip (str_lower s) = "0x" ++ h ->
      String.length h = 64%nat -> all_hex_digits h = true ->
      _normalize_tx_id tag = Ok ("0x" ++ h))
  /\ (forall s,
         tag = ParamStr s ->
         String.length (str_strip (str_lower s)) <> 66%nat ->
         _normalize_tx_id tag
         = Raise (InvalidParamError "transaction-id is not hex"))
  /\ ((forall s, tag <> ParamStr s) ->
      _normalize_tx_id tag
      = Raise (InvalidParamError "bad transaction-id format")).
Proof.
  split; [|split].
  - intros s h -> Heq Hlen Hhex. now apply normalize_tx_id_digits.
  - intros s -> Hlen. unfold _normalize_tx_id.
    now destruct (Nat.eqb_spec (String.length (str_strip (str_lower s))) 66).
  - intros Hno. destruct tag as [s| | |]; try reflexivity.
    now destruct (Hno s).
Qed.

(** * Topics *)

(** X20. What [_normalize_topic] returns depends on the 32 bytes the text
    stands for only: it is [0x] and the 64 hexadecimal digits of these bytes
    in lower case, 66 characters, and a text that [_normalize_topic] returns
    unchanged. *)
Theorem normalize_topic_canonical (raw_topic : Param) (r : string) :
  _normalize_topic raw_topic = Ok r ->
  exists s bin_topic,
    raw_topic = ParamStr s
    /\ bytes_fromhex (str_drop 2 (str_lower (str_strip s))) = Some bin_topic
    /\ List.length bin_topic = 32%nat
    /\ r = "0x" ++ bytes_hex bin_topic
    /\ String.length r = 66%nat
    /\ all_hex_digits (str_drop 2 r) = true
    /\ str_lower r = r
    /\ _normalize_topic (ParamStr r) = Ok r.
Proof.
  destruct raw_topic as [s| | |]; try discriminate.
  unfold _normalize_topic. set (t := str_lower (str_strip s)).
  destruct (String.eqb_spec (str_take 2 t) "0x") as [Hpre|]; [|discriminate].
  cbn [assert rbind].
  destruct (bytes_fromhex (str_drop 2 t)) as [bs|] eqn:Ebs; [|discriminate].
  destruct (Nat.eqb_spec (List.length bs) 32) as [Hlen|]; [|discriminate].
  cbn [assert rbind]. intros Hr. injection Hr as <-.
  destruct (bytes_hex_shape bs) as (Hl & Hhex & Hlow).
  rewrite Hlow.
  destruct (canonical_text (bytes_hex bs) Hhex Hlow) as [Hcan _].
  exists s, bs. repeat split; try assumption.
  - cbn [append String.length]. rewrite Hl, Hlen. reflexivity.
  - cbn [append str_lower]. now rewrite Hlow.
  - apply (normalize_topic_bytes _ bs Hcan Hlen).
Qed.

(** X21. Every value of 32 bytes is a topic: [_normalize_topic] accepts
    [0x] followed by the digits [bytes.hex] prints for it, and returns this
    text.  The digits of a value of another length are refused with
    [bad topic] and the text given. *)
Theorem normalize_topic_of_bytes (bin_topic : bytes) :
  let text := "0x" ++ bytes_hex bin_topic in
  _normalize_topic (ParamStr text)
  = if (List.length bin_topic =? 32)%nat then Ok text
    else Raise (InvalidParamError ("bad topic " ++ text)).
Proof.
  intros text.
  destruct (bytes_hex_shape bin_topic) as (Hl & Hhex & Hlow).
  destruct (canonical_text (bytes_hex bin_topic) Hhex Hlow) as [Hcan _].
  destruct (Nat.eqb_spec (List.length bin_topic) 32) as [Hlen|Hlen].
  - now apply normalize_topic_bytes.
  - unfold _normalize_topic. fold text in Hcan. rewrite Hcan.
    change (str_take 2 text) with "0x".
    change (str_drop 2 text) with (bytes_hex bin_topic).
    cbn [String.eqb Ascii.eqb Bool.eqb assert rbind andb].
    rewrite bytes_fromhex_hex.
    destruct (Nat.eqb_spec (List.length bin_topic) 32); [contradiction|].
    reflexivity.
Qed.

(** * Addresses *)

(** X22. [_normalize_address] is stable on its results: the address it
    returns, given again as it is or in lower case (as the callers pass it
    on), is returned unchanged, under any field name. *)
Theorem normalize_address_stable (raw address_type r other_type : string) :
  _normalize_address raw address_type = Ok r ->
  _normalize_address r other_type = Ok r
  /\ _normalize_address (str_lower r) other_type = Ok r.
Proof.
  intros Hr.
  destruct (normalize_address_inv _ _ _ Hr)
    as (h & _ & Hlen & Hhex & Hlow & ->).
  set (ns := nibbles (Keccak.keccak256 (list_byte_of_string h))).
  assert (Hns : (String.length h <= List.length ns)%nat)
    by (subst ns; rewrite nibbles_length, keccak256_length, Hlen; lia).
  pose proof (checksum_chars_hex h ns Hhex) as Hchex.
  pose proof (checksum_chars_lower h ns Hns Hlow) as Hclow.
  assert (Hl : str_lower (checksum_case h) = "0x" ++ h)
    by (unfold checksum_case; fold ns;
        change (str_lower ("0x" ++ checksum_chars h ns))
          with ("0x" ++ str_lower (checksum_chars h ns));
        now rewrite Hclow).
  destruct (canonical_text h Hhex Hlow) as [Hcan _].
  split.
  - apply normalize_address_digits; try assumption.
    rewrite <- str_strip_lower_swap, Hl. now apply str_strip_digits.
  - apply normalize_address_digits; try assumption.
    rewrite Hl. exact Hcan.
Qed.

(** * Hashes *)

(** X23. [web3_sha3] hashes the bytes the text stands for after its first
    two characters, which are dropped unread.  What it returns is [0x] and
    the 64 hexadecimal digits of the Keccak-256 hash in lower case, 66
    characters, and is taken as it stands as a topic by [_normalize_topic]
    and as a transaction id by [_normalize_tx_id]. *)
Theorem web3_sha3_result (data : Param) (r : string) :
  web3_sha3 data = Ok r ->
  (exists s bin_data,
      data = ParamStr s
      /\ bytes_fromhex (str_drop 2 s) = Some bin_data
      /\ r = "0x" ++ bytes_hex (Keccak.keccak256 bin_data))
  /\ String.length r = 66%nat
  /\ all_hex_digits (str_drop 2 r) = true
  /\ _normalize_topic (ParamStr r) = Ok r
  /\ _normalize_tx_id (ParamStr r) = Ok r.
Proof.
  unfold web3_sha3.
  destruct data as [s| | |]; try discriminate.
  destruct (bytes_fromhex (str_drop 2 s)) as [bs|] eqn:Ebs; [|discriminate].
  intros Hr. injection Hr as <-.
  set (digest := Keccak.keccak256 bs).
  pose proof (keccak256_length bs) as Hlen. fold digest in Hlen.
  destruct (bytes_hex_shape digest) as (Hl & Hhex & Hlow).
  destruct (canonical_text (bytes_hex digest) Hhex Hlow) as [Hcan Hcan'].
  assert (Hl64 : String.length (bytes_hex digest) = 64%nat)
    by (rewrite Hl, Hlen; reflexivity).
  split; [now exists s, bs|].
  split; [cbn [append String.length]; now rewrite Hl64|].
  split; [exact Hhex|].
  split.
  - apply (normalize_topic_bytes _ digest Hcan Hlen).
  - apply (normalize_tx_id_digits _ _ Hcan' Hl64 Hhex).
Qed.

End NormalizerFacts.

Section NormalizerRuns.
Import Py EthUtils NeonRpcApiWorker WorkerExample.
Local Open Scope string_scope.

Lemma normalize_hex_reads_hex_witness :
  0 <= 31
  /\ str_lower "0X1F" = hex 31
  /\ _normalize_hex (ParamStr "0X1F") "nonce" = Ok 31.
Proof.
  split; [lia|]. split; [reflexivity|].
  apply (normalize_hex_reads_hex 31 "0X1F" "nonce"); [lia | reflexivity].
Defined.

Lemma normalize_hex_sign_witness :
  _normalize_hex (ParamStr "0x-0x5") "gas" = Ok (-5)
  /\ -5 < 0
  /\ _normalize_hex (ParamStr "-0x5") "gas"
     = Raise (InvalidParamError "invalid gas: value").
Proof.
  destruct (normalize_hex_sign (-5) "gas") as [Hok Hbad].
  split; [exact Hok|]. split; [lia|]. apply Hbad. lia.
Defined.

Lemma raw_tx_id_accepted : _normalize_tx_id (ParamStr raw_tx_id) = Ok tx_id.
Proof. vm_compute. reflexivity. Qed.

Lemma normalize_tx_id_result_witness :
  _normalize_tx_id (ParamStr raw_tx_id) = Ok tx_id
  /\ String.length tx_id = 66%nat
  /\ _normalize_tx_id (ParamStr tx_id) = Ok tx_id.
Proof.
  split; [exact raw_tx_id_accepted|].
  destruct (normalize_tx_id_result (ParamStr raw_tx_id) tx_id
              raw_tx_id_accepted) as (_ & Hlen & _ & _ & Hagain).
  split; [exact Hlen | exact Hagain].
Defined.

Lemma normalize_tx_id_accepts_witness :
  str_strip (str_lower raw_tx_id) = "0x" ++ str_drop 2 tx_id
  /\ String.length (str_drop 2 tx_id) = 64%nat
  /\ all_hex_digits (str_drop 2 tx_id) = true
  /\ _normalize_tx_id (ParamStr raw_tx_id) = Ok tx_id
  /\ String.length (str_strip (str_lower "0x88df")) <> 66%nat
  /\ _normalize_tx_id (ParamStr "0x88df")
     = Raise (InvalidParamError "transaction-id is not hex")
  /\ _normalize_tx_id (ParamInt 7)
     = Raise (InvalidParamError "bad transaction-id format").
Proof.
  split; [reflexivity|]. split; [reflexivity|]. split; [reflexivity|].
  split.
  - destruct (normalize_tx_id_accepts (ParamStr raw_tx_id)) as (Hok & _).
    apply (Hok raw_tx_id (str_drop 2 tx_id)); reflexivity.
  - assert (Hlen : String.length (str_strip (str_lower "0x88df")) <> 66%nat)
      by (vm_compute; discriminate).
    split; [exact Hlen|]. split.
    + destruct (normalize_tx_id_accepts (ParamStr "0x88df")) as (_ & Hbad & _).
      now apply (Hbad "0x88df").
    + destruct (normalize_tx_id_accepts (ParamInt 7)) as (_ & _ & Hbad).
      apply Hbad. discriminate.
Defined.

Lemma raw_topic_accepted : _normalize_topic (ParamStr raw_topic) = Ok topic.
Proof. vm_compute. reflexivity. Qed.

Lemma normalize_topic_canonical_witness :
  _normalize_topic (ParamStr raw_topic) = Ok topic
  /\ String.length topic = 66%nat
  /\ _normalize_topic (ParamStr topic) = Ok topic.
Proof.
  split; [exact raw_topic_accepted|].
  destruct (normalize_topic_canonical (ParamStr raw_topic) topic
              raw_topic_accepted)
    as (s & bs & _ & _ & _ & _ & Hlen & _ & _ & Hagain).
  split; [exact Hlen | exact Hagain].
Defined.

Lemma account_normalized :
  _normalize_address "  0XFB6916095CA1DF60BB79CE92CE3EA74C37C5D359 " "address"
  = Ok "0xfB6916095ca1df60bB79Ce92cE3Ea74c37c5d359".
Proof. vm_compute. reflexivity. Qed.

Lemma normalize_address_stable_witness :
  _normalize_address "  0XFB6916095CA1DF60BB79CE92CE3EA74C37C5D359 " "address"
  = Ok "0xfB6916095ca1df60bB79Ce92cE3Ea74c37c5d359"
  /\ _normalize_address "0xfB6916095ca1df60bB79Ce92cE3Ea74c37c5d359" "to"
     = Ok "0xfB6916095ca1df60bB79Ce92cE3Ea74c37c5d359"
  /\ _normalize_address "0xfb6916095ca1df60bb79ce92ce3ea74c37c5d359" "to"
     = Ok "0xfB6916095ca1df60bB79Ce92cE3Ea74c37c5d359".
Proof.
  split; [exact account_normalized|].
  exact (normalize_address_stable _ _ _ "to" account_normalized).
Defined.

Lemma hello_world_hashed : web3_sha3 (ParamStr hello_world) = Ok hello_world_hash.
Proof. vm_compute. reflexivity. Qed.

Lemma web3_sha3_result_witness :
  web3_sha3 (ParamStr hello_world) = Ok hello_world_hash
  /\ String.length hello_world_hash = 66%nat
  /\ _normalize_topic (ParamStr hello_world_hash) = Ok hello_world_hash
  /\ _normalize_tx_id (ParamStr hello_world_hash) = Ok hello_world_hash.
Proof.
  split; [exact hello_world_hashed|].
  destruct (web3_sha3_result (ParamStr hello_world) hello_world_hash
              hello_world_hashed) as (_ & Hlen & _ & Htopic & Hid).
  split; [exact Hlen|]. split; [exact Htopic | exact Hid].
Defined.

End NormalizerRuns.

(** * The RPC worker: balances and the gas price *)

Section BalanceFacts.
Import Py NeonRpcApiWorker.
Local Open Scope string_scope.

Context {SolBlockInfo : Type}.
Variable is_empty : SolBlockInfo -> result bool.
Variable get_block_by_hash : string -> result SolBlockInfo.
Variable get_block_by_slot : Json -> result SolBlockInfo.
Variable repr : Json -> result string.
Variable gas_less_tx_max_nonce : Z.
Variable gas_less_tx_max_gas : Z.
Variable has_gas_less_tx_permit : string -> result bool.
Variable get_neon_account_info :
  string -> SolCommit -> result (option NeonAccountInfo).

Local Abbreviation validate_block_tag :=
  (_validate_block_tag is_empty get_block_by_hash get_block_by_slot repr).
Local Abbreviation balance_of :=
  (eth_getBalance is_empty get_block_by_hash get_block_by_slot repr
     gas_less_tx_max_nonce gas_less_tx_max_gas
     has_gas_less_tx_permit get_neon_account_info).
Local Abbreviation permit_of :=
  (_has_gas_less_tx_permit gas_less_tx_max_nonce gas_less_tx_max_gas
     has_gas_less_tx_permit).

(** The steps of the [try] block, in their order: the test of the tag
    against [{'finalized', 'safe'}], the Chain query, and the gas tank for
    a balance of zero. *)
Lemma eth_getBalance_run (account : string) (tag : Tag) (address : string) :
  validate_block_tag tag = Ok tt ->
  _normalize_address account "address" = Ok address ->
  balance_of account tag
  = except_Exception
      (rbind (tag_in tag ["finalized"; "safe"]) (fun _ =>
       rbind (get_neon_account_info address (balance_commitment tag))
         (fun neon_account_info =>
            match neon_account_info with
            | Some info =>
                if (balance info =? 0)%Z
                then _get_zero_balance gas_less_tx_max_nonce
                       gas_less_tx_max_gas has_gas_less_tx_permit address
                       neon_account_info
                else Ok (hex (balance info))
            | None =>
                _get_zero_balance gas_less_tx_max_nonce gas_less_tx_max_gas
                  has_gas_less_tx_permit address neon_account_info
            end)))
      (Ok (hex 0)).
Proof.
  intros Htag Haddr. unfold eth_getBalance, balance_commitment.
  rewrite Htag, Haddr. cbn [rbind]. f_equal.
  destruct tag as [s|n|d]; cbn [tag_is tag_in existsb orb rbind];
    [|reflexivity|reflexivity].
  destruct (s =? "pending"); cbn [rbind]; [reflexivity|].
  rewrite orb_false_r.
  destruct ((s =? "finalized") || (s =? "safe")); reflexivity.
Qed.



End BalanceFacts.

Section GasPriceFacts.
Import Py NeonRpcApiWorker.
Local Open Scope string_scope.

Variable get_req_id_from_log : string.

Local Abbreviation mempool := (string -> result (option MPGasPriceResult)).
Local Abbreviation calls_on := (eth_gasPrice_calls get_req_id_from_log).

(** What a call leaves in the worker, and what it answers. *)
Lemma eth_gasPrice_step (self : GasPriceFields) (now : Z)
    (get_gas_price : mempool) :
  now <> _last_gas_price_time self ->
  let answer :=
    match get_gas_price get_req_id_from_log with
    | Ok a => a
    | Raise _ => None
    end in
  let known := last_price (_gas_price_value self) [answer] in
  let after := snd (eth_gasPrice get_req_id_from_log self now get_gas_price) in
  _gas_price_value after = known
  /\ _last_gas_price_time after = _last_gas_price_time self
  /\ fst (eth_gasPrice get_req_id_from_log self now get_gas_price)
     = match get_gas_price get_req_id_from_log with
       | Raise e => Raise e
       | Ok _ =>
           match known with
           | Some price => Ok (hex (suggested_gas_price price))
           | None =>
               Raise (EthereumError
                        "Failed to calculate gas price. Try again later")
           end
       end.
Proof.
  intros Hnow. cbn zeta. unfold eth_gasPrice, _gas_price.
  destruct (Z.eqb_spec (_last_gas_price_time self) now) as [E|_];
    [congruence|].
  cbn [negb last_price].
  destruct (get_gas_price get_req_id_from_log) as [[price|]|e];
    cbn [fst snd _gas_price_value _last_gas_price_time rbind].
  - split; [reflexivity|]. split; reflexivity.
  - destruct (_gas_price_value self) as [price|] eqn:E;
      cbn [fst snd rbind];
      (split; [exact E|]; split; reflexivity).
  - split; [reflexivity|]. split; reflexivity.
Qed.

(** X26. The worker keeps the last gas price the mempool gave.  In a
    sequence of [eth_gasPrice] calls, none at the very second the field
    [_last_gas_price_time] holds (a field that no call changes, so that the
    mempool is asked at every call), the answer to a call the mempool
    answers is [hex] of the suggested price of the last answer so far that
    was not [None], the price the worker began with if there was none, and
    [EthereumError] when there is no such price at all.  An exception of the
    mempool is raised to the caller and leaves the price known as it was. *)
Theorem gas_price_last_known (self : GasPriceFields)
    (calls : list (Z * mempool)) :
  Forall (fun c => fst c <> _last_gas_price_time self) calls ->
  let answers :=
    map (fun c : Z * mempool =>
           match snd c get_req_id_from_log with
           | Ok a => a
           | Raise _ => None
           end) calls in
  let after := snd (calls_on self calls) in
  _gas_price_value after = last_price (_gas_price_value self) answers
  /\ _last_gas_price_time after = _last_gas_price_time self
  /\ forall k now get_gas_price,
       nth_error calls k = Some (now, get_gas_price) ->
       nth_error (fst (calls_on self calls)) k
       = Some match get_gas_price get_req_id_from_log with
              | Raise e => Raise e
              | Ok _ =>
                  match last_price (_gas_price_value self)
                          (firstn (S k) answers) with
                  | Some price => Ok (hex (suggested_gas_price price))
                  | None =>
                      Raise (EthereumError
                               "Failed to calculate gas price. Try again later")
                  end
              end.
Proof.
  revert self. induction calls as [|[now0 m0] calls IH]; intros self Hall.
  - cbn. split; [reflexivity|]. split; [reflexivity|].
    intros [|k] now m H; discriminate H.
  - inversion Hall as [|c cs Hnow Hrest]; subst c cs. cbn [fst] in Hnow.
    destruct (eth_gasPrice_step self now0 m0 Hnow) as (Hv & Ht & Ha).
    cbn zeta in Hv, Ht, Ha. cbn [last_price] in Hv, Ha.
    cbn [eth_gasPrice_calls].
    destruct (eth_gasPrice get_req_id_from_log self now0 m0)
      as [answer self'] eqn:Estep.
    cbn [fst snd] in Hv, Ht, Ha.
    assert (Hall' : Forall (fun c : Z * mempool =>
                              fst c <> _last_gas_price_time self') calls)
      by (rewrite Ht; exact Hrest).
    destruct (IH self' Hall') as (IHv & IHt & IHa). cbn zeta in IHv, IHt, IHa.
    destruct (eth_gasPrice_calls get_req_id_from_log self' calls)
      as [answers' self''] eqn:Erest.
    cbn [fst snd] in IHv, IHt, IHa. cbn [fst snd map last_price].
    split; [now rewrite IHv, Hv|]. split; [now rewrite IHt|].
    intros [|k] now m Hk.
    + cbn [nth_error] in Hk. injection Hk as -> ->.
      cbn [nth_error firstn last_price]. now rewrite Ha.
    + cbn [nth_error] in Hk. cbn [nth_error firstn last_price].
      rewrite (IHa k now m Hk), Hv. reflexivity.
Qed.

End GasPriceFacts.

(** * The RPC worker: calls *)

Section CallFacts.
Import Py NeonRpcApiWorker.
Local Open Scope string_scope.

Context {SolBlockInfo : Type}.
Variable is_empty : SolBlockInfo -> result bool.
Variable get_block_by_hash : string -> result SolBlockInfo.
Variable get_block_by_slot : Json -> result SolBlockInfo.
Variable repr : Json -> result string.
Variable retry_on_fail : Z.
Variable call_emulated : nat -> Json -> Json -> Json -> Json -> result Json.
Variable check_emulated_exit_status : Json -> result unit.

Local Abbreviation validate_block_tag :=
  (_validate_block_tag is_empty get_block_by_hash get_block_by_slot repr).
Local Abbreviation emulate_at :=
  (emulate call_emulated check_emulated_exit_status).
Local Abbreviation loop :=
  (eth_call_loop retry_on_fail call_emulated check_emulated_exit_status).
Local Abbreviation bound := (Z.to_nat (Z.max 1 retry_on_fail)).

(** The loop from the round [calls] on: it stops at the first round that
    does not raise [RescheduleError], and at the last round allowed. *)
Lemma eth_call_loop_rounds (contract_id caller_id data value : Json)
    (fuel calls : nat) :
  (calls < bound)%nat -> (bound <= calls + fuel)%nat ->
  let attempt k := emulate_at k contract_id caller_id data value in
  exists k,
    (calls <= k < bound)%nat
    /\ loop fuel calls (Z.of_nat calls) contract_id caller_id data value
       = Some (attempt k, S k)
    /\ (forall j, (calls <= j < k)%nat -> attempt j = Raise RescheduleError)
    /\ (attempt k = Raise RescheduleError -> S k = bound).
Proof.
  intros Hlt Hfuel attempt. revert calls Hlt Hfuel.
  induction fuel as [|fuel IH]; intros calls Hlt Hfuel; [lia|].
  cbn [eth_call_loop]. fold (attempt calls).
  destruct (attempt calls) as [v|e] eqn:Ea.
  - exists calls. split; [lia|]. split; [now rewrite Ea|].
    split; [intros j Hj; lia|]. rewrite Ea. discriminate.
  - destruct e;
      try (exists calls; split; [lia|]; split; [now rewrite Ea|];
           split; [intros j Hj; lia|]; rewrite Ea; discriminate).
    destruct (Z.ltb_spec (Z.of_nat calls + 1) retry_on_fail) as [Hmore|Hlast].
    + destruct (IH (S calls)) as (k & Hk & Hloop & Hbefore & Hend);
        [lia | lia |].
      exists k. split; [lia|]. split.
      * rewrite <- Hloop. f_equal. lia.
      * split; [|exact Hend]. intros j Hj.
        destruct (Nat.eq_dec j calls) as [->|Hne]; [exact Ea|].
        apply Hbefore. lia.
    + exists calls. split; [lia|]. split; [now rewrite Ea|].
      split; [intros j Hj; lia|]. intros _. lia.
Qed.

(** X27. [eth_call] on an accepted tag and a call object with data makes
    at most [max (1, retry_on_fail)] calls of the emulator, and returns
    after that many rounds of its loop at most.  It goes to the next round
    only when a round raised [RescheduleError]; the outcome is the one of
    the last round made, be it a result or an exception, and it is
    [RescheduleError] only when all the allowed rounds raised it. *)
Theorem eth_call_retries (fuel : nat) (obj : Dict) (tag : Tag)
    (obj_data : Json) :
  validate_block_tag tag = Ok tt ->
  dict_get obj "data" = Some obj_data ->
  truthy obj_data = true ->
  (bound <= fuel)%nat ->
  let attempt k :=
    emulate_at k
      (dict_get_default obj "to" (JStr "deploy"))
      (dict_get_default obj "from"
         (JStr "0x0000000000000000000000000000000000000000"))
      obj_data
      (dict_get_default obj "value" (JStr "")) in
  exists k,
    (k < bound)%nat
    /\ eth_call is_empty get_block_by_hash get_block_by_slot repr
         retry_on_fail call_emulated check_emulated_exit_status
         fuel (JDict obj) tag
       = Some (attempt k, S k)
    /\ (forall j, (j < k)%nat -> attempt j = Raise RescheduleError)
    /\ (attempt k = Raise RescheduleError -> S k = bound).
Proof.
  intros Htag Hdata Htruthy Hfuel attempt.
  destruct (eth_call_loop_rounds
              (dict_get_default obj "to" (JStr "deploy"))
              (dict_get_default obj "from"
                 (JStr "0x0000000000000000000000000000000000000000"))
              obj_data
              (dict_get_default obj "value" (JStr ""))
              fuel 0) as (k & Hk & Hloop & Hbefore & Hend); [lia | lia |].
  exists k. split; [lia|]. split.
  - unfold eth_call, dict_item. rewrite Htag, Hdata, Htruthy. cbn [negb].
    unfold dict_get_default at 3. rewrite Hdata. exact Hloop.
  - split; [|exact Hend]. intros j Hj. apply Hbefore. lia.
Qed.

End CallFacts.

(** * The RPC worker: logs *)

Section LogFacts.
Import Py NeonRpcApiWorker.
Local Open Scope string_scope.

(** ** Dictionaries *)

Lemma dict_get_set (d : Dict) (key : string) (value : Json) (k : string) :
  dict_get (dict_set d key value) k
  = if key =? k then Some value else dict_get d k.
Proof.
  induction d as [|[a b] d IH]; [reflexivity|].
  cbn [dict_set]. destruct (String.eqb_spec a key) as [->|Hne].
  - cbn [dict_get]. now destruct (key =? k).
  - cbn [dict_get]. rewrite IH.
    destruct (String.eqb_spec a k) as [->|Hak]; [|reflexivity].
    destruct (String.eqb_spec key k) as [->|]; [contradiction|reflexivity].
Qed.

Lemma dict_set_in (d : Dict) (key : string) (value : Json)
    (k : string) (v : Json) :
  In (k, v) (dict_set d key value) -> In (k, v) d \/ (k = key /\ v = value).
Proof.
  induction d as [|[a b] d IH]; cbn [dict_set].
  - intros [H|[]]. injection H as <- <-. now right.
  - destruct (String.eqb_spec a key) as [->|Hne].
    + intros [H|H]; [injection H as <- <-; now right | left; now right].
    + intros [H|H]; [left; now left|].
      destruct (IH H) as [H'|H']; [left; now right | now right].
Qed.

Lemma dict_get_in (d : Dict) (k : string) :
  dict_get d k <> None -> exists v, In (k, v) d.
Proof.
  induction d as [|[a b] d IH]; [now intros H|].
  cbn [dict_get]. destruct (String.eqb_spec a k) as [->|Hne].
  - intros _. exists b. now left.
  - intros H. destruct (IH H) as (v & Hv). exists v. now right.
Qed.

Lemma in_dict_get (d : Dict) (k : string) (v : Json) :
  In (k, v) d -> dict_get d k <> None.
Proof.
  induction d as [|[a b] d IH]; [intros []|].
  cbn [dict_get]. intros [H|H].
  - injection H as -> ->. now rewrite String.eqb_refl.
  - destruct (a =? k); [discriminate | now apply IH].
Qed.

(** ** One item of a record *)

(** No key is lost, and the key of the item is there afterwards unless it
    is hidden. *)
Lemma filter_item_keys (full : bool) (new_log_rec new_log_rec' : Dict)
    (key : string) (value : Json) :
  filter_item full new_log_rec key value = Ok new_log_rec' ->
  (forall k, dict_get new_log_rec k <> None -> dict_get new_log_rec' k <> None)
  /\ (full = true \/ str_take 4 key <> "neon" ->
      dict_get new_log_rec' key <> None).
Proof.
  unfold filter_item.
  assert (Hset : forall v,
             (forall k, dict_get new_log_rec k <> None ->
                        dict_get (dict_set new_log_rec key v) k <> None)
             /\ dict_get (dict_set new_log_rec key v) key <> None).
  { intros v. split.
    - intros k Hk. rewrite dict_get_set. now destruct (key =? k).
    - rewrite dict_get_set, String.eqb_refl. discriminate. }
  destruct (if key =? "data"
            then rbind (len value) (fun n => Ok (n =? 0)%nat)
            else Ok false) as [[|]|e]; cbn [rbind]; [| |discriminate].
  - intros H. injection H as <-. split; [apply Hset|]. intros _. apply Hset.
  - destruct (full && (key =? "neonEventType")).
    + destruct (_decode_event_type value) as [decoded|e];
        cbn [rbind]; [|discriminate].
      intros H. injection H as <-. split; [apply Hset|]. intros _. apply Hset.
    + destruct (String.eqb_spec (str_take 4 key) "neon") as [Hn|Hn].
      * destruct full; cbn [orb negb]; intros H; injection H as <-.
        -- split; [apply Hset|]. intros _. apply Hset.
        -- split; [auto|]. intros [H|H]; [discriminate | contradiction].
      * rewrite orb_true_r. intros H. injection H as <-.
        split; [apply Hset|]. intros _. apply Hset.
Qed.

(** In the standard view an entry is new only for a key that is not
    hidden, with the value of the item or [0x] for empty data. *)
Lemma filter_item_standard (new_log_rec new_log_rec' : Dict)
    (key : string) (value : Json) (k : string) (v : Json) :
  filter_item false new_log_rec key value = Ok new_log_rec' ->
  In (k, v) new_log_rec' ->
  In (k, v) new_log_rec
  \/ (k = key /\ str_take 4 key <> "neon"
      /\ (v = value \/ (key = "data" /\ v = JStr "0x" /\ len value = Ok O))).
Proof.
  unfold filter_item.
  destruct (String.eqb_spec key "data") as [->|Hkey].
  - destruct (len value) as [n|e] eqn:El; cbn [rbind]; [|discriminate].
    destruct (Nat.eqb_spec n 0) as [->|Hn].
    + intros H. injection H as <-. intros Hin.
      apply dict_set_in in Hin. destruct Hin as [Hin|[-> ->]]; [now left|].
      right. split; [reflexivity|]. split; [discriminate|].
      right. now repeat split.
    + cbn [andb orb negb]. intros H. injection H as <-. intros Hin.
      apply dict_set_in in Hin. destruct Hin as [Hin|[-> ->]]; [now left|].
      right. split; [reflexivity|]. split; [discriminate|]. now left.
  - cbn [rbind andb orb].
    destruct (String.eqb_spec (str_take 4 key) "neon") as [Hn|Hn];
      cbn [negb]; intros H; injection H as <-; intros Hin; [now left|].
    apply dict_set_in in Hin. destruct Hin as [Hin|[-> ->]]; [now left|].
    right. split; [reflexivity|]. split; [exact Hn|]. now left.
Qed.

(** ** The items of a record *)

Lemma filter_items_keys (full : bool) (items new_log_rec new_log_rec' : Dict) :
  filter_items full items new_log_rec = Ok new_log_rec' ->
  (forall k, dict_get new_log_rec k <> None -> dict_get new_log_rec' k <> None)
  /\ (forall k v, In (k, v) items ->
                  full = true \/ str_take 4 k <> "neon" ->
                  dict_get new_log_rec' k <> None).
Proof.
  revert new_log_rec. induction items as [|[key value] items IH];
    intros new_log_rec.
  - cbn. intros H. injection H as <-. split; [auto|]. intros k v [].
  - cbn [filter_items].
    destruct (filter_item full new_log_rec key value) as [mid|e] eqn:E;
      cbn [rbind]; [|discriminate].
    intros H. destruct (filter_item_keys _ _ _ _ _ E) as [Hmono Hkey].
    destruct (IH mid H) as [Hmono' Hrest].
    split; [auto|].
    intros k v [Hin|Hin] Hshown.
    + injection Hin as -> ->. auto.
    + eauto.
Qed.

Lemma filter_items_standard (items new_log_rec new_log_rec' : Dict)
    (k : string) (v : Json) :
  filter_items false items new_log_rec = Ok new_log_rec' ->
  In (k, v) new_log_rec' ->
  In (k, v) new_log_rec
  \/ (str_take 4 k <> "neon"
      /\ (In (k, v) items
          \/ (k = "data" /\ v = JStr "0x"
              /\ exists value, In (k, value) items /\ len value = Ok O))).
Proof.
  revert new_log_rec. induction items as [|[key value] items IH];
    intros new_log_rec.
  - cbn. intros H. injection H as <-. now left.
  - cbn [filter_items].
    destruct (filter_item false new_log_rec key value) as [mid|e] eqn:E;
      cbn [rbind]; [|discriminate].
    intros H Hin. destruct (IH mid H Hin) as [Hmid|(Hn & Hrest)].
    + destruct (filter_item_standard _ _ _ _ _ _ E Hmid)
        as [Hold|(-> & Hn & [->|(-> & -> & Hl)])].
      * now left.
      * right. split; [exact Hn|]. left. now left.
      * right. split; [exact Hn|]. right. split; [reflexivity|].
        split; [reflexivity|]. exists value. split; [now left | exact Hl].
    + right. split; [exact Hn|].
      destruct Hrest as [Hr|(-> & -> & value' & Hv & Hl)].
      * left. now right.
      * right. split; [reflexivity|]. split; [reflexivity|].
        exists value'. split; [now right | exact Hl].
Qed.

(** X28. [_filter_log_list] gives one record for every record it shows, in
    order: all of them in the full view, the ones whose [neonIsHidden] is
    not true in the standard view.  Each record it gives has the key
    [removed] and every key of the record it stands for, but the keys that
    begin with [neon] in the standard view.  In the standard view no key of
    a record given begins with [neon], and every entry is an entry of the
    record it stands for, [0x] in the place of data of length zero, or
    [removed] with [False]. *)
Theorem filtered_logs (log_list filtered_log_list : list Dict)
    (full : bool) :
  _filter_log_list log_list full = Ok filtered_log_list ->
  let hidden (log_rec : Dict) :=
    truthy (dict_get_default log_rec "neonIsHidden" (JBool false)) in
  let shown :=
    if full then log_list
    else filter (fun log_rec => negb (hidden log_rec)) log_list in
  Forall2
    (fun log_rec new_log_rec : Dict =>
       dict_get new_log_rec "removed" <> None
       /\ (forall key,
              dict_get log_rec key <> None ->
              full = true \/ str_take 4 key <> "neon" ->
              dict_get new_log_rec key <> None)
       /\ (full = false ->
           forall key value,
             In (key, value) new_log_rec ->
             str_take 4 key <> "neon"
             /\ ((key = "removed" /\ value = JBool false)
                 \/ In (key, value) log_rec
                 \/ (key = "data" /\ value = JStr "0x"
                     /\ exists data,
                          In (key, data) log_rec /\ len data = Ok O))))
    shown filtered_log_list.
Proof.
  intros Hrun hidden shown. subst shown. revert filtered_log_list Hrun.
  induction log_list as [|log_rec log_list IH]; intros out Hrun.
  - cbn in Hrun. injection Hrun as <-. destruct full; constructor.
  - cbn [_filter_log_list] in Hrun. fold (hidden log_rec) in Hrun.
    assert (Hkept :
              forall new_log_rec rest,
                filter_items full log_rec [("removed", JBool false)]
                = Ok new_log_rec ->
                _filter_log_list log_list full = Ok rest ->
                Forall2
                  (fun log_rec new_log_rec : Dict =>
                     dict_get new_log_rec "removed" <> None
                     /\ (forall key,
                            dict_get log_rec key <> None ->
                            full = true \/ str_take 4 key <> "neon" ->
                            dict_get new_log_rec key <> None)
                     /\ (full = false ->
                         forall key value,
                           In (key, value) new_log_rec ->
                           str_take 4 key <> "neon"
                           /\ ((key = "removed" /\ value = JBool false)
                               \/ In (key, value) log_rec
                               \/ (key = "data" /\ value = JStr "0x"
                                   /\ exists data,
                                        In (key, data) log_rec
                                        /\ len data = Ok O))))
                  (log_rec
                   :: (if full then log_list
                       else filter (fun log_rec => negb (hidden log_rec))
                              log_list))
                  (new_log_rec :: rest)).
    { intros new_log_rec rest Hitems Hrest.
      constructor; [|now apply IH].
      destruct (filter_items_keys _ _ _ _ Hitems) as [Hmono Hkeys].
      split; [apply Hmono; discriminate|]. split.
      - intros key Hkey Hshown. destruct (dict_get_in _ _ Hkey) as (v & Hv).
        eauto.
      - intros -> key value Hin.
        destruct (filter_items_standard _ _ _ _ _ Hitems Hin)
          as [[Hold|[]]|(Hn & Horigin)].
        + injection Hold as <- <-. split; [discriminate|]. now left.
        + split; [exact Hn|]. right. exact Horigin. }
    destruct full.
    + cbn [negb andb] in Hrun.
      destruct (filter_items true log_rec [("removed", JBool false)])
        as [new_log_rec|e] eqn:Hitems; cbn [rbind] in Hrun; [|discriminate].
      destruct (_filter_log_list log_list true) as [rest|e] eqn:Hrest;
        cbn [rbind] in Hrun; [|discriminate].
      injection Hrun as <-. now apply Hkept.
    + cbn [negb andb filter] in Hrun |- *.
      destruct (hidden log_rec); cbn [negb]; [now apply IH|].
      destruct (filter_items false log_rec [("removed", JBool false)])
        as [new_log_rec|e] eqn:Hitems; cbn [rbind] in Hrun; [|discriminate].
      destruct (_filter_log_list log_list false) as [rest|e] eqn:Hrest;
        cbn [rbind] in Hrun; [|discriminate].
      injection Hrun as <-. now apply Hkept.
Qed.

End LogFacts.

(** * The RPC worker: the methods a client may call *)

Section ApiFacts.
Import Py NeonRpcApiWorker.
Local Open Scope string_scope.

Context {ElfParams ElfParamDict : Type}.
Variable set_elf_param_dict :
  ElfParams -> ElfParamDict -> result unit * ElfParams.
Variable has_params : ElfParams -> result bool.
Variable is_evm_compatible : ElfParams -> string -> result bool.
Variable neon_evm_version : ElfParams -> result (option string).
Variable neon_evm_revision : ElfParams -> result (option string).
Variable enable_send_tx_api : bool.
Variable enable_private_api : bool.
Variable get_elf_param_dict : string -> result (option ElfParamDict).
Variable get_req_id_from_log : string.

Local Abbreviation allowed :=
  (is_allowed_api set_elf_param_dict has_params is_evm_compatible
     neon_evm_version neon_evm_revision enable_send_tx_api enable_private_api
     get_elf_param_dict get_req_id_from_log).

(** The checks that follow the reading of the parameters. *)
Lemma allowed_after_refresh (elf_params : ElfParams) (method_name : string) :
  rbind (if in_set method_name always_allowed_method_set
         then has_params elf_params
         else Ok false) (fun allowed_with_params =>
  if allowed_with_params then Ok true
  else
    rbind (is_evm_compatible elf_params NEON_PROXY_PKG_VERSION)
      (fun compatible =>
    if negb compatible then
      rbind (web3_clientVersion neon_evm_version neon_evm_revision elf_params)
        (fun evm_version =>
      Raise (EthereumError
               ("Neon Proxy " ++ neon_proxyVersion
                ++ " is not compatible with Neon EVM " ++ evm_version)))
    else if method_name =? "eth_sendRawTransaction"
    then Ok enable_send_tx_api
    else if in_set method_name private_method_set
            && (negb enable_send_tx_api || negb enable_private_api)
    then Ok false
    else Ok true)) = Ok true ->
  (in_set method_name private_method_set = true ->
   enable_send_tx_api = true /\ enable_private_api = true)
  /\ (method_name = "eth_sendRawTransaction" -> enable_send_tx_api = true)
  /\ ((in_set method_name always_allowed_method_set = true
       /\ has_params elf_params = Ok true)
      \/ is_evm_compatible elf_params NEON_PROXY_PKG_VERSION = Ok true).
Proof.
  assert (Hprivate : in_set method_name private_method_set = true ->
                     in_set method_name always_allowed_method_set = false
                     /\ (method_name =? "eth_sendRawTransaction") = false).
  { unfold in_set, private_method_set. cbn [existsb]. intros H.
    repeat (apply orb_prop in H; destruct H as [H|H]);
      try discriminate H; apply String.eqb_eq in H; subst method_name;
      split; reflexivity. }
  assert (Hsend : method_name = "eth_sendRawTransaction" ->
                  in_set method_name always_allowed_method_set = false)
    by (intros ->; reflexivity).
  destruct (in_set method_name always_allowed_method_set) eqn:Ealways.
  - destruct (has_params elf_params) as [[|]|e] eqn:Ehas; cbn [rbind];
      [| |discriminate].
    + intros _. split; [intros H; now destruct (Hprivate H)|].
      split; [intros H; now specialize (Hsend H)|]. left. now split.
    + destruct (is_evm_compatible elf_params NEON_PROXY_PKG_VERSION)
        as [[|]|e] eqn:Ecompat; cbn [rbind negb]; [| |discriminate].
      * intros _. split; [intros H; now destruct (Hprivate H)|].
        split; [intros H; now specialize (Hsend H)|]. now right.
      * destruct (web3_clientVersion _ _ _); discriminate.
  - cbn [rbind].
    destruct (is_evm_compatible elf_params NEON_PROXY_PKG_VERSION)
      as [[|]|e] eqn:Ecompat; cbn [rbind negb]; [| |discriminate].
    + destruct (String.eqb_spec method_name "eth_sendRawTransaction")
        as [->|Hne].
      * intros H. injection H as ->.
        split; [discriminate|]. split; [reflexivity|]. now right.
      * destruct (in_set method_name private_method_set) eqn:Eprivate.
        -- destruct enable_send_tx_api, enable_private_api;
             cbn [negb orb andb]; try discriminate.
           intros _. split; [now split|]. split; [contradiction|]. now right.
        -- cbn [andb]. intros _. split; [discriminate|].
           split; [contradiction|]. now right.
    + destruct (web3_clientVersion _ _ _); discriminate.
Qed.

(** X29. A method that [is_allowed_api] allows has one of the prefixes
    [eth_], [net_], [web3_] and [neon_].  One of [eth_accounts],
    [eth_sign], [eth_sendTransaction] and [eth_signTransaction] is allowed
    only with both [enable_send_tx_api] and [enable_private_api] on, and
    [eth_sendRawTransaction] only with [enable_send_tx_api] on.  But for
    [neon_proxyVersion], a method is allowed only after the mempool gave the
    parameters of the EVM (when the time is not the one the worker holds)
    and [ElfParams] took them, and then either it is one of the methods that
    are always allowed and [ElfParams] has parameters, or the proxy version
    is compatible with the EVM. *)
Theorem allowed_api_sound (_last_elf_params_time now : Z)
    (elf_params : ElfParams) (method_name : string) :
  fst (allowed _last_elf_params_time now elf_params method_name) = Ok true ->
  let elf_params' :=
    snd (allowed _last_elf_params_time now elf_params method_name) in
  existsb (str_startswith method_name) api_prefixes = true
  /\ (in_set method_name private_method_set = true ->
      enable_send_tx_api = true /\ enable_private_api = true)
  /\ (method_name = "eth_sendRawTransaction" -> enable_send_tx_api = true)
  /\ (method_name <> "neon_proxyVersion" ->
      (_last_elf_params_time <> now ->
       exists elf_param_dict,
         get_elf_param_dict get_req_id_from_log = Ok (Some elf_param_dict)
         /\ set_elf_param_dict elf_params elf_param_dict
            = (Ok tt, elf_params'))
      /\ ((in_set method_name always_allowed_method_set = true
           /\ has_params elf_params' = Ok true)
          \/ is_evm_compatible elf_params' NEON_PROXY_PKG_VERSION = Ok true)).
Proof.
  unfold is_allowed_api.
  destruct (existsb (str_startswith method_name) api_prefixes) eqn:Eprefix;
    cbn [negb]; [|discriminate].
  destruct (String.eqb_spec method_name "neon_proxyVersion") as [->|Hname].
  - intros _. split; [reflexivity|]. split; [discriminate|].
    split; [discriminate|]. contradiction.
  - destruct (Z.eqb_spec _last_elf_params_time now) as [Htime|Htime];
      cbn [negb].
    + cbn [fst snd]. intros Hrun. cbn [rbind] in Hrun.
      destruct (allowed_after_refresh _ _ Hrun) as (Hp & Hs & Hc).
      split; [reflexivity|]. split; [exact Hp|]. split; [exact Hs|].
      intros _. split; [contradiction | exact Hc].
    + destruct (get_elf_param_dict get_req_id_from_log)
        as [[elf_param_dict|]|e] eqn:Eget; cbn [fst snd rbind];
        [| discriminate | discriminate].
      destruct (set_elf_param_dict elf_params elf_param_dict)
        as [[[]|e] elf'] eqn:Eset; cbn [fst snd rbind]; [|discriminate].
      intros Hrun.
      destruct (allowed_after_refresh _ _ Hrun) as (Hp & Hs & Hc).
      split; [reflexivity|]. split; [exact Hp|]. split; [exact Hs|].
      intros _. split; [|exact Hc].
      intros _. exists elf_param_dict. now split.
Qed.

End ApiFacts.

Section WorkerMethodRuns.
Import Py NeonRpcApiWorker WorkerExample.
Local Open Scope string_scope.

Local Abbreviation validate_block_tag :=
  (_validate_block_tag is_empty get_block_by_hash get_block_by_slot repr).
Local Abbreviation balance_of :=
  (eth_getBalance is_empty get_block_by_hash get_block_by_slot repr
     gas_less_tx_max_nonce gas_less_tx_max_gas has_gas_less_tx_permit).

Lemma account_taken :
  _normalize_address account "address" = Ok checksum_account.
Proof. vm_compute. reflexivity. Defined.



Lemma gas_price_last_known_witness :
  Forall (fun c : Z * (string -> result (option MPGasPriceResult)) =>
            fst c <> _last_gas_price_time no_gas_price) gas_price_calls
  /\ _gas_price_value (snd (eth_gasPrice_calls req_id no_gas_price
                              gas_price_calls))
     = Some price_100
  /\ nth_error (fst (eth_gasPrice_calls req_id no_gas_price gas_price_calls)) 0
     = Some (Raise (EthereumError
                      "Failed to calculate gas price. Try again later"))
  /\ nth_error (fst (eth_gasPrice_calls req_id no_gas_price gas_price_calls)) 2
     = Some (Ok "0x64")
  /\ nth_error (fst (eth_gasPrice_calls req_id no_gas_price gas_price_calls)) 3
     = Some (Raise (OtherException "MempoolError")).
Proof.
  assert (Hall : Forall (fun c : Z * (string ->
                                      result (option MPGasPriceResult)) =>
                           fst c <> _last_gas_price_time no_gas_price)
                   gas_price_calls)
    by (repeat constructor; discriminate).
  split; [exact Hall|].
  destruct (gas_price_last_known req_id no_gas_price gas_price_calls Hall)
    as (Hknown & _ & Hanswer).
  split; [exact Hknown|].
  split; [exact (Hanswer 0%nat _ _ eq_refl)|].
  split; [exact (Hanswer 2%nat _ _ eq_refl) | exact (Hanswer 3%nat _ _ eq_refl)].
Defined.

Lemma eth_call_retries_witness :
  validate_block_tag (TagStr "latest") = Ok tt
  /\ dict_get call_object "data" = Some (JStr "0x70a08231")
  /\ truthy (JStr "0x70a08231") = true
  /\ (Z.to_nat (Z.max 1 5) <= 5)%nat
  /\ eth_call is_empty get_block_by_hash get_block_by_slot repr
       5 call_emulated check_emulated_exit_status 5
       (JDict call_object) (TagStr "latest")
     = Some (Ok "0x2a", 3%nat)
  /\ exists k,
       (k < Z.to_nat (Z.max 1 5))%nat
       /\ eth_call is_empty get_block_by_hash get_block_by_slot repr
            5 call_emulated check_emulated_exit_status 5
            (JDict call_object) (TagStr "latest")
          = Some (emulate call_emulated check_emulated_exit_status k
                    (dict_get_default call_object "to" (JStr "deploy"))
                    (dict_get_default call_object "from"
                       (JStr "0x0000000000000000000000000000000000000000"))
                    (JStr "0x70a08231")
                    (dict_get_default call_object "value" (JStr "")),
                  S k).
Proof.
  split; [reflexivity|]. split; [reflexivity|]. split; [reflexivity|].
  split; [vm_compute; lia|]. split; [reflexivity|].
  destruct (eth_call_retries is_empty get_block_by_hash get_block_by_slot
              repr 5 call_emulated check_emulated_exit_status 5
              call_object (TagStr "latest") (JStr "0x70a08231")
              eq_refl eq_refl eq_refl ltac:(vm_compute; lia))
    as (k & Hk & Hrun & _).
  exists k. split; [exact Hk | exact Hrun].
Defined.

Lemma log_list_filtered :
  _filter_log_list log_list false = Ok standard_log_list.
Proof. reflexivity. Qed.

Lemma filtered_logs_witness :
  _filter_log_list log_list false = Ok standard_log_list
  /\ List.length
       (filter (fun log_rec =>
                  negb (truthy (dict_get_default log_rec "neonIsHidden"
                                  (JBool false)))) log_list)
     = List.length standard_log_list.
Proof.
  split; [exact log_list_filtered|].
  exact (Forall2_length (filtered_logs log_list standard_log_list false
                           log_list_filtered)).
Defined.

Lemma eth_sign_allowed :
  fst (is_allowed_api set_elf_param_dict has_params is_evm_compatible
         neon_evm_version neon_evm_revision true true get_elf_param_dict
         req_id 0 1700000000 false "eth_sign")
  = Ok true.
Proof. reflexivity. Qed.

Lemma allowed_api_sound_witness :
  fst (is_allowed_api set_elf_param_dict has_params is_evm_compatible
         neon_evm_version neon_evm_revision true true get_elf_param_dict
         req_id 0 1700000000 false "eth_sign")
  = Ok true
  /\ existsb (str_startswith "eth_sign") api_prefixes = true
  /\ in_set "eth_sign" private_method_set = true
  /\ fst (is_allowed_api set_elf_param_dict has_params is_evm_compatible
            neon_evm_version neon_evm_revision true false get_elf_param_dict
            req_id 0 1700000000 false "eth_sign")
     = Ok false.
Proof.
  split; [exact eth_sign_allowed|].
  destruct (allowed_api_sound set_elf_param_dict has_params is_evm_compatible
              neon_evm_version neon_evm_revision true true get_elf_param_dict
              req_id 0 1700000000 false "eth_sign" eth_sign_allowed)
    as (Hprefix & _).
  split; [exact Hprefix|]. split; reflexivity.
Defined.

End WorkerMethodRuns.

(** * The indexer: where it starts, whatever the configuration *)

Section IndexerBounds.
Import Py IndexerBase.
Local Open Scope string_scope.

Variable get_block_slot : SolCommit -> result Z.
Variable get_first_available_block : result Z.

Local Abbreviation init_with :=
  (init get_block_slot get_first_available_block).


End IndexerBounds.

Section IndexerRuns.
Import Py IndexerBase IndexerExample.
Local Open Scope string_scope.


End IndexerRuns.
